(** * Slot allocation and occupancy ledger of the pharmacy shelf application

    Shallow embedding of the slot/section utilities of [10thgenUI.py]
    (the "Part 2" helpers and the GUI handlers that call them) and the
    properties of the allocator, the occupancy repair pass, the section
    membership check and the slot label codec.

    Conventions of the embedding:
    - the SQLite database is a record of tables, each table a list of rows in
      rowid order; [fetchone] of a [SELECT ... WHERE] is the first matching
      row;
    - Python [str] values are [string]s of 8-bit characters; the character
      classes ([isspace], [isdigit], [upper]) are those of Python on ASCII
      text (code points below 128);
    - Python [int] values are [Z];
    - a Python exception is a [Raise] result. *)

From Stdlib Require Import ZArith NArith Ascii String List Bool Lia DecimalString DecimalZ DecimalPos.
From stdpp Require Import base decidable option list sets gmap strings.

Local Open Scope string_scope.
Local Open Scope Z_scope.

(** ** Python runtime fragments used by the code *)

Module Py.

Inductive exn := IndexError | ValueError | TypeError.

Inductive result (A : Type) :=
| Ok (a : A)
| Raise (e : exn).
Arguments Ok {A} a.
Arguments Raise {A} e.

Definition code (c : ascii) : N := N_of_ascii c.

(** [str.isspace] on one ASCII character: TAB, LF, VT, FF, CR,
    FS, GS, RS, US and the space. *)
Definition isspace (c : ascii) : bool :=
  let n := code c in
  (((9 <=? n) && (n <=? 13)) || ((28 <=? n) && (n <=? 32)))%N.

Definition isdigit_char (c : ascii) : bool :=
  let n := code c in ((48 <=? n) && (n <=? 57))%N.

Definition islower_char (c : ascii) : bool :=
  let n := code c in ((97 <=? n) && (n <=? 122))%N.

Definition isupper_char (c : ascii) : bool :=
  let n := code c in ((65 <=? n) && (n <=? 90))%N.

Definition isalpha_char (c : ascii) : bool :=
  isupper_char c || islower_char c.

Definition upper_char (c : ascii) : ascii :=
  if islower_char c then ascii_of_N (code c - 32) else c.

(** [s.upper()] *)
Fixpoint upper (s : string) : string :=
  match s with
  | EmptyString => EmptyString
  | String c s' => String (upper_char c) (upper s')
  end.

Definition lower_char (c : ascii) : ascii :=
  if isupper_char c then ascii_of_N (code c + 32) else c.

(** [s.lower()] *)
Fixpoint lower (s : string) : string :=
  match s with
  | EmptyString => EmptyString
  | String c s' => String (lower_char c) (lower s')
  end.

Fixpoint lstrip (s : string) : string :=
  match s with
  | EmptyString => EmptyString
  | String c s' => if isspace c then lstrip s' else s
  end.

Fixpoint rstrip (s : string) : string :=
  match s with
  | EmptyString => EmptyString
  | String c s' =>
      match rstrip s' with
      | EmptyString => if isspace c then EmptyString else String c EmptyString
      | t => String c t
      end
  end.

(** [s.strip()] *)
Definition strip (s : string) : string := lstrip (rstrip s).

(** [s.replace("--", "-")]: occurrences are replaced left to right and do
    not overlap. *)
Fixpoint replace_dashdash (s : string) : string :=
  match s with
  | EmptyString => EmptyString
  | String c s' =>
      match s' with
      | String c' s'' =>
          if (Ascii.eqb c "-" && Ascii.eqb c' "-")%bool
          then String "-" (replace_dashdash s'')
          else String c (replace_dashdash s')
      | EmptyString => String c EmptyString
      end
  end.

(** [s.replace(" ", "")] *)
Fixpoint remove_spaces (s : string) : string :=
  match s with
  | EmptyString => EmptyString
  | String c s' =>
      if Ascii.eqb c " " then remove_spaces s' else String c (remove_spaces s')
  end.

Fixpoint all_digits (s : string) : bool :=
  match s with
  | EmptyString => true
  | String c s' => isdigit_char c && all_digits s'
  end.

(** [s.isdigit()]: false on the empty string. *)
Definition isdigit (s : string) : bool :=
  match s with
  | EmptyString => false
  | _ => all_digits s
  end.

(** [s.split(sep)] for a one-character separator; the pieces may be
    empty and there is always at least one. *)
Fixpoint split_on (sep : ascii) (s : string) : list string :=
  match s with
  | EmptyString => [EmptyString]
  | String c s' =>
      if Ascii.eqb c sep then EmptyString :: split_on sep s'
      else match split_on sep s' with
           | p :: ps => String c p :: ps
           | [] => [String c EmptyString]
           end
  end.

(** [s.split()]: maximal runs of non-space characters. [cur] is the
    piece being read. *)
Fixpoint split_ws_from (cur : string) (s : string) : list string :=
  match s with
  | EmptyString =>
      match cur with EmptyString => [] | _ => [cur] end
  | String c s' =>
      if isspace c then
        match cur with
        | EmptyString => split_ws_from EmptyString s'
        | _ => cur :: split_ws_from EmptyString s'
        end
      else split_ws_from (cur +:+ String c EmptyString) s'
  end.

Definition split_ws (s : string) : list string := split_ws_from EmptyString s.

(** [l[-1]] *)
Definition last_item {A} (l : list A) : result A :=
  match List.rev l with
  | [] => Raise IndexError
  | x :: _ => Ok x
  end.

Definition digit_of_char (c : ascii) (d : Decimal.uint) : option Decimal.uint :=
  match (code c - 48)%N with
  | 0%N => Some (Decimal.D0 d) | 1%N => Some (Decimal.D1 d)
  | 2%N => Some (Decimal.D2 d) | 3%N => Some (Decimal.D3 d)
  | 4%N => Some (Decimal.D4 d) | 5%N => Some (Decimal.D5 d)
  | 6%N => Some (Decimal.D6 d) | 7%N => Some (Decimal.D7 d)
  | 8%N => Some (Decimal.D8 d) | 9%N => Some (Decimal.D9 d)
  | _ => None
  end.

(** The digit part of an integer literal accepted by [int(str)]: decimal
    digits, with single underscores allowed between two digits.
    [after_digit] tells whether the previous character was a digit. *)
Fixpoint int_digits (after_digit : bool) (s : string) : option Decimal.uint :=
  match s with
  | EmptyString => if after_digit then Some Decimal.Nil else None
  | String c s' =>
      if isdigit_char c then
        match int_digits true s' with
        | Some d => digit_of_char c d
        | None => None
        end
      else if (Ascii.eqb c "_" && after_digit)%bool then
        match s' with
        | EmptyString => None
        | _ => int_digits false s'
        end
      else None
  end.

(** [int(s)] in base ten; [None] stands for [ValueError]. Surrounding
    whitespace and one sign are accepted. *)
Definition int (s : string) : option Z :=
  match strip s with
  | String "-" t => (fun d => Z.opp (Z.of_uint d)) <$> int_digits false t
  | String "+" t => Z.of_uint <$> int_digits false t
  | t => Z.of_uint <$> int_digits false t
  end.

(** [str(n)] for an integer, as used by an f-string. *)
Definition str (n : Z) : string := NilZero.string_of_int (Z.to_int n).

(** [range(a, b)] *)
Definition range (a b : Z) : list Z :=
  List.map (fun i => a + Z.of_nat i) (List.seq 0 (Z.to_nat (b - a))).

(** [for x in l: ... return y] : the first iteration that returns. *)
Fixpoint for_first {A B} (body : A -> option B) (l : list A) : option B :=
  match l with
  | [] => None
  | x :: l' =>
      match body x with
      | Some y => Some y
      | None => for_first body l'
      end
  end.

End Py.

(** ** The database

    One record per table of [init_db]; only the columns read or written by
    the slot subsystem are kept. [slots_seq] is the AUTOINCREMENT counter of
    the [slots] table (the largest id handed out so far). *)

Record patient := {
  pt_id : Z;
  pt_name : string;
  pt_address : string
}.

Record prescription := {
  p_id : Z;
  p_patient_id : Z;
  p_medication : string;
  p_basket_size : option string;
  p_slot_id : option Z
}.

Record shelf := {
  sh_name : string;
  sh_rows_count : Z;
  sh_cols_count : Z
}.

Record slot := {
  s_id : Z;
  s_shelf : string;
  s_row : string;
  s_col : Z;
  s_occupied : Z
}.

Record letter_section := {
  ls_letter : string;
  ls_shelf : option string;
  ls_lower : option string;
  ls_upper : option string
}.

Record db := {
  patients : list patient;
  prescriptions : list prescription;
  shelves : list shelf;
  slots : list slot;
  letter_sections : list letter_section;
  slots_seq : Z
}.

Definition with_slots (d : db) (t : list slot) : db :=
  {| patients := patients d; prescriptions := prescriptions d;
     shelves := shelves d; slots := t;
     letter_sections := letter_sections d; slots_seq := slots_seq d |}.

Definition with_prescriptions (d : db) (t : list prescription) : db :=
  {| patients := patients d; prescriptions := t;
     shelves := shelves d; slots := slots d;
     letter_sections := letter_sections d; slots_seq := slots_seq d |}.

(** [db_fetchone]: the first row of the table that satisfies the WHERE
    clause. *)
Definition fetchone {A} (where_ : A -> bool) (table : list A) : option A :=
  List.find where_ table.

(** Truth value of a nullable TEXT column: NULL and the empty string are
    false. *)
Definition text_or_none (t : option string) : option string :=
  match t with
  | Some EmptyString | None => None
  | Some s => Some s
  end.

Definition set_occupied_row (v : Z) (s : slot) : slot :=
  {| s_id := s_id s; s_shelf := s_shelf s; s_row := s_row s;
     s_col := s_col s; s_occupied := v |}.

(** [UPDATE slots SET occupied=v WHERE id=sid] *)
Definition update_occupied (v : Z) (sid : Z) (t : list slot) : list slot :=
  List.map (fun s => if s_id s =? sid then set_occupied_row v s else s) t.

Definition at_position (shelf_name row : string) (col : Z) (s : slot) : bool :=
  String.eqb (s_shelf s) shelf_name && String.eqb (s_row s) row && (s_col s =? col).

(** ** Basic helpers for rows, columns and labels *)

Definition rows_range (start_row end_row : ascii) : list ascii :=
  List.map ascii_of_nat
    (List.seq (nat_of_ascii start_row)
              (nat_of_ascii end_row + 1 - nat_of_ascii start_row)).

Definition row_str (r : ascii) : string := String r EmptyString.

Definition parse_bound (bound_text : string) : option (ascii * Z) :=
  match bound_text with
  | EmptyString => None
  | _ =>
      match Py.upper (Py.strip bound_text) with
      | String row (String c rest as tail) =>
          if negb (Py.isalpha_char row) then None
          else match Py.int tail with
               | None => None
               | Some col =>
                   if negb (Ascii.leb "A" row && Ascii.leb row "Z") then None
                   else if col <=? 0 then None
                   else Some (row, col)
               end
      | _ => None
      end
  end.

Definition slot_id_to_tuple (d : db) (slot_id : Z) : option (string * string * Z) :=
  match fetchone (fun s => s_id s =? slot_id) (slots d) with
  | None => None
  | Some r => Some (s_shelf r, s_row r, s_col r)
  end.

Definition slot_id_to_label (d : db) (slot_id : Z) : string :=
  match fetchone (fun s => s_id s =? slot_id) (slots d) with
  | None => EmptyString
  | Some r => s_shelf r +:+ "-" +:+ s_row r +:+ Py.str (s_col r)
  end.

Definition slot_id_at (d : db) (shelf_name row : string) (col : Z) : option Z :=
  s_id <$> fetchone (at_position shelf_name row col) (slots d).

Definition label_to_slot_id (d : db) (label : string) : option Z :=
  match label with
  | EmptyString => None
  | _ =>
      let s := Py.remove_spaces (Py.replace_dashdash (Py.upper (Py.strip label))) in
      if Py.isdigit s then
        match Py.int s with
        | Some n =>
            match fetchone (fun r => s_id r =? n) (slots d) with
            | Some _ => Some n
            | None => None
            end
        | None => None
        end
      else
        match Py.split_on "-" s with
        | [shelf_name; rowcol] =>
            match rowcol with
            | String row (String c rest as coltxt) =>
                match Py.int coltxt with
                | None => None
                | Some col => slot_id_at d shelf_name (row_str row) col
                end
            | _ => None
            end
        | [shelf_name; row; coltxt] =>
            match Py.int coltxt with
            | None => None
            | Some col => slot_id_at d shelf_name row col
            end
        | _ => None
        end
  end.

(** ** Large-basket helpers *)

Definition is_large (basket : option string) : bool :=
  String.eqb (Py.lower (default "small" (text_or_none basket))) "large".

Definition next_col_partner_slot_id (d : db) (primary_slot_id : Z) : option Z :=
  match slot_id_to_tuple d primary_slot_id with
  | None => None
  | Some (shelf_name, row, col) => slot_id_at d shelf_name row (col + 1)
  end.

(** A slot id column read back in Python: NULL and 0 are false. *)
Definition truthy_id (sid : option Z) : option Z :=
  match sid with
  | Some n => if n =? 0 then None else Some n
  | None => None
  end.

Definition expand_slots_for_large_display_or_freeing (d : db) (presc_id : Z) : list Z :=
  match fetchone (fun p => p_id p =? presc_id) (prescriptions d) with
  | None => []
  | Some rec =>
      match truthy_id (p_slot_id rec) with
      | None => []
      | Some sid =>
          if negb (is_large (p_basket_size rec)) then [sid]
          else match truthy_id (next_col_partner_slot_id d sid) with
               | Some partner => [sid; partner]
               | None => [sid]
               end
      end
  end.

(** ** Shelves and slot population *)

Definition max_slot_id (t : list slot) : Z :=
  List.fold_right (fun s m => Z.max (s_id s) m) 0 t.

(** [INSERT INTO slots(shelf,row,col,occupied) VALUES(?,?,?,0)] with an
    AUTOINCREMENT key. *)
Definition insert_slot (shelf_name row : string) (col : Z) (d : db) : db :=
  let new_id := Z.max (slots_seq d) (max_slot_id (slots d)) + 1 in
  {| patients := patients d; prescriptions := prescriptions d;
     shelves := shelves d;
     slots := slots d ++ [ {| s_id := new_id; s_shelf := shelf_name; s_row := row;
                              s_col := col; s_occupied := 0 |} ];
     letter_sections := letter_sections d; slots_seq := new_id |}.

(** Row letter of the [i]-th row, [chr(ord('A') + i)]. *)
Definition row_letter (i : Z) : string :=
  row_str (ascii_of_N (Z.to_N (65 + i))).

Definition populate_slots_for_shelf (d : db) (shelf_name : string)
    (rows_count cols_count : Z) : db :=
  let existing := List.length (List.filter (fun s => String.eqb (s_shelf s) shelf_name) (slots d)) in
  if (0 <? Z.of_nat existing) then d
  else
    List.fold_left
      (fun d i =>
         List.fold_left
           (fun d col => insert_slot shelf_name (row_letter i) col d)
           (Py.range 1 (cols_count + 1)) d)
      (Py.range 0 rows_count) d.

(** ** Occupancy integrity repair *)

(** The loop of [repair_slot_occupancy] that collects the slot ids to mark,
    over the rows of
    [SELECT id, slot_id, basket_size FROM prescriptions WHERE slot_id IS NOT NULL]. *)
Definition collect_seen (d : db) (rows : list prescription) : gset Z :=
  List.fold_left
    (fun (seen : gset Z) p =>
       match truthy_id (p_slot_id p) with
       | None => seen
       | Some sid =>
           let seen :=
             if is_large (p_basket_size p) then
               match truthy_id (next_col_partner_slot_id d sid) with
               | Some partner => seen ∪ {[ partner ]}
               | None => seen
               end
             else seen in
           seen ∪ {[ sid ]}
       end)
    rows ∅.

Definition repair_slot_occupancy (d : db) : db :=
  let cleared := List.map (set_occupied_row 0) (slots d) in
  let rows := List.filter (fun p => bool_decide (is_Some (p_slot_id p))) (prescriptions d) in
  let seen := collect_seen d rows in
  with_slots d (List.fold_left (fun t sid => update_occupied 1 sid t) (elements seen) cleared).

(** ** Letter sections *)

Definition section := (string * ascii * Z * ascii * Z)%type.

Definition get_letter_section (d : db) (letter : string) : option section :=
  match fetchone (fun r => String.eqb (ls_letter r) letter) (letter_sections d) with
  | None => None
  | Some r =>
      match text_or_none (ls_shelf r), text_or_none (ls_lower r), text_or_none (ls_upper r) with
      | Some shelf_name, Some lower, Some upper =>
          match parse_bound lower, parse_bound upper with
          | Some lo, Some up => Some (shelf_name, fst lo, snd lo, fst up, snd up)
          | _, _ => None
          end
      | _, _, _ => None
      end
  end.

Definition get_overflow_section (d : db) : option section :=
  get_letter_section d "Overflow".

(** ** Slot occupancy helpers *)

Definition mark_slots_occupied (d : db) (slot_ids : list Z) : db :=
  with_slots d (List.fold_left (fun t sid => update_occupied 1 sid t) slot_ids (slots d)).

Definition mark_slots_free (d : db) (slot_ids : list Z) : db :=
  with_slots d (List.fold_left (fun t sid => update_occupied 0 sid t) slot_ids (slots d)).

Definition get_slot_by_position (d : db) (shelf_name row : string) (col : Z)
  : option (Z * Z) :=
  (fun s => (s_id s, s_occupied s)) <$> fetchone (at_position shelf_name row col) (slots d).

(** [SELECT MAX(col) FROM slots WHERE shelf=? AND row=?]; [None] is NULL
    (no such row). *)
Definition max_col (d : db) (shelf_name row : string) : option Z :=
  List.fold_right
    (fun s acc =>
       if String.eqb (s_shelf s) shelf_name && String.eqb (s_row s) row
       then Some (match acc with Some m => Z.max (s_col s) m | None => s_col s end)
       else acc)
    None (slots d).

(** ** Section search *)

(** Body of the column loop: the slots returned at column [c] of row [r],
    or [None] when the loop continues. *)
Definition try_column (d : db) (shelf_name : string) (basket_size : string)
    (r : ascii) (c : Z) : option (list Z) :=
  match get_slot_by_position d shelf_name (row_str r) c with
  | None => None
  | Some (sid, occ) =>
      if negb (occ =? 0) then None
      else if String.eqb basket_size "large" then
        match get_slot_by_position d shelf_name (row_str r) (c + 1) with
        | Some (sid2, occ2) => if occ2 =? 0 then Some [sid; sid2] else None
        | None => None
        end
      else Some [sid]
  end.

Definition col_start (start_row : ascii) (start_col : Z) (r : ascii) : Z :=
  if Ascii.eqb r start_row then start_col else 1.

Definition col_end (end_row : ascii) (end_col : Z) (r : ascii) : Z :=
  if Ascii.eqb r end_row then end_col else 10000.

(** Body of the row loop. *)
Definition scan_row (d : db) (shelf_name : string) (start_row : ascii) (start_col : Z)
    (end_row : ascii) (end_col : Z) (basket_size : string) (r : ascii)
  : option (list Z) :=
  let c_start := col_start start_row start_col r in
  let c_end := col_end end_row end_col r in
  match max_col d shelf_name (row_str r) with
  | None => None
  | Some m =>
      if m =? 0 then None
      else
        let c_end := Z.min c_end m in
        Py.for_first (try_column d shelf_name basket_size r) (Py.range c_start (c_end + 1))
  end.

Definition find_slot_in_section (d : db) (shelf_name : string) (start_row : ascii)
    (start_col : Z) (end_row : ascii) (end_col : Z) (basket_size : string)
  : option (list Z * string) :=
  match Py.for_first
          (scan_row d shelf_name start_row start_col end_row end_col basket_size)
          (rows_range start_row end_row) with
  | Some ids => Some (ids, shelf_name)
  | None => None
  end.

Definition find_next_available_slot_primary (d : db) (letter basket_size : string)
  : option (list Z * string) :=
  match get_letter_section d letter with
  | None => None
  | Some (shelf_name, sr, sc, er, ec) =>
      find_slot_in_section d shelf_name sr sc er ec basket_size
  end.

Definition find_next_available_slot_with_overflow (d : db) (letter basket_size : string)
  : option (list Z * string) :=
  match find_next_available_slot_primary d letter basket_size with
  | Some res => Some res
  | None =>
      match get_overflow_section d with
      | Some (shelf_name, sr, sc, er, ec) =>
          match find_slot_in_section d shelf_name sr sc er ec basket_size with
          | Some res2 => Some res2
          | None => None
          end
      | None => None
      end
  end.

(** ** Patient letter and wrong-section checks *)

(** [get_patient_letter]. The string operations are those of [Py], which
    follow Python on ASCII text only: the definition is the code's behaviour
    for patients whose stored name is ASCII, and the statements about it
    carry that hypothesis ([ascii_text]). *)
Definition get_patient_letter (d : db) (patient_id : Z) : Py.result string :=
  match fetchone (fun p => pt_id p =? patient_id) (patients d) with
  | None => Py.Ok "A"
  | Some p =>
      match pt_name p with
      | EmptyString => Py.Ok "A"
      | name =>
          match Py.last_item (Py.split_ws (Py.strip name)) with
          | Py.Raise e => Py.Raise e
          | Py.Ok last =>
              match last with
              | String c _ => Py.Ok (Py.upper (String c EmptyString))
              | EmptyString => Py.Ok "A"
              end
          end
      end
  end.

Definition is_slot_in_letter_section (d : db) (letter : string) (slot_id : Z) : bool :=
  if String.eqb letter "Overflow" then true
  else
    match get_letter_section d letter with
    | None => true
    | Some (shelf_name, sr, sc, er, ec) =>
        match slot_id_to_tuple d slot_id with
        | None => true
        | Some (sname, row, col) =>
            if negb (String.eqb sname shelf_name) then false
            else if String.ltb row (row_str sr) || String.ltb (row_str er) row then false
            else if String.eqb row (row_str sr) && (col <? sc) then false
            else if String.eqb row (row_str er) && (ec <? col) then false
            else true
        end
    end.

(** ** Deleting prescriptions (patient window) *)

(** One iteration of the loop of [delete_selected_prescriptions] for the
    selected prescription [prid]. *)
Definition delete_one_prescription (d : db) (prid : Z) : db :=
  match fetchone (fun p => p_id p =? prid) (prescriptions d) with
  | None => d
  | Some row =>
      let d1 :=
        match truthy_id (p_slot_id row) with
        | None => d
        | Some sid =>
            if is_large (p_basket_size row) then
              let sids_to_free := expand_slots_for_large_display_or_freeing d prid in
              mark_slots_free d (List.filter (fun s => negb (s =? 0)) sids_to_free)
            else mark_slots_free d [sid]
        end in
      with_prescriptions d1
        (List.filter (fun p => negb (p_id p =? prid)) (prescriptions d1))
  end.

(** [delete_selected_prescriptions] once the selection [sel] is confirmed. *)
Definition delete_selected_prescriptions (d : db) (sel : list Z) : db :=
  List.fold_left delete_one_prescription sel d.

(** ** Editing a shelf (settings window) *)

Definition rename_shelf_row (current new_name : string) (r : shelf) : shelf :=
  if String.eqb (sh_name r) current
  then {| sh_name := new_name; sh_rows_count := sh_rows_count r; sh_cols_count := sh_cols_count r |}
  else r.

Definition rename_slot_row (current new_name : string) (s : slot) : slot :=
  if String.eqb (s_shelf s) current
  then {| s_id := s_id s; s_shelf := new_name; s_row := s_row s; s_col := s_col s;
          s_occupied := s_occupied s |}
  else s.

Definition rename_section_row (current new_name : string) (r : letter_section) : letter_section :=
  match ls_shelf r with
  | Some sh =>
      if String.eqb sh current
      then {| ls_letter := ls_letter r; ls_shelf := Some new_name;
              ls_lower := ls_lower r; ls_upper := ls_upper r |}
      else r
  | None => r
  end.

Definition set_shelf_extent (name : string) (rows_count cols_count : Z) (r : shelf) : shelf :=
  if String.eqb (sh_name r) name
  then {| sh_name := sh_name r; sh_rows_count := rows_count; sh_cols_count := cols_count |}
  else r.

(** [apply_edit] for the selected shelf [current], the text of the
    new-name entry and the two integers read from the rows/cols entries,
    once the change is confirmed. *)
Definition apply_edit (d : db) (current new_name_entry : string)
    (rows_count cols_count : Z) : db :=
  let new_name :=
    Py.upper (Py.strip (match new_name_entry with
                        | EmptyString => current
                        | e => e
                        end)) in
  let renamed :=
    if negb (String.eqb new_name current) then
      match fetchone (fun r => String.eqb (sh_name r) new_name) (shelves d) with
      | Some _ => None
      | None =>
          Some {| patients := patients d; prescriptions := prescriptions d;
                  shelves := List.map (rename_shelf_row current new_name) (shelves d);
                  slots := List.map (rename_slot_row current new_name) (slots d);
                  letter_sections :=
                    List.map (rename_section_row current new_name) (letter_sections d);
                  slots_seq := slots_seq d |}
      end
    else Some d in
  match renamed with
  | None => d
  | Some d1 =>
      let d2 :=
        {| patients := patients d1; prescriptions := prescriptions d1;
           shelves := List.map (set_shelf_extent new_name rows_count cols_count) (shelves d1);
           slots := slots d1; letter_sections := letter_sections d1;
           slots_seq := slots_seq d1 |} in
      populate_slots_for_shelf d2 new_name rows_count cols_count
  end.

(** ** Vocabulary of the statements *)

(** Position [(r, c)] is visited by the scan: [r] is a row of the section,
    the row has a non-zero maximum populated column [m], and [c] lies between
    the row's first column and the smaller of its last column and [m]. *)
Definition scanned (d : db) (shelf_name : string) (sr : ascii) (sc : Z) (er : ascii) (ec : Z)
    (r : ascii) (c : Z) : Prop :=
  (nat_of_ascii sr <= nat_of_ascii r <= nat_of_ascii er)%nat /\
  exists m, max_col d shelf_name (row_str r) = Some m /\ m <> 0 /\
            col_start sr sc r <= c <= Z.min (col_end er ec r) m.

(** Row first, then column. *)
Definition earlier (r : ascii) (c : Z) (r' : ascii) (c' : Z) : Prop :=
  (nat_of_ascii r < nat_of_ascii r')%nat \/ (r = r' /\ c < c').

(** *** The scan, written out

    The definitions below do not mention the functions of the search: they
    say which positions a section has and what a fit is in terms of the slot
    records alone, and the theorems compare the search with them. *)

(** [m] is the largest column among the slot records of the row. *)
Definition row_max (d : db) (shelf_name row : string) (m : Z) : Prop :=
  (exists s, In s (slots d) /\ s_shelf s = shelf_name /\ s_row s = row /\ s_col s = m) /\
  forall s, In s (slots d) -> s_shelf s = shelf_name -> s_row s = row -> s_col s <= m.

(** The positions of a section that the search looks at: a row of the
    section, from [sc] on the first row and from column 1 on the others, up
    to [ec] on the last row and up to column 10000 on the others, and never
    past the largest column of the row, which must not be 0. *)
Definition visited (d : db) (shelf_name : string) (sr : ascii) (sc : Z) (er : ascii) (ec : Z)
    (r : ascii) (c : Z) : Prop :=
  (nat_of_ascii sr <= nat_of_ascii r <= nat_of_ascii er)%nat /\
  (r = sr -> sc <= c) /\ (r <> sr -> 1 <= c) /\
  (r = er -> c <= ec) /\ (r <> er -> c <= 10000) /\
  exists m, row_max d shelf_name (row_str r) m /\ m <> 0 /\ c <= m.

(** The positions of the section as its contract words them: the first row
    from [sc], the last row up to [ec], the rows in between over their full
    populated range, every row up to its largest column. *)
Definition visited_as_stated (d : db) (shelf_name : string) (sr : ascii) (sc : Z)
    (er : ascii) (ec : Z) (r : ascii) (c : Z) : Prop :=
  (nat_of_ascii sr <= nat_of_ascii r <= nat_of_ascii er)%nat /\
  (r = sr -> sc <= c) /\ (r <> sr -> 1 <= c) /\
  (r = er -> c <= ec) /\
  exists m, row_max d shelf_name (row_str r) m /\ c <= m.

(** [s] is the record that a lookup by address finds: the first record of
    the table with that shelf, row and column. *)
Definition slot_at (d : db) (shelf_name row : string) (col : Z) (s : slot) : Prop :=
  s_shelf s = shelf_name /\ s_row s = row /\ s_col s = col /\
  exists before after, slots d = (before ++ s :: after)%list /\
    forall s', In s' before ->
               ~ (s_shelf s' = shelf_name /\ s_row s' = row /\ s_col s' = col).

(** The basket fits at position [(r, c)] with the slots [ids]: the slot
    there is free and, for a large basket, so is the slot at the next column
    of the same row. *)
Definition fits (d : db) (shelf_name basket : string) (r : ascii) (c : Z) (ids : list Z)
  : Prop :=
  exists s1, slot_at d shelf_name (row_str r) c s1 /\ s_occupied s1 = 0 /\
    ((basket <> "large" /\ ids = [s_id s1]) \/
     (basket = "large" /\
      exists s2, slot_at d shelf_name (row_str r) (c + 1) s2 /\ s_occupied s2 = 0 /\
                 ids = [s_id s1; s_id s2])).

(** [res] is the earliest fit among the positions [vis], or [None] when no
    such position fits. *)
Definition earliest_fit (vis : ascii -> Z -> Prop) (d : db)
    (shelf_name basket : string) (res : option (list Z * string)) : Prop :=
  match res with
  | Some (ids, sh) =>
      sh = shelf_name /\
      exists r c, vis r c /\ fits d shelf_name basket r c ids /\
        forall r' c' ids', vis r' c' -> earlier r' c' r c ->
                           ~ fits d shelf_name basket r' c' ids'
  | None => forall r c ids, vis r c -> ~ fits d shelf_name basket r c ids
  end.

(** A free slot at position [(r, c)] of the shelf. *)
Definition free_at (d : db) (shelf_name : string) (r : ascii) (c : Z) : Prop :=
  exists sid, get_slot_by_position d shelf_name (row_str r) c = Some (sid, 0).

(** *** Example databases *)

Definition mk_slot (i : Z) (sh row : string) (col occ : Z) : slot :=
  {| s_id := i; s_shelf := sh; s_row := row; s_col := col; s_occupied := occ |}.

Definition mk_section (letter sh lo up : string) : letter_section :=
  {| ls_letter := letter; ls_shelf := Some sh; ls_lower := Some lo; ls_upper := Some up |}.

Definition mk_presc (i pid : Z) (basket : string) (sid : option Z) : prescription :=
  {| p_id := i; p_patient_id := pid; p_medication := "med";
     p_basket_size := Some basket; p_slot_id := sid |}.

Definition empty_db : db :=
  {| patients := []; prescriptions := []; shelves := []; slots := [];
     letter_sections := []; slots_seq := 0 |}.

(** Shelf F of 2 rows by 3 columns with F-A1..F-A3 and F-B1 occupied, shelf L
    of 1 row by 5 columns all free; letter A filed on F A1..B3, letter B on
    F A1..A3 (full), Overflow on L A1..A5. *)
Definition demo_db : db :=
  {| patients := [ {| pt_id := 1; pt_name := "Ann Adams"; pt_address := "1 Main St" |} ];
     prescriptions :=
       [ mk_presc 1 1 "large" (Some 1); mk_presc 2 1 "small" (Some 3);
         mk_presc 3 1 "small" (Some 4); mk_presc 4 1 "small" None ];
     shelves := [ {| sh_name := "F"; sh_rows_count := 2; sh_cols_count := 3 |};
                  {| sh_name := "L"; sh_rows_count := 1; sh_cols_count := 5 |} ];
     slots := [ mk_slot 1 "F" "A" 1 1; mk_slot 2 "F" "A" 2 1; mk_slot 3 "F" "A" 3 1;
                mk_slot 4 "F" "B" 1 1; mk_slot 5 "F" "B" 2 0; mk_slot 6 "F" "B" 3 0;
                mk_slot 7 "L" "A" 1 0; mk_slot 8 "L" "A" 2 0; mk_slot 9 "L" "A" 3 0;
                mk_slot 10 "L" "A" 4 0; mk_slot 11 "L" "A" 5 0 ];
     letter_sections := [ mk_section "A" "F" "A1" "B3"; mk_section "B" "F" "A1" "A3";
                          mk_section "Overflow" "L" "A1" "A5" ];
     slots_seq := 11 |}.

(** A shelf whose first row reaches column 10001 while the scan of a row
    other than the last one stops at column 10000. *)
Definition wide_db : db :=
  {| patients := []; prescriptions := []; 
     shelves := [ {| sh_name := "F"; sh_rows_count := 2; sh_cols_count := 10001 |} ];
     slots := [ mk_slot 1 "F" "A" 10001 0; mk_slot 2 "F" "B" 1 0 ];
     letter_sections := [ mk_section "A" "F" "A1" "B1" ];
     slots_seq := 2 |}.

(** Shelf F with one row of three columns, F-A1 occupied; the section of
    letter A ends at column 2. *)
Definition edge_db : db :=
  {| patients := []; prescriptions := [];
     shelves := [ {| sh_name := "F"; sh_rows_count := 1; sh_cols_count := 3 |} ];
     slots := [ mk_slot 1 "F" "A" 1 1; mk_slot 2 "F" "A" 2 0; mk_slot 3 "F" "A" 3 0 ];
     letter_sections := [ mk_section "A" "F" "A1" "A2" ];
     slots_seq := 3 |}.

(** Shelf F with one row of ten columns; Overflow is filed on F A1..A5 and
    letter B next to it on F A6..A10. F-A5 and F-A6 are free, every other
    slot is occupied. *)
Definition overlap_db : db :=
  {| patients := []; prescriptions := [];
     shelves := [ {| sh_name := "F"; sh_rows_count := 1; sh_cols_count := 10 |} ];
     slots := [ mk_slot 1 "F" "A" 1 1; mk_slot 2 "F" "A" 2 1; mk_slot 3 "F" "A" 3 1;
                mk_slot 4 "F" "A" 4 1; mk_slot 5 "F" "A" 5 0; mk_slot 6 "F" "A" 6 0;
                mk_slot 7 "F" "A" 7 1; mk_slot 8 "F" "A" 8 1; mk_slot 9 "F" "A" 9 1;
                mk_slot 10 "F" "A" 10 1 ];
     letter_sections := [ mk_section "Overflow" "F" "A1" "A5";
                          mk_section "B" "F" "A6" "A10" ];
     slots_seq := 10 |}.

(** Slot [i] is referenced by a live prescription: some prescription holds
    it as its slot, or holds a large basket whose slot has [i] for
    next-column partner. *)
Definition referenced (d : db) (i : Z) : Prop :=
  exists p k, In p (prescriptions d) /\ p_slot_id p = Some k /\
    (i = k \/ (is_large (p_basket_size p) = true /\
               next_col_partner_slot_id d k = Some i)).

(** Two prescriptions of one household share the family bin F-A1. *)
Definition family_db : db :=
  {| patients := [ {| pt_id := 1; pt_name := "Ann Adams"; pt_address := "1 Main St" |};
                   {| pt_id := 2; pt_name := "Bob Adams"; pt_address := "1 Main St" |} ];
     prescriptions := [ mk_presc 1 1 "small" (Some 1); mk_presc 2 2 "small" (Some 1) ];
     shelves := [ {| sh_name := "F"; sh_rows_count := 1; sh_cols_count := 2 |} ];
     slots := [ mk_slot 1 "F" "A" 1 1; mk_slot 2 "F" "A" 2 0 ];
     letter_sections := [ mk_section "A" "F" "A1" "A2" ];
     slots_seq := 2 |}.

(** Shelf F of one row and one column, populated. *)
Definition small_shelf_db : db :=
  {| patients := []; prescriptions := [];
     shelves := [ {| sh_name := "F"; sh_rows_count := 1; sh_cols_count := 1 |} ];
     slots := [ mk_slot 1 "F" "A" 1 0 ];
     letter_sections := []; slots_seq := 1 |}.

(** [f] rewrites slot rows without touching their key or address. *)
Definition same_address (f : slot -> slot) : Prop :=
  forall s, s_id (f s) = s_id s /\ s_shelf (f s) = s_shelf s /\
            s_row (f s) = s_row s /\ s_col (f s) = s_col s.

(** Python's order on strings, by code point. *)
Definition str_le (a b : string) : Prop := String.leb a b = true.

(** The slot at [(sname, row, col)] lies within the section: same shelf, row
    between the bound rows, and the column bound of each boundary row it
    sits on. *)
Definition within_section (sec : section) (sname row : string) (col : Z) : Prop :=
  let '(shelf_name, sr, sc, er, ec) := sec in
  sname = shelf_name /\ str_le (row_str sr) row /\ str_le row (row_str er) /\
  (row = row_str sr -> sc <= col) /\ (row = row_str er -> col <= ec).

(** Letter S is filed on shelf F, rows B to D, columns 5 to 15. *)
Definition section_db : db :=
  {| patients := [ {| pt_id := 1; pt_name := "Mary Smith"; pt_address := "" |};
                   {| pt_id := 2; pt_name := "   "; pt_address := "" |};
                   {| pt_id := 3; pt_name := ""; pt_address := "" |};
                   {| pt_id := 4; pt_name := "  john   van dyke "; pt_address := "" |} ];
     prescriptions := [];
     shelves := [ {| sh_name := "F"; sh_rows_count := 4; sh_cols_count := 20 |} ];
     slots := [ mk_slot 1 "F" "B" 5 0; mk_slot 2 "F" "D" 15 0; mk_slot 3 "F" "B" 4 0;
                mk_slot 4 "F" "D" 16 0; mk_slot 5 "F" "C" 1 0; mk_slot 6 "F" "C" 20 0;
                mk_slot 7 "F" "A" 7 0; mk_slot 8 "G" "C" 7 0 ];
     letter_sections := [ mk_section "S" "F" "B5" "D15";
                          {| ls_letter := "T"; ls_shelf := Some ""; ls_lower := None;
                             ls_upper := None |} ];
     slots_seq := 8 |}.

Fixpoint all_chars (p : ascii -> bool) (s : string) : bool :=
  match s with
  | EmptyString => true
  | String c s' => p c && all_chars p s'
  end.

(** A character that the label parser leaves alone inside a shelf name or a
    row letter: ASCII, not whitespace, not a hyphen, not a lower-case
    letter. *)
Definition label_safe_char (c : ascii) : bool :=
  (Py.code c <? 128)%N && negb (Py.isspace c) && negb (Ascii.eqb c "-") &&
  negb (Py.islower_char c).

(** Unchanged by [strip], [upper] and the removal of spaces. *)
Definition kept_char (c : ascii) : bool :=
  negb (Py.isspace c) && negb (Py.islower_char c).

Definition not_dash (c : ascii) : bool := negb (Ascii.eqb c "-").

(** The text is ASCII. On such text [Py.isspace], [Py.upper] and [Py.lower]
    are Python's [str.isspace], [str.upper] and [str.lower]; outside ASCII
    they are not (U+00A0 is a blank for Python, and the upper case of one
    character can be two), so statements about names are made for ASCII
    names. *)
Definition ascii_text (s : string) : bool := all_chars (fun c => (Py.code c <? 128)%N) s.


(** The fallback as its contract words it: when the primary section gives
    nothing, every slot of the result lies within the bound of the Overflow
    section and none lies within the bound of the primary section. *)
Definition overflow_only_as_stated (d : db) (letter basket : string) : Prop :=
  find_next_available_slot_primary d letter basket = None ->
  forall ids sh, find_next_available_slot_with_overflow d letter basket = Some (ids, sh) ->
  forall s, In s (slots d) -> In (s_id s) ids ->
    (forall osec, get_overflow_section d = Some osec ->
                  within_section osec (s_shelf s) (s_row s) (s_col s)) /\
    (forall psec, get_letter_section d letter = Some psec ->
                  ~ within_section psec (s_shelf s) (s_row s) (s_col s)).

(** A shelf named with a hyphen. *)
Definition hyphen_db : db :=
  {| patients := []; prescriptions := [];
     shelves := [ {| sh_name := "TOP-1"; sh_rows_count := 1; sh_cols_count := 1 |} ];
     slots := [ mk_slot 1 "TOP-1" "A" 1 0 ];
     letter_sections := []; slots_seq := 1 |}.

(** [label_to_slot_id] after the label has been normalised. *)
Definition resolve_label (d : db) (s : string) : option Z :=
  if Py.isdigit s then
    match Py.int s with
    | Some n =>
        match fetchone (fun r => s_id r =? n) (slots d) with
        | Some _ => Some n
        | None => None
        end
    | None => None
    end
  else
    match Py.split_on "-" s with
    | [shelf_name; rowcol] =>
        match rowcol with
        | String row (String c rest as coltxt) =>
            match Py.int coltxt with
            | None => None
            | Some col => slot_id_at d shelf_name (row_str row) col
            end
        | _ => None
        end
    | [shelf_name; row; coltxt] =>
        match Py.int coltxt with
        | None => None
        | Some col => slot_id_at d shelf_name row col
        end
    | _ => None
    end.

Definition normalise_label (label : string) : string :=
  Py.remove_spaces (Py.replace_dashdash (Py.upper (Py.strip label))).



(** ** Further operations of the slot subsystem *)

(** [UPDATE prescriptions SET slot_id=? WHERE id=?] *)
Definition set_prescription_slot (slot_id presc_id : Z) (t : list prescription)
  : list prescription :=
  List.map (fun p => if p_id p =? presc_id
                     then {| p_id := p_id p; p_patient_id := p_patient_id p;
                             p_medication := p_medication p;
                             p_basket_size := p_basket_size p;
                             p_slot_id := Some slot_id |}
                     else p) t.

(** [auto_assign_for_patient]: the occupancy is repaired, then the search
    runs for the patient's letter. The database after the repair is returned
    with the result. *)
Definition auto_assign_for_patient (d : db) (pid : Z) (basket_size : string)
  : Py.result (db * option (list Z * string)) :=
  let d1 := repair_slot_occupancy d in
  match get_patient_letter d1 pid with
  | Py.Raise e => Py.Raise e
  | Py.Ok letter => Py.Ok (d1, find_next_available_slot_with_overflow d1 letter basket_size)
  end.

(** [accept] of [confirm_auto_assign_popup]: the proposed slots are
    occupied and the first one is stored on the prescription. *)
Definition accept_auto_assign (d : db) (presc_id : Z) (slot_ids : list Z) : Py.result db :=
  let d1 := mark_slots_occupied d slot_ids in
  match slot_ids with
  | [] => Py.Raise Py.IndexError
  | first :: _ =>
      Py.Ok (with_prescriptions d1 (set_prescription_slot first presc_id (prescriptions d1)))
  end.

(** Outcome of [assign] in [manual_assign_popup]: the new database and the
    slots to light, one of the error boxes (the database is left as it was),
    or the [AttributeError] of [None.lower()] for a NULL basket size. *)
Inductive assign_outcome :=
| Assigned (d : db) (lit : list Z)
| InvalidColumn
| SlotDoesNotExist
| SlotAlreadyOccupied (slot_id : Z)
| NoAdjacentSlot
| AdjacentSlotAlreadyOccupied (slot_id : Z)
| BasketAttributeError.

(** The basket of the prescription is large as [assign] reads it: the stored
    size, lower-cased, is "large". A prescription that is not found counts as
    small. *)
Definition stored_basket_large (d : db) (presc_id : Z) : Prop :=
  exists p t, fetchone (fun q => p_id q =? presc_id) (prescriptions d) = Some p /\
              p_basket_size p = Some t /\ Py.lower t = "large".

Definition manual_assign (d : db) (presc_id : Z) (s_entry r_entry c_entry : string)
  : assign_outcome :=
  let s := Py.upper (Py.strip s_entry) in
  let row := Py.upper (Py.strip r_entry) in
  match Py.int (Py.strip c_entry) with
  | None => InvalidColumn
  | Some col =>
      let b :=
        match fetchone (fun p => p_id p =? presc_id) (prescriptions d) with
        | Some p => Py.lower <$> p_basket_size p
        | None => Some (Py.lower "small")
        end in
      match b with
      | None => BasketAttributeError
      | Some b =>
          match get_slot_by_position d s row col with
          | None => SlotDoesNotExist
          | Some (slot_id, occ) =>
              if negb (occ =? 0) then SlotAlreadyOccupied slot_id
              else if String.eqb b "large" then
                match get_slot_by_position d s row (col + 1) with
                | None => NoAdjacentSlot
                | Some (slot_id2, occ2) =>
                    if negb (occ2 =? 0) then AdjacentSlotAlreadyOccupied slot_id2
                    else
                      let d1 := mark_slots_occupied d [slot_id; slot_id2] in
                      Assigned (with_prescriptions d1
                                  (set_prescription_slot slot_id presc_id (prescriptions d1)))
                               [slot_id; slot_id2]
                end
              else
                let d1 := mark_slots_occupied d [slot_id] in
                Assigned (with_prescriptions d1
                            (set_prescription_slot slot_id presc_id (prescriptions d1)))
                         [slot_id]
          end
      end
  end.

(** The rows of
    [SELECT DISTINCT p.id, p.name, pr.slot_id FROM patients p
     JOIN prescriptions pr ON pr.patient_id = p.id
     WHERE p.address = ? AND pr.slot_id IS NOT NULL]
    in the order SQLite produces them: the prescriptions are scanned in the
    outer loop and each one is joined to its patient through the key
    [patients.id]; [DISTINCT] keeps the first copy of a row. *)
Definition family_rows (d : db) (address : string) : list (Z * string * Z) :=
  remove_dups
    (List.flat_map
       (fun pr =>
          match p_slot_id pr with
          | Some sid =>
              List.flat_map
                (fun p =>
                   if (pt_id p =? p_patient_id pr) && String.eqb (pt_address p) address
                   then [ (pt_id p, pt_name p, sid) ]
                   else [])
                (patients d)
          | None => []
          end)
       (prescriptions d)).

(** The loop of [find_family_bins_by_address] over the fetched rows; [seen]
    is the set of slot ids already listed. *)
Fixpoint family_bins_loop (seen : gset Z) (rows : list (Z * string * Z))
  : list (Z * string * Z) :=
  match rows with
  | [] => []
  | (pid, name, slot_id) :: rest =>
      if (slot_id =? 0) || bool_decide (slot_id ∈ seen)
      then family_bins_loop seen rest
      else (pid, name, slot_id) :: family_bins_loop (seen ∪ {[ slot_id ]}) rest
  end.

Definition find_family_bins_by_address (d : db) (address : string)
  : list (Z * string * Z) :=
  match address with
  | EmptyString => []
  | _ => family_bins_loop ∅ (family_rows d address)
  end.

(** [delete_shelf] for the selected shelf [name], once confirmed: blocked
    (database unchanged) while a slot of the shelf is flagged occupied or a
    letter section points at the shelf. *)
Definition delete_shelf (d : db) (name : string) : db :=
  let occ := List.length (List.filter (fun s => String.eqb (s_shelf s) name && (s_occupied s =? 1))
                                      (slots d)) in
  if (0 <? Z.of_nat occ) then d
  else
    let refs := List.length (List.filter (fun r => bool_decide (ls_shelf r = Some name))
                                         (letter_sections d)) in
    if (0 <? Z.of_nat refs) then d
    else
      {| patients := patients d; prescriptions := prescriptions d;
         shelves := List.filter (fun r => negb (String.eqb (sh_name r) name)) (shelves d);
         slots := List.filter (fun s => negb (String.eqb (s_shelf s) name)) (slots d);
         letter_sections := letter_sections d; slots_seq := slots_seq d |}.

(** [add_shelf] for the texts of the two name entries and the integers read
    from the rows/cols entries, once confirmed. *)
Definition add_shelf (d : db) (new_name_entry old_name_entry : string)
    (rows_count cols_count : Z) : db :=
  let name :=
    Py.upper (Py.strip (match new_name_entry with
                        | EmptyString => old_name_entry
                        | e => e
                        end)) in
  match name with
  | EmptyString => d
  | _ =>
      match fetchone (fun r => String.eqb (sh_name r) name) (shelves d) with
      | Some _ => d
      | None =>
          let d1 :=
            {| patients := patients d; prescriptions := prescriptions d;
               shelves := shelves d ++ [ {| sh_name := name; sh_rows_count := rows_count;
                                            sh_cols_count := cols_count |} ];
               slots := slots d; letter_sections := letter_sections d;
               slots_seq := slots_seq d |} in
          populate_slots_for_shelf d1 name rows_count cols_count
      end
  end.

(** The cells of a [rows_count] by [cols_count] grid in insertion order. *)
Definition grid_cells (rows_count cols_count : Z) : list (Z * Z) :=
  List.flat_map (fun i => List.map (fun col => (i, col)) (Py.range 1 (cols_count + 1)))
                (Py.range 0 rows_count).

(** The key the next inserted slot is based on. *)
Definition slot_key_base (d : db) : Z := Z.max (slots_seq d) (max_slot_id (slots d)).

(** The inserts of [populate_slots_for_shelf] as one loop over the cells. *)
Definition insert_cells (shelf_name : string) (cells : list (Z * Z)) (d : db) : db :=
  List.fold_left (fun d ic => insert_slot shelf_name (row_letter (fst ic)) (snd ic) d) cells d.

(** The slot rows created for [cells] when the last key handed out is
    [base]. *)
Fixpoint new_slots (shelf_name : string) (base : Z) (cells : list (Z * Z)) : list slot :=
  match cells with
  | [] => []
  | ic :: rest =>
      mk_slot (base + 1) shelf_name (row_letter (fst ic)) (snd ic) 0
      :: new_slots shelf_name (base + 1) rest
  end.

(** The slot ids that [repair_slot_occupancy] marks. *)
Definition seen_ids (d : db) : gset Z :=
  collect_seen d (List.filter (fun p => bool_decide (is_Some (p_slot_id p))) (prescriptions d)).

(** [delete_selected_patient] for the selected patient [pid], once
    confirmed; indexing the missing row of an unknown patient raises
    [TypeError]. *)
Definition delete_selected_patient (d : db) (pid : Z) : Py.result db :=
  match fetchone (fun q => pt_id q =? pid) (patients d) with
  | None => Py.Raise Py.TypeError
  | Some _ =>
      let rows := List.filter (fun p => p_patient_id p =? pid) (prescriptions d) in
      let sids := List.flat_map (fun p => match truthy_id (p_slot_id p) with
                                          | Some sid => [sid]
                                          | None => []
                                          end) rows in
      let d1 := mark_slots_free d sids in
      Py.Ok {| patients := List.filter (fun q => negb (pt_id q =? pid)) (patients d1);
               prescriptions :=
                 List.filter (fun p => negb (p_patient_id p =? pid)) (prescriptions d1);
               shelves := shelves d1; slots := slots d1;
               letter_sections := letter_sections d1; slots_seq := slots_seq d1 |}
  end.

(** What a shelf edit may not change of a slot row. *)
Definition slot_core (s : slot) : Z * string * Z * Z :=
  (s_id s, s_row s, s_col s, s_occupied s).

(** * Properties *)

(** ** The Python fragments on examples *)

Example py_int_examples :
  Py.int "61" = Some 61 /\ Py.int " 5" = Some 5 /\ Py.int "1_0" = Some 10 /\
  Py.int "-1" = Some (-1) /\ Py.int "B1" = None /\ Py.int "" = None /\
  Py.int "1__0" = None /\ Py.int "_1" = None /\ Py.int "1_" = None /\
  Py.int "+" = None /\ Py.int "007" = Some 7.
Proof. vm_compute. repeat split. Qed.

Example py_str_examples :
  Py.str 0 = "0" /\ Py.str 61 = "61" /\ Py.str (-3) = "-3".
Proof. vm_compute. repeat split. Qed.

Example py_split_examples :
  Py.split_on "-" "F-A61" = ["F"; "A61"] /\
  Py.split_on "-" "F-A-61" = ["F"; "A"; "61"] /\
  Py.split_on "-" "" = [""] /\
  Py.split_on "-" "-A1" = [""; "A1"] /\
  Py.split_ws "  John   van Dyke " = ["John"; "van"; "Dyke"] /\
  Py.split_ws "   " = [] /\
  Py.strip "  a b  " = "a b" /\
  Py.replace_dashdash "a---b" = "a--b" /\
  Py.range 2 5 = [2; 3; 4] /\ Py.range 5 2 = [].
Proof. vm_compute. repeat split. Qed.


(** ** Loops that return at the first hit *)

Section ForFirst.
Context {A B : Type} (body : A -> option B).

Lemma for_first_None (l : list A) :
  Py.for_first body l = None <-> (forall x, In x l -> body x = None).
Proof.
  induction l as [|x l IH]; simpl.
  - split; [intros _ x []|reflexivity].
  - destruct (body x) eqn:Hx.
    + split; [discriminate|]. intros H. specialize (H x (or_introl eq_refl)). congruence.
    + rewrite IH. split.
      * intros H z [<-|Hz]; auto.
      * intros H z Hz. apply H. now right.
Qed.

(** Over an enumeration [g s, g (s+1), ..., g (s+n-1)] the loop returns at
    the least index whose body returns. *)
Lemma for_first_map_seq {I : Type} (g : nat -> I) (f : I -> option B) (s n : nat) (y : B) :
  Py.for_first f (List.map g (List.seq s n)) = Some y ->
  exists i, (s <= i < s + n)%nat /\ f (g i) = Some y /\
            forall j, (s <= j < i)%nat -> f (g j) = None.
Proof.
  revert s. induction n as [|n IH]; intros s; simpl; [discriminate|].
  destruct (f (g s)) eqn:Hs.
  - intros [= ->]. exists s. repeat split; [lia|lia|assumption|]. intros j Hj. lia.
  - intros H. destruct (IH _ H) as (i & Hi & Hfi & Hbefore).
    exists i. repeat split; [lia|lia|assumption|].
    intros j Hj. destruct (Nat.eq_dec j s) as [->|Hne]; [assumption|].
    apply Hbefore. lia.
Qed.
End ForFirst.

Lemma in_range (a b c : Z) : In c (Py.range a b) <-> a <= c < b.
Proof.
  unfold Py.range. rewrite in_map_iff. split.
  - intros (i & <- & Hi). apply in_seq in Hi. lia.
  - intros H. exists (Z.to_nat (c - a)). split; [lia|]. apply in_seq. lia.
Qed.

Lemma for_first_range {B} (f : Z -> option B) (a b : Z) (y : B) :
  Py.for_first f (Py.range a b) = Some y ->
  exists c, a <= c < b /\ f c = Some y /\ forall c', a <= c' < c -> f c' = None.
Proof.
  unfold Py.range. intros H.
  apply (for_first_map_seq (fun i => a + Z.of_nat i) f) in H.
  destruct H as (i & Hi & Hf & Hbefore).
  exists (a + Z.of_nat i). repeat split; [lia|lia|assumption|].
  intros c' Hc'. replace c' with (a + Z.of_nat (Z.to_nat (c' - a))) by lia.
  apply Hbefore. lia.
Qed.

Lemma in_rows_range (sr er r : ascii) :
  In r (rows_range sr er) <-> (nat_of_ascii sr <= nat_of_ascii r <= nat_of_ascii er)%nat.
Proof.
  unfold rows_range. rewrite in_map_iff. split.
  - intros (i & <- & Hi). apply in_seq in Hi.
    pose proof (nat_ascii_bounded er).
    rewrite nat_ascii_embedding by lia. lia.
  - intros H. exists (nat_of_ascii r). split; [apply ascii_nat_embedding|].
    apply in_seq. lia.
Qed.

(** ** The scan order of [find_slot_in_section] *)

Lemma earlier_trichotomy r c r' c' :
  earlier r c r' c' \/ (r = r' /\ c = c') \/ earlier r' c' r c.
Proof.
  unfold earlier.
  destruct (lt_eq_lt_dec (nat_of_ascii r) (nat_of_ascii r')) as [[Hlt|Heq]|Hgt]; auto.
  assert (r = r') as ->.
  { rewrite <- (ascii_nat_embedding r), <- (ascii_nat_embedding r'). now rewrite Heq. }
  destruct (Z.lt_trichotomy c c') as [?|[?|?]]; auto.
Qed.

Lemma scan_row_Some d shelf_name sr sc er ec basket r ids :
  scan_row d shelf_name sr sc er ec basket r = Some ids ->
  exists c m, max_col d shelf_name (row_str r) = Some m /\ m <> 0 /\
    col_start sr sc r <= c <= Z.min (col_end er ec r) m /\
    try_column d shelf_name basket r c = Some ids /\
    forall c', col_start sr sc r <= c' < c -> try_column d shelf_name basket r c' = None.
Proof.
  unfold scan_row. destruct (max_col d shelf_name (row_str r)) as [m|]; [|discriminate].
  destruct (Z.eqb_spec m 0) as [|Hm]; [discriminate|].
  intros H. apply for_first_range in H. destruct H as (c & Hc & Hf & Hbefore).
  exists c, m. repeat split; try assumption; lia.
Qed.

Lemma scan_row_None d shelf_name sr sc er ec basket r :
  scan_row d shelf_name sr sc er ec basket r = None ->
  forall c m, max_col d shelf_name (row_str r) = Some m -> m <> 0 ->
    col_start sr sc r <= c <= Z.min (col_end er ec r) m ->
    try_column d shelf_name basket r c = None.
Proof.
  unfold scan_row. intros H c m Hm Hm0 Hc. rewrite Hm in H.
  destruct (Z.eqb_spec m 0) as [|_]; [contradiction|].
  rewrite for_first_None in H. apply H. apply in_range. lia.
Qed.

(** The scan returns the earliest visited position whose column body
    returns. *)
Lemma find_slot_in_section_Some d shelf_name sr sc er ec basket ids sh :
  find_slot_in_section d shelf_name sr sc er ec basket = Some (ids, sh) ->
  sh = shelf_name /\
  exists r c, scanned d shelf_name sr sc er ec r c /\
    try_column d shelf_name basket r c = Some ids /\
    forall r' c', scanned d shelf_name sr sc er ec r' c' ->
                  earlier r' c' r c -> try_column d shelf_name basket r' c' = None.
Proof.
  unfold find_slot_in_section.
  destruct (Py.for_first _ _) as [ids'|] eqn:Hrows; [|discriminate].
  intros [= -> ->]. split; [reflexivity|].
  unfold rows_range in Hrows.
  apply (for_first_map_seq ascii_of_nat) in Hrows.
  destruct Hrows as (i & Hi & Hrow & Hbefore).
  pose proof (nat_ascii_bounded er) as Her.
  assert (Hemb : nat_of_ascii (ascii_of_nat i) = i) by (apply nat_ascii_embedding; lia).
  apply scan_row_Some in Hrow. destruct Hrow as (c & m & Hm & Hm0 & Hc & Htry & Hcols).
  exists (ascii_of_nat i), c. split; [|split; [assumption|]].
  - split; [rewrite Hemb; lia|]. exists m. auto.
  - intros r' c' [Hr' (m' & Hm' & Hm0' & Hc')] [Hlt|[-> Hlt]].
    + rewrite Hemb in Hlt.
      specialize (Hbefore (nat_of_ascii r') ltac:(lia)).
      rewrite ascii_nat_embedding in Hbefore.
      eapply scan_row_None; eauto.
    + apply Hcols. lia.
Qed.

Lemma find_slot_in_section_None d shelf_name sr sc er ec basket :
  find_slot_in_section d shelf_name sr sc er ec basket = None <->
  forall r c, scanned d shelf_name sr sc er ec r c ->
              try_column d shelf_name basket r c = None.
Proof.
  unfold find_slot_in_section. split.
  - destruct (Py.for_first _ _) eqn:Hrows; [discriminate|]. intros _.
    rewrite for_first_None in Hrows.
    intros r c [Hr (m & Hm & Hm0 & Hc)].
    eapply scan_row_None; eauto. apply Hrows. now apply in_rows_range.
  - intros H. destruct (Py.for_first _ _) as [ids|] eqn:Hrows; [|reflexivity].
    exfalso.
    assert (Hf : find_slot_in_section d shelf_name sr sc er ec basket = Some (ids, shelf_name))
      by (unfold find_slot_in_section; now rewrite Hrows).
    apply find_slot_in_section_Some in Hf.
    destruct Hf as (_ & r & c & Hsc & Htry & _). rewrite (H r c Hsc) in Htry. discriminate.
Qed.

(** The search reads the [slots] table only. *)
Lemma find_slot_in_section_reads_slots d d' shelf_name sr sc er ec basket :
  slots d' = slots d ->
  find_slot_in_section d' shelf_name sr sc er ec basket =
  find_slot_in_section d shelf_name sr sc er ec basket.
Proof.
  intros E. unfold find_slot_in_section. f_equal.
  assert (Hrow : forall r, scan_row d' shelf_name sr sc er ec basket r =
                           scan_row d shelf_name sr sc er ec basket r).
  { intros r. unfold scan_row, max_col, try_column, get_slot_by_position. now rewrite E. }
  induction (rows_range sr er) as [|r l IH]; simpl; [reflexivity|].
  rewrite Hrow. destruct (scan_row d _ _ _ _ _ _ r); [reflexivity|apply IH].
Qed.

(** ** Slot lookups *)

Lemma at_position_true shelf_name row col s :
  at_position shelf_name row col s = true <->
  s_shelf s = shelf_name /\ s_row s = row /\ s_col s = col.
Proof.
  unfold at_position. rewrite !andb_true_iff, !String.eqb_eq, Z.eqb_eq. tauto.
Qed.

Lemma get_slot_by_position_Some d shelf_name row col sid occ :
  get_slot_by_position d shelf_name row col = Some (sid, occ) ->
  exists s, In s (slots d) /\ s_id s = sid /\ s_occupied s = occ /\
            s_shelf s = shelf_name /\ s_row s = row /\ s_col s = col.
Proof.
  unfold get_slot_by_position, fetchone.
  destruct (List.find _ _) as [s|] eqn:Hf; [|discriminate].
  intros [= <- <-]. apply find_some in Hf. destruct Hf as [Hin Hat].
  apply at_position_true in Hat. exists s. tauto.
Qed.

Lemma max_col_ge d shelf_name row s :
  In s (slots d) -> s_shelf s = shelf_name -> s_row s = row ->
  exists m, max_col d shelf_name row = Some m /\ s_col s <= m.
Proof.
  unfold max_col. induction (slots d) as [|x l IH]; simpl; [intros []|].
  intros [->|Hin] Hsh Hrow.
  - apply String.eqb_eq in Hsh. apply String.eqb_eq in Hrow. rewrite Hsh, Hrow. simpl.
    destruct (fold_right _ None l); eexists; split; try reflexivity; lia.
  - destruct (IH Hin Hsh Hrow) as (m & -> & Hm).
    destruct (_ && _); eexists; split; try reflexivity; lia.
Qed.

Lemma try_column_large d shelf_name r c ids :
  try_column d shelf_name "large" r c = Some ids <->
  exists s1 s2, get_slot_by_position d shelf_name (row_str r) c = Some (s1, 0) /\
                get_slot_by_position d shelf_name (row_str r) (c + 1) = Some (s2, 0) /\
                ids = [s1; s2].
Proof.
  unfold try_column. simpl String.eqb. split.
  - destruct (get_slot_by_position d shelf_name (row_str r) c) as [[s1 o1]|]; [|discriminate].
    destruct (Z.eqb_spec o1 0) as [->|]; simpl; [|discriminate].
    destruct (get_slot_by_position d shelf_name (row_str r) (c + 1)) as [[s2 o2]|]; [|discriminate].
    destruct (Z.eqb_spec o2 0) as [->|]; [|discriminate].
    intros [= <-]. eauto.
  - intros (s1 & s2 & -> & -> & ->). reflexivity.
Qed.

Lemma try_column_free d shelf_name basket r c ids :
  try_column d shelf_name basket r c = Some ids -> free_at d shelf_name r c.
Proof.
  unfold try_column, free_at.
  destruct (get_slot_by_position d shelf_name (row_str r) c) as [[s1 o1]|]; [|discriminate].
  destruct (Z.eqb_spec o1 0) as [->|]; simpl; [|discriminate]. eauto.
Qed.

(** ** The search against the written-out scan *)

Lemma find_first_spec {A} (q : A -> bool) (l : list A) (x : A) :
  List.find q l = Some x <->
  exists l1 l2, l = (l1 ++ x :: l2)%list /\ q x = true /\ forall y, In y l1 -> q y = false.
Proof.
  induction l as [|a l IH]; simpl.
  - split; [discriminate|]. intros (l1 & l2 & E & _). destruct l1; discriminate.
  - destruct (q a) eqn:Ha.
    + split.
      * intros [= <-]. exists [], l. split; [reflexivity|]. split; [exact Ha|]. intros y [].
      * intros (l1 & l2 & E & Hx & Hb). destruct l1 as [|b l1]; simpl in E.
        -- injection E as E _. now rewrite E.
        -- injection E as E _. rewrite E in Ha.
           rewrite (Hb b (or_introl eq_refl)) in Ha. discriminate.
    + rewrite IH. split.
      * intros (l1 & l2 & -> & Hx & Hb). exists (a :: l1), l2. split; [reflexivity|].
        split; [exact Hx|]. intros y [<-|Hy]; [exact Ha|now apply Hb].
      * intros (l1 & l2 & E & Hx & Hb). destruct l1 as [|b l1]; simpl in E.
        -- injection E as E _. rewrite E in Ha. congruence.
        -- injection E as _ E. exists l1, l2. split; [exact E|]. split; [exact Hx|].
           intros y Hy. apply Hb. now right.
Qed.

Lemma fetchone_slot_at d shelf_name row col s :
  fetchone (at_position shelf_name row col) (slots d) = Some s <->
  slot_at d shelf_name row col s.
Proof.
  unfold fetchone, slot_at. rewrite find_first_spec. split.
  - intros (l1 & l2 & E & Hx & Hb). apply at_position_true in Hx.
    destruct Hx as (H1 & H2 & H3). repeat split; try assumption.
    exists l1, l2. split; [exact E|]. intros s' Hs' Hat.
    apply at_position_true in Hat. rewrite (Hb s' Hs') in Hat. discriminate.
  - intros (H1 & H2 & H3 & l1 & l2 & E & Hb). exists l1, l2. split; [exact E|].
    split; [apply at_position_true; auto|]. intros y Hy.
    destruct (at_position shelf_name row col y) eqn:Hat; [|reflexivity].
    apply at_position_true in Hat. destruct (Hb y Hy Hat).
Qed.

Lemma get_slot_by_position_slot_at d shelf_name row col sid occ :
  get_slot_by_position d shelf_name row col = Some (sid, occ) <->
  exists s, slot_at d shelf_name row col s /\ s_id s = sid /\ s_occupied s = occ.
Proof.
  unfold get_slot_by_position. split.
  - destruct (fetchone _ _) as [s|] eqn:Hf; [|discriminate].
    intros [= <- <-]. exists s. split; [now apply fetchone_slot_at|auto].
  - intros (s & Hat & <- & <-). apply fetchone_slot_at in Hat. now rewrite Hat.
Qed.

Lemma try_column_fits d shelf_name basket r c ids :
  try_column d shelf_name basket r c = Some ids <-> fits d shelf_name basket r c ids.
Proof.
  unfold try_column, fits. split.
  - destruct (get_slot_by_position d shelf_name (row_str r) c) as [[sid occ]|] eqn:H1;
      [|discriminate].
    apply get_slot_by_position_slot_at in H1. destruct H1 as (s1 & Hat1 & <- & <-).
    destruct (Z.eqb_spec (s_occupied s1) 0) as [Hocc|]; simpl; [|discriminate].
    destruct (String.eqb_spec basket "large") as [Hb|Hb].
    + destruct (get_slot_by_position d shelf_name (row_str r) (c + 1)) as [[sid2 occ2]|] eqn:H2;
        [|discriminate].
      apply get_slot_by_position_slot_at in H2. destruct H2 as (s2 & Hat2 & <- & <-).
      destruct (Z.eqb_spec (s_occupied s2) 0) as [Hocc2|]; [|discriminate].
      intros [= <-]. exists s1. split; [exact Hat1|]. split; [exact Hocc|].
      right. split; [exact Hb|]. exists s2. auto.
    + intros [= <-]. exists s1. split; [exact Hat1|]. split; [exact Hocc|]. now left.
  - intros (s1 & Hat1 & Hocc & Hcase).
    assert (H1 : get_slot_by_position d shelf_name (row_str r) c = Some (s_id s1, 0)).
    { apply get_slot_by_position_slot_at. exists s1. auto. }
    rewrite H1. simpl.
    destruct Hcase as [[Hb ->]|(Hb & s2 & Hat2 & Hocc2 & ->)].
    + destruct (String.eqb_spec basket "large"); [contradiction|reflexivity].
    + assert (H2 : get_slot_by_position d shelf_name (row_str r) (c + 1) = Some (s_id s2, 0)).
      { apply get_slot_by_position_slot_at. exists s2. auto. }
      rewrite Hb. simpl. rewrite H2. reflexivity.
Qed.

Lemma max_col_None d shelf_name row :
  max_col d shelf_name row = None ->
  forall s, In s (slots d) -> ~ (s_shelf s = shelf_name /\ s_row s = row).
Proof.
  intros Hm s Hin [Hsh Hrow].
  destruct (max_col_ge d shelf_name row s Hin Hsh Hrow) as (m & E & _). congruence.
Qed.

Lemma max_col_row_max d shelf_name row m :
  max_col d shelf_name row = Some m <-> row_max d shelf_name row m.
Proof.
  assert (Hfwd : forall m0, max_col d shelf_name row = Some m0 -> row_max d shelf_name row m0).
  { clear m. unfold max_col, row_max. induction (slots d) as [|a l IH]; simpl; [discriminate|].
    intros m0.
    destruct (String.eqb_spec (s_shelf a) shelf_name) as [Hsh|Hsh];
      [destruct (String.eqb_spec (s_row a) row) as [Hrow|Hrow]|]; simpl.
    - destruct (fold_right _ None l) as [m1|] eqn:Hacc.
      + destruct (IH m1 eq_refl) as [(s & Hin & H1 & H2 & H3) Hall]. intros [= <-]. split.
        * destruct (Z.max_spec (s_col a) m1) as [[_ ->]|[_ ->]].
          -- exists s. auto.
          -- exists a. auto.
        * intros s' [<-|Hs'] Hs1 Hs2; [lia|]. specialize (Hall s' Hs' Hs1 Hs2). lia.
      + intros [= <-]. split; [exists a; auto|].
        intros s' [<-|Hs'] Hs1 Hs2; [lia|]. exfalso.
        assert (Hge : exists m, fold_right
                  (fun s acc =>
                     if String.eqb (s_shelf s) shelf_name && String.eqb (s_row s) row
                     then Some (match acc with Some m => Z.max (s_col s) m | None => s_col s end)
                     else acc) None l = Some m).
        { clear - Hs' Hs1 Hs2. induction l as [|x l IHl]; simpl; [destruct Hs'|].
          destruct Hs' as [->|Hs'].
          - apply String.eqb_eq in Hs1. apply String.eqb_eq in Hs2. rewrite Hs1, Hs2. simpl.
            eauto.
          - destruct (IHl Hs') as (m & ->). destruct (_ && _); eauto. }
        destruct Hge as (m & Hm). congruence.
    - intros Hm. destruct (IH m0 Hm) as [(s & Hin & H1 & H2 & H3) Hall]. split.
      + exists s. auto.
      + intros s' [<-|Hs'] Hs1 Hs2; [contradiction|]. now apply Hall.
    - intros Hm. destruct (IH m0 Hm) as [(s & Hin & H1 & H2 & H3) Hall]. split.
      + exists s. auto.
      + intros s' [<-|Hs'] Hs1 Hs2; [contradiction|]. now apply Hall. }
  split; [apply Hfwd|].
  intros [(s & Hin & Hsh & Hrow & Hcol) Hall].
  destruct (max_col_ge d shelf_name row s Hin Hsh Hrow) as (m' & E & Hle).
  destruct (Hfwd m' E) as [(s' & Hin' & Hsh' & Hrow' & Hcol') Hall'].
  specialize (Hall s' Hin' Hsh' Hrow'). rewrite E. f_equal. lia.
Qed.

(** The positions the code visits are the written-out ones. *)
Lemma scanned_iff_visited d shelf_name sr sc er ec r c :
  scanned d shelf_name sr sc er ec r c <-> visited d shelf_name sr sc er ec r c.
Proof.
  unfold scanned, visited, col_start, col_end. split.
  - intros [Hr (m & Hm & Hm0 & Hc)]. apply max_col_row_max in Hm.
    destruct (Ascii.eqb_spec r sr); destruct (Ascii.eqb_spec r er);
      (split; [exact Hr|]); repeat (split; [intros; try contradiction; lia|]);
      exists m; repeat split; try apply Hm; try assumption; lia.
  - intros (Hr & H1 & H2 & H3 & H4 & m & Hm & Hm0 & Hc). split; [exact Hr|].
    exists m. apply max_col_row_max in Hm. split; [exact Hm|]. split; [exact Hm0|].
    destruct (Ascii.eqb_spec r sr) as [E1|E1]; destruct (Ascii.eqb_spec r er) as [E2|E2];
      try specialize (H1 E1); try specialize (H2 E1);
      try specialize (H3 E2); try specialize (H4 E2); lia.
Qed.

Lemma find_slot_in_section_earliest_fit d shelf_name sr sc er ec basket :
  earliest_fit (visited d shelf_name sr sc er ec) d shelf_name basket
    (find_slot_in_section d shelf_name sr sc er ec basket).
Proof.
  unfold earliest_fit.
  destruct (find_slot_in_section d shelf_name sr sc er ec basket) as [[ids sh]|] eqn:Hf.
  - apply find_slot_in_section_Some in Hf. destruct Hf as (-> & r & c & Hv & Htry & Hmin).
    split; [reflexivity|]. exists r, c.
    split; [now apply scanned_iff_visited|]. split; [now apply try_column_fits|].
    intros r' c' ids' Hv' He Hfit. apply try_column_fits in Hfit.
    apply scanned_iff_visited in Hv'. rewrite (Hmin r' c' Hv' He) in Hfit. discriminate.
  - intros r c ids Hv Hfit. apply try_column_fits in Hfit. apply scanned_iff_visited in Hv.
    rewrite find_slot_in_section_None in Hf. rewrite (Hf r c Hv) in Hfit. discriminate.
Qed.

Lemma slot_at_In d shelf_name row col s : slot_at d shelf_name row col s -> In s (slots d).
Proof.
  intros (_ & _ & _ & l1 & l2 & E & _). rewrite E. apply in_or_app. right. now left.
Qed.

(** ** Scan order (claim C3) *)

(** C3, as amended: for a fixed section bound and a fixed [slots] table,
    [find_slot_in_section] is a function of these alone, and its result is the
    earliest (row, then column) fit among the positions [visited]: the rows
    from [start_row] to [end_row], the first row from [start_col] and the
    others from column 1, the last row up to [end_col] and the others up to
    column 10000, each row up to its largest column (a row without slots or
    with largest column 0 is skipped); it is [None] exactly when no visited
    position fits. The first slot of a result is a free slot record of the
    shelf and, when it is on a row other than the last, at a column of at
    most 10000. *)
Theorem find_slot_in_section_scan_order d shelf_name sr sc er ec basket :
  (forall d', slots d' = slots d ->
     find_slot_in_section d' shelf_name sr sc er ec basket =
     find_slot_in_section d shelf_name sr sc er ec basket) /\
  earliest_fit (visited d shelf_name sr sc er ec) d shelf_name basket
    (find_slot_in_section d shelf_name sr sc er ec basket) /\
  (find_slot_in_section d shelf_name sr sc er ec basket = None <->
   forall r c ids, visited d shelf_name sr sc er ec r c ->
                   ~ fits d shelf_name basket r c ids) /\
  (forall ids sh, find_slot_in_section d shelf_name sr sc er ec basket = Some (ids, sh) ->
     exists s1 rest, ids = s_id s1 :: rest /\ In s1 (slots d) /\
       s_shelf s1 = shelf_name /\ s_occupied s1 = 0 /\
       (s_row s1 <> row_str er -> s_col s1 <= 10000)).
Proof.
  pose proof (find_slot_in_section_earliest_fit d shelf_name sr sc er ec basket) as Hfit.
  split; [|split; [|split]].
  - intros d' E. now apply find_slot_in_section_reads_slots.
  - exact Hfit.
  - destruct (find_slot_in_section d shelf_name sr sc er ec basket) as [[ids sh]|].
    + split; [discriminate|]. intros Hno. exfalso.
      destruct Hfit as (_ & r & c & Hv & Hf & _). exact (Hno r c ids Hv Hf).
    + split; [intros _; exact Hfit|reflexivity].
  - intros ids sh Hres. rewrite Hres in Hfit.
    destruct Hfit as (_ & r & c & Hv & (s1 & Hat & Hocc & Hcase) & _).
    assert (Hin : In s1 (slots d)) by (eapply slot_at_In; eauto).
    destruct Hat as (Hsh & Hrow & Hcol & _).
    destruct Hv as (_ & _ & _ & _ & Hcap & _).
    assert (Hlast : s_row s1 <> row_str er -> s_col s1 <= 10000).
    { intros Hne. rewrite Hcol. apply Hcap. intros ->. now apply Hne. }
    destruct Hcase as [[_ ->]|(_ & s2 & _ & _ & ->)]; eexists _, _; repeat split; eauto.
Qed.

(** C3 as stated fails: in [wide_db] the free slot F-A10001 lies in the first
    row of the section A1..B1, within that row's populated range, yet the
    search returns F-B1. *)
Lemma find_slot_in_section_not_earliest_in_full_range :
  ~ earliest_fit (visited_as_stated wide_db "F" "A" 1 "B" 1) wide_db "F" "small"
      (find_slot_in_section wide_db "F" "A" 1 "B" 1 "small").
Proof.
  assert (Hres : find_slot_in_section wide_db "F" "A" 1 "B" 1 "small" = Some ([2], "F"))
    by (vm_compute; reflexivity).
  rewrite Hres. intros (_ & r & c & Hv & Hfit & Hmin).
  assert (HA : visited_as_stated wide_db "F" "A" 1 "B" 1 "A" 10001).
  { split; [vm_compute; lia|]. split; [intros _; lia|]. split; [intros _; lia|].
    split; [discriminate|]. exists 10001. split; [|lia]. split.
    - exists (mk_slot 1 "F" "A" 10001 0). repeat split. now left.
    - intros s [<-|[<-|[]]] _ Hrow; [simpl; lia|discriminate Hrow]. }
  assert (HfitA : fits wide_db "F" "small" "A" 10001 [1])
    by (apply try_column_fits; reflexivity).
  destruct (earlier_trichotomy "A" 10001 r c) as [He|[[<- <-]|He]].
  - exact (Hmin _ _ _ HA He HfitA).
  - apply try_column_fits in Hfit. discriminate Hfit.
  - destruct He as [Hlt|[-> Hlt]].
    + destruct Hv as [Hr _]. lia.
    + destruct Hfit as (s1 & Hat & _).
      pose proof (slot_at_In _ _ _ _ _ Hat) as Hin.
      destruct Hat as (_ & Hrow & Hcol & _).
      destruct Hin as [<-|[<-|[]]].
      * change (10001 = c) in Hcol. lia.
      * discriminate Hrow.
Qed.

(** ** Large-basket adjacency (claim C4) *)

(** C4: a large-basket result of [find_slot_in_section] is a pair
    [[s1; s2]] of slot records of the searched shelf, [s2] on the row of [s1]
    at the next column, both unoccupied in the scanned table, [s1] at a
    visited position; and a candidate column whose next-column neighbour on
    the same row is missing or occupied is skipped (the column loop
    continues), so a pair never spans two rows. *)
Theorem large_basket_adjacency d shelf_name sr sc er ec ids sh :
  find_slot_in_section d shelf_name sr sc er ec "large" = Some (ids, sh) ->
  (exists s1 s2 r c,
     ids = [s_id s1; s_id s2] /\ sh = shelf_name /\
     In s1 (slots d) /\ In s2 (slots d) /\
     s_shelf s1 = shelf_name /\ s_shelf s2 = shelf_name /\
     s_row s1 = row_str r /\ s_row s2 = s_row s1 /\
     s_col s1 = c /\ s_col s2 = s_col s1 + 1 /\
     s_occupied s1 = 0 /\ s_occupied s2 = 0 /\
     scanned d shelf_name sr sc er ec r c) /\
  (forall r c, ~ free_at d shelf_name r (c + 1) ->
               try_column d shelf_name "large" r c = None).
Proof.
  intros Hf. split.
  - apply find_slot_in_section_Some in Hf.
    destruct Hf as (-> & r & c & Hsc & Htry & _).
    apply try_column_large in Htry. destruct Htry as (i1 & i2 & H1 & H2 & ->).
    apply get_slot_by_position_Some in H1, H2.
    destruct H1 as (s1 & Hin1 & <- & Ho1 & Hsh1 & Hr1 & Hc1).
    destruct H2 as (s2 & Hin2 & <- & Ho2 & Hsh2 & Hr2 & Hc2).
    exists s1, s2, r, c.
    assert (s_col s2 = s_col s1 + 1) by lia.
    assert (s_row s2 = s_row s1) by congruence.
    tauto.
  - intros r c Hno.
    destruct (try_column d shelf_name "large" r c) as [ids'|] eqn:Htry; [|reflexivity].
    apply try_column_large in Htry. destruct Htry as (i1 & i2 & _ & H2 & _).
    exfalso. apply Hno. now exists i2.
Qed.

(** Scenario 2 of the contract: with F-A1..F-A3 and F-B1 occupied, the large
    search of A1..B3 returns the pair F-B2, F-B3. *)
Lemma large_basket_adjacency_witness :
  find_slot_in_section demo_db "F" "A" 1 "B" 3 "large" = Some ([5; 6], "F") /\
  exists s1 s2, [5; 6] = [s_id s1; s_id s2] /\ s_row s2 = s_row s1 /\
                s_col s2 = s_col s1 + 1 /\ s_occupied s1 = 0 /\ s_occupied s2 = 0.
Proof.
  split; [reflexivity|].
  destruct (large_basket_adjacency demo_db "F" "A" 1 "B" 3 [5; 6] "F" eq_refl)
    as [(s1 & s2 & r & c & H) _].
  exists s1, s2. tauto.
Defined.

(** ** The partner column is not clamped to the section (claim C10) *)

(** C10: when the earliest free candidate of the bound is the last position
    [(end_row, end_col)] and the shelf has a free slot at column
    [end_col + 1] of that row, the large search returns that pair; its second
    slot lies at a column beyond [end_col]. *)
Theorem large_partner_beyond_end_col d shelf_name sr sc er ec s1 s2 :
  (nat_of_ascii sr <= nat_of_ascii er)%nat ->
  1 <= ec ->
  (sr = er -> sc <= ec) ->
  get_slot_by_position d shelf_name (row_str er) ec = Some (s1, 0) ->
  get_slot_by_position d shelf_name (row_str er) (ec + 1) = Some (s2, 0) ->
  (forall r c, scanned d shelf_name sr sc er ec r c -> earlier r c er ec ->
               ~ free_at d shelf_name r c) ->
  find_slot_in_section d shelf_name sr sc er ec "large" = Some ([s1; s2], shelf_name) /\
  exists p, In p (slots d) /\ s_id p = s2 /\ s_shelf p = shelf_name /\
            s_row p = row_str er /\ ec < s_col p.
Proof.
  intros Hrows Hec Hsame H1 H2 Hfirst.
  assert (Htry : try_column d shelf_name "large" er ec = Some [s1; s2]).
  { apply try_column_large. eauto. }
  pose proof H2 as H2'. apply get_slot_by_position_Some in H2'.
  destruct H2' as (p & Hin & Hid & _ & Hsh & Hrow & Hcol).
  assert (Hlast : scanned d shelf_name sr sc er ec er ec).
  { split; [lia|].
    destruct (max_col_ge d shelf_name (row_str er) p Hin Hsh Hrow) as (m & Hm & Hle).
    exists m. split; [assumption|]. unfold col_start, col_end.
    rewrite Ascii.eqb_refl. rewrite (Ascii.eqb_sym er sr).
    destruct (Ascii.eqb_spec sr er) as [E|_]; [specialize (Hsame E)|]; lia. }
  split.
  - destruct (find_slot_in_section d shelf_name sr sc er ec "large") as [[ids sh]|] eqn:Hf.
    + apply find_slot_in_section_Some in Hf.
      destruct Hf as (-> & r & c & Hsc & Htry' & Hmin).
      destruct (earlier_trichotomy r c er ec) as [He|[[-> ->]|He]].
      * exfalso. apply (Hfirst r c Hsc He). eapply try_column_free; eauto.
      * congruence.
      * rewrite (Hmin _ _ Hlast He) in Htry. discriminate.
    + rewrite find_slot_in_section_None in Hf. rewrite (Hf _ _ Hlast) in Htry. discriminate.
  - exists p. repeat split; try assumption. lia.
Qed.

(** In [edge_db] the section A1..A2 of shelf F returns the pair F-A2, F-A3
    although column 3 is outside the section. *)
Lemma large_partner_beyond_end_col_witness :
  find_slot_in_section edge_db "F" "A" 1 "A" 2 "large" = Some ([2; 3], "F") /\
  exists p, In p (slots edge_db) /\ s_id p = 3 /\ s_shelf p = "F" /\
            s_row p = row_str "A" /\ 2 < s_col p.
Proof.
  apply (large_partner_beyond_end_col edge_db "F" "A" 1 "A" 2 2 3).
  - lia.
  - lia.
  - intros _. lia.
  - reflexivity.
  - reflexivity.
  - intros r c [Hr (m & Hm & _ & Hc)] [Hlt|[-> Hlt]] [sid Hfree].
    + lia.
    + change (col_start "A" 1 "A") with 1 in Hc.
      assert (c = 1) as -> by lia. discriminate Hfree.
Defined.

(** ** Overflow fallback (claim C5) *)

(** C5, as amended: [find_next_available_slot_with_overflow] returns the
    result of the primary letter section when there is one; otherwise it
    returns the result of searching the Overflow section, that is the
    earliest fit among the visited positions of the Overflow shelf and
    bound, and [None] when the Overflow section is unconfigured or has no
    fit. The first slot of such a result is the free slot at a visited
    position of the Overflow bound, which is no visited position of the
    primary section, where nothing fits; for a basket other than large it is
    the whole result. The second slot of a large result is the next-column
    neighbour of the first and is not held to either bound. *)
Theorem overflow_fallback d letter basket :
  (forall res, find_next_available_slot_primary d letter basket = Some res ->
     find_next_available_slot_with_overflow d letter basket = Some res) /\
  (find_next_available_slot_primary d letter basket = None ->
     find_next_available_slot_with_overflow d letter basket =
     match get_overflow_section d with
     | Some (osh, sr, sc, er, ec) => find_slot_in_section d osh sr sc er ec basket
     | None => None
     end) /\
  (forall osh sr sc er ec,
     find_next_available_slot_primary d letter basket = None ->
     get_overflow_section d = Some (osh, sr, sc, er, ec) ->
     earliest_fit (visited d osh sr sc er ec) d osh basket
       (find_next_available_slot_with_overflow d letter basket)) /\
  (forall ids sh,
     find_next_available_slot_primary d letter basket = None ->
     find_next_available_slot_with_overflow d letter basket = Some (ids, sh) ->
     exists osh sr sc er ec r c s1 rest,
       get_overflow_section d = Some (osh, sr, sc, er, ec) /\ sh = osh /\
       visited d osh sr sc er ec r c /\ fits d osh basket r c ids /\
       ids = s_id s1 :: rest /\ slot_at d osh (row_str r) c s1 /\ s_occupied s1 = 0 /\
       (basket <> "large" -> rest = []) /\
       forall psh psr psc per pec,
         get_letter_section d letter = Some (psh, psr, psc, per, pec) ->
         (forall r' c' ids', visited d psh psr psc per pec r' c' ->
                             ~ fits d psh basket r' c' ids') /\
         ~ (psh = osh /\ visited d psh psr psc per pec r c)).
Proof.
  assert (Hfall : find_next_available_slot_primary d letter basket = None ->
     find_next_available_slot_with_overflow d letter basket =
     match get_overflow_section d with
     | Some (osh, sr, sc, er, ec) => find_slot_in_section d osh sr sc er ec basket
     | None => None
     end).
  { intros Hp. unfold find_next_available_slot_with_overflow. rewrite Hp.
    destruct (get_overflow_section d) as [[[[[osh sr] sc] er] ec]|]; [|reflexivity].
    now destruct (find_slot_in_section d osh sr sc er ec basket). }
  split; [|split; [|split]].
  - intros res Hp. unfold find_next_available_slot_with_overflow. now rewrite Hp.
  - exact Hfall.
  - intros osh sr sc er ec Hp Ho. rewrite (Hfall Hp), Ho.
    apply find_slot_in_section_earliest_fit.
  - intros ids sh Hp Hres. rewrite (Hfall Hp) in Hres.
    destruct (get_overflow_section d) as [[[[[osh sr] sc] er] ec]|]; [|discriminate].
    pose proof (find_slot_in_section_earliest_fit d osh sr sc er ec basket) as Hfit.
    rewrite Hres in Hfit. destruct Hfit as (-> & r & c & Hv & Hf & _).
    assert (Hprim : forall psh psr psc per pec,
               get_letter_section d letter = Some (psh, psr, psc, per, pec) ->
               forall r' c' ids', visited d psh psr psc per pec r' c' ->
                                  ~ fits d psh basket r' c' ids').
    { intros psh psr psc per pec Hsec r' c' ids' Hv' Hf'.
      unfold find_next_available_slot_primary in Hp. rewrite Hsec in Hp.
      pose proof (find_slot_in_section_earliest_fit d psh psr psc per pec basket) as Hno.
      rewrite Hp in Hno. exact (Hno r' c' ids' Hv' Hf'). }
    pose proof Hf as (s1 & Hat & Hocc & Hcase).
    assert (Hshape : exists rest, ids = s_id s1 :: rest /\ (basket <> "large" -> rest = [])).
    { destruct Hcase as [[_ ->]|(Hb & s2 & _ & _ & ->)]; eexists; split; try reflexivity.
      intros Hne. contradiction. }
    destruct Hshape as (rest & Hids & Hrest).
    exists osh, sr, sc, er, ec, r, c, s1, rest.
    repeat (split; [assumption || reflexivity|]).
    intros psh psr psc per pec Hsec. split; [now apply Hprim|].
    intros [-> Hv']. exact (Hprim _ _ _ _ _ Hsec r c ids Hv' Hf).
Qed.

(** Scenario 3 of the contract: the section of letter B (F A1..A3) is full and
    Overflow is shelf L A1..A5, all free: the small search for B returns L-A1;
    for letter A the primary section still has F-B2. *)
Lemma overflow_fallback_witness :
  find_next_available_slot_primary demo_db "B" "small" = None /\
  find_next_available_slot_with_overflow demo_db "B" "small" = Some ([7], "L") /\
  find_next_available_slot_with_overflow demo_db "A" "small" = Some ([5], "F") /\
  find_next_available_slot_with_overflow demo_db "Q" "small" = Some ([7], "L").
Proof.
  split; [reflexivity|]. split; [|split].
  - rewrite (proj1 (proj2 (overflow_fallback demo_db "B" "small")) eq_refl). reflexivity.
  - apply (proj1 (overflow_fallback demo_db "A" "small")). reflexivity.
  - rewrite (proj1 (proj2 (overflow_fallback demo_db "Q" "small")) eq_refl). reflexivity.
Defined.

(** C5 as stated fails for a large basket: in [overlap_db] the section of
    letter B (F A6..A10) has no free pair, and the fallback returns the pair
    F-A5, F-A6 found from the last column of Overflow (F A1..A5): F-A6 is
    past the Overflow bound and inside the section of B. *)
Lemma overflow_fallback_partner_in_primary_section :
  ~ overflow_only_as_stated overlap_db "B" "large".
Proof.
  intros H.
  assert (Hp : find_next_available_slot_primary overlap_db "B" "large" = None)
    by (vm_compute; reflexivity).
  assert (Hres : find_next_available_slot_with_overflow overlap_db "B" "large"
                 = Some ([5; 6], "F")) by (vm_compute; reflexivity).
  destruct (H Hp [5; 6] "F" Hres (mk_slot 6 "F" "A" 6 0)) as [Hin Hout].
  - simpl. tauto.
  - simpl. tauto.
  - specialize (Hin ("F", "A"%char, 1, "A"%char, 5) eq_refl).
    destruct Hin as (_ & _ & _ & _ & Hec). specialize (Hec eq_refl). simpl in Hec. lia.
Qed.

(** ** Occupancy repair (claim C1) *)

Lemma fold_update_occupied v ids t :
  List.fold_left (fun t sid => update_occupied v sid t) ids t =
  List.map (fun s => if bool_decide (s_id s ∈ ids) then set_occupied_row v s else s) t.
Proof.
  revert t. induction ids as [|a ids IH]; intros t; simpl.
  - induction t as [|s t IHt]; simpl; [reflexivity|].
    now rewrite <- IHt.
  - rewrite IH. unfold update_occupied. rewrite List.map_map. apply map_ext. intros s.
    destruct (Z.eqb_spec (s_id s) a) as [E|E]; simpl.
    + rewrite (bool_decide_eq_true_2 (s_id s ∈ a :: ids)) by (rewrite E; left).
      now destruct (bool_decide (s_id s ∈ ids)).
    + destruct (bool_decide (s_id s ∈ ids)) eqn:Hb.
      * apply bool_decide_eq_true in Hb.
        rewrite (bool_decide_eq_true_2 (s_id s ∈ a :: ids)) by (now right).
        reflexivity.
      * apply bool_decide_eq_false in Hb.
        rewrite (bool_decide_eq_false_2 (s_id s ∈ a :: ids)); [reflexivity|].
        intros Hin. apply elem_of_cons in Hin. tauto.
Qed.

(** Lookups by id or by position do not read the [occupied] column. *)
Lemma find_map_occupied (f : slot -> slot) (q : slot -> bool) (t : list slot) :
  (forall s, q (f s) = q s) ->
  List.find q (List.map f t) = f <$> List.find q t.
Proof.
  intros Hq. induction t as [|s t IH]; simpl; [reflexivity|].
  rewrite Hq. destruct (q s); [reflexivity|apply IH].
Qed.

Lemma next_col_partner_same_address d d' f k :
  same_address f -> slots d' = List.map f (slots d) ->
  next_col_partner_slot_id d' k = next_col_partner_slot_id d k.
Proof.
  intros Hf E. unfold next_col_partner_slot_id, slot_id_to_tuple, slot_id_at, fetchone.
  rewrite E. rewrite find_map_occupied by (intros s; now rewrite (proj1 (Hf s))).
  destruct (List.find _ (slots d)) as [s|]; simpl; [|reflexivity].
  destruct (Hf s) as (_ & -> & -> & ->).
  rewrite find_map_occupied.
  - destruct (List.find _ (slots d)) as [s'|]; simpl; [|reflexivity].
    now rewrite (proj1 (Hf s')).
  - intros s'. unfold at_position. destruct (Hf s') as (_ & -> & -> & ->). reflexivity.
Qed.

Lemma collect_seen_same_address d d' f rows :
  same_address f -> slots d' = List.map f (slots d) ->
  collect_seen d' rows = collect_seen d rows.
Proof.
  intros Hf E. unfold collect_seen. generalize (∅ : gset Z).
  induction rows as [|p rows IH]; intros acc; simpl; [reflexivity|].
  destruct (truthy_id (p_slot_id p)) as [sid|]; [|apply IH].
  rewrite (next_col_partner_same_address d d' f sid Hf E). apply IH.
Qed.

Lemma truthy_id_Some o k : truthy_id o = Some k <-> o = Some k /\ k <> 0.
Proof.
  unfold truthy_id. destruct o as [n|]; [|split; [discriminate|intros [? _]; discriminate]].
  destruct (Z.eqb_spec n 0); split.
  - discriminate.
  - intros [[= ->] ?]. contradiction.
  - intros [= ->]. auto.
  - intros [[= ->] _]. reflexivity.
Qed.

Lemma elem_of_collect_seen d rows i :
  i ∈ collect_seen d rows <->
  exists p k, In p rows /\ truthy_id (p_slot_id p) = Some k /\
    (i = k \/ (is_large (p_basket_size p) = true /\
               truthy_id (next_col_partner_slot_id d k) = Some i)).
Proof.
  unfold collect_seen.
  enough (G : forall acc : gset Z,
    i ∈ List.fold_left
          (fun (seen : gset Z) p =>
             match truthy_id (p_slot_id p) with
             | None => seen
             | Some sid =>
                 let seen :=
                   if is_large (p_basket_size p) then
                     match truthy_id (next_col_partner_slot_id d sid) with
                     | Some partner => seen ∪ {[ partner ]}
                     | None => seen
                     end
                   else seen in
                 seen ∪ {[ sid ]}
             end) rows acc <->
    i ∈ acc \/
    exists p k, In p rows /\ truthy_id (p_slot_id p) = Some k /\
      (i = k \/ (is_large (p_basket_size p) = true /\
                 truthy_id (next_col_partner_slot_id d k) = Some i))).
  { rewrite G. split; [intros [H|H]; [set_solver|exact H]|auto]. }
  induction rows as [|p rows IH]; intros acc; simpl.
  - split; [auto|]. intros [H|(p & k & [] & _)]. exact H.
  - rewrite IH. clear IH. split.
    + intros [Hacc|(q & k & Hin & Hq)]; [|right; exists q, k; tauto].
      destruct (truthy_id (p_slot_id p)) as [sid|] eqn:Hsid; [|auto].
      apply elem_of_union in Hacc. destruct Hacc as [Hacc|Hi].
      * destruct (is_large (p_basket_size p)) eqn:Hl; [|auto].
        destruct (truthy_id (next_col_partner_slot_id d sid)) as [partner|] eqn:Hp; [|auto].
        apply elem_of_union in Hacc. destruct Hacc as [Hacc|Hi]; [auto|].
        apply elem_of_singleton in Hi. subst i.
        right. exists p, sid. auto.
      * apply elem_of_singleton in Hi. subst i. right. exists p, sid. auto.
    + intros [Hacc|(q & k & [<-|Hin] & Hk & Hq)].
      * left. destruct (truthy_id (p_slot_id p)); [|exact Hacc].
        destruct (is_large (p_basket_size p)); [|set_solver].
        destruct (truthy_id (next_col_partner_slot_id d z)); set_solver.
      * left. rewrite Hk. destruct Hq as [->|[Hl Hp]]; [set_solver|].
        rewrite Hl, Hp. set_solver.
      * right. exists q, k. auto.
Qed.

Lemma repair_slots d :
  slots (repair_slot_occupancy d) =
  List.map (fun s =>
         set_occupied_row
           (if bool_decide
                 (s_id s ∈ collect_seen d
                    (List.filter (fun p => bool_decide (is_Some (p_slot_id p)))
                                 (prescriptions d)))
            then 1 else 0) s)
      (slots d).
Proof.
  unfold repair_slot_occupancy. simpl. rewrite fold_update_occupied, List.map_map.
  apply map_ext. intros s. simpl.
  destruct (bool_decide (s_id s ∈ elements _)) eqn:Hb.
  - apply bool_decide_eq_true in Hb. apply elem_of_elements in Hb.
    now rewrite bool_decide_eq_true_2.
  - apply bool_decide_eq_false in Hb. rewrite elem_of_elements in Hb.
    now rewrite bool_decide_eq_false_2.
Qed.

Lemma repair_idempotent d :
  repair_slot_occupancy (repair_slot_occupancy d) = repair_slot_occupancy d.
Proof.
  set (d1 := repair_slot_occupancy d).
  assert (Hs := repair_slots d). fold d1 in Hs.
  assert (Hp : prescriptions d1 = prescriptions d) by reflexivity.
  unfold repair_slot_occupancy at 1. rewrite Hp.
  erewrite collect_seen_same_address; [| |exact Hs]; [|intros s; now simpl].
  subst d1. rewrite Hs. rewrite List.map_map.
  unfold repair_slot_occupancy, with_slots. simpl. f_equal.
Qed.

(** C1: after [repair_slot_occupancy] the slot table has the same slots
    as before, each flagged 1 or 0; a slot is flagged occupied exactly when a
    live prescription references it as its slot or, for a large basket, as the
    next-column partner of its slot on the same shelf and row; and running
    the repair a second time changes nothing. Slot ids are the keys handed
    out by AUTOINCREMENT, which are never 0. *)
Theorem repair_slot_occupancy_canonical d :
  (forall s, In s (slots d) -> s_id s <> 0) ->
  List.map (set_occupied_row 0) (slots (repair_slot_occupancy d)) =
    List.map (set_occupied_row 0) (slots d) /\
  (forall s, In s (slots (repair_slot_occupancy d)) ->
     (s_occupied s = 1 <-> referenced d (s_id s)) /\
     (s_occupied s = 0 <-> ~ referenced d (s_id s))) /\
  repair_slot_occupancy (repair_slot_occupancy d) = repair_slot_occupancy d.
Proof.
  intros Hids. split; [|split].
  - rewrite repair_slots, List.map_map. apply map_ext. intros s. reflexivity.
  - intros s' Hin. rewrite repair_slots in Hin. apply in_map_iff in Hin.
    destruct Hin as (s & <- & Hin). simpl.
    assert (Href : s_id s ∈ collect_seen d
                     (List.filter (fun p => bool_decide (is_Some (p_slot_id p)))
                                  (prescriptions d)) <-> referenced d (s_id s)).
    { rewrite elem_of_collect_seen. unfold referenced. split.
      - intros (p & k & Hp & Hk & Hcase). apply List.filter_In in Hp. destruct Hp as [Hp _].
        apply truthy_id_Some in Hk. destruct Hk as [Hk _].
        exists p, k. split; [exact Hp|]. split; [exact Hk|].
        destruct Hcase as [->|[Hl Hpart]]; [auto|].
        apply truthy_id_Some in Hpart. tauto.
      - intros (p & k & Hp & Hk & Hcase).
        assert (Hk0 : k <> 0).
        { destruct Hcase as [<-|[_ Hpart]]; [now apply Hids|].
          intros ->. unfold next_col_partner_slot_id, slot_id_to_tuple, fetchone in Hpart.
          destruct (List.find _ (slots d)) as [s0|] eqn:Hf; [|discriminate].
          apply find_some in Hf. destruct Hf as [Hin0 E0]. apply Z.eqb_eq in E0.
          now apply (Hids s0 Hin0). }
        exists p, k. split.
        { apply List.filter_In. split; [exact Hp|]. rewrite Hk.
          apply bool_decide_eq_true. now eexists. }
        split; [apply truthy_id_Some; auto|].
        destruct Hcase as [->|[Hl Hpart]]; [auto|]. right. split; [exact Hl|].
        apply truthy_id_Some. split; [exact Hpart|]. now apply Hids. }
    destruct (bool_decide _) eqn:Hb.
    + apply bool_decide_eq_true in Hb. apply Href in Hb. split; split; intros; auto; try lia.
      contradiction.
    + apply bool_decide_eq_false in Hb. rewrite Href in Hb. split; split; intros; auto; try lia.
      contradiction.
  - apply repair_idempotent.
Qed.

(** In [demo_db] prescription 1 keeps a large basket at F-A1 (partner F-A2),
    prescriptions 2 and 3 small baskets at F-A3 and F-B1. *)
Lemma repair_slot_occupancy_canonical_witness :
  List.map s_occupied (slots (repair_slot_occupancy demo_db)) = [1; 1; 1; 1; 0; 0; 0; 0; 0; 0; 0] /\
  repair_slot_occupancy (repair_slot_occupancy demo_db) = repair_slot_occupancy demo_db.
Proof.
  split; [vm_compute; reflexivity|].
  apply (repair_slot_occupancy_canonical demo_db).
  intros s Hin. simpl in Hin.
  repeat (destruct Hin as [<-|Hin]; [discriminate|]). destruct Hin.
Defined.

(** ** Section membership (claim C7) *)

Lemma ltb_false_leb a b : String.ltb a b = false <-> str_le b a.
Proof.
  unfold str_le, String.ltb, String.leb. rewrite (String.compare_antisym b a).
  destruct (String.compare a b); simpl; split; congruence.
Qed.

(** C7: [is_slot_in_letter_section] is true for letter "Overflow", for an
    unconfigured section and for a slot id that does not resolve; otherwise
    it is true exactly when the slot is on the section's shelf, its row lies
    between the bound rows, and its column respects [start_col] on the first
    row and [end_col] on the last row, the columns of interior rows being
    unconstrained. For the section B5..D15 of shelf F: F-B5, F-D15 and F-C1 are
    inside, F-B4 and F-D16 are not. *)
Theorem is_slot_in_letter_section_spec :
  (forall d letter slot_id,
     is_slot_in_letter_section d letter slot_id = true <->
     letter = "Overflow" \/ get_letter_section d letter = None \/
     slot_id_to_tuple d slot_id = None \/
     exists sec sname row col,
       get_letter_section d letter = Some sec /\
       slot_id_to_tuple d slot_id = Some (sname, row, col) /\
       within_section sec sname row col) /\
  get_letter_section section_db "S" = Some ("F", "B"%char, 5, "D"%char, 15) /\
  slot_id_to_label section_db 1 = "F-B5" /\
  is_slot_in_letter_section section_db "S" 1 = true /\
  slot_id_to_label section_db 2 = "F-D15" /\
  is_slot_in_letter_section section_db "S" 2 = true /\
  slot_id_to_label section_db 3 = "F-B4" /\
  is_slot_in_letter_section section_db "S" 3 = false /\
  slot_id_to_label section_db 4 = "F-D16" /\
  is_slot_in_letter_section section_db "S" 4 = false /\
  slot_id_to_label section_db 5 = "F-C1" /\
  is_slot_in_letter_section section_db "S" 5 = true /\
  is_slot_in_letter_section section_db "S" 6 = true /\
  is_slot_in_letter_section section_db "S" 7 = false /\
  is_slot_in_letter_section section_db "S" 8 = false /\
  is_slot_in_letter_section section_db "Overflow" 3 = true /\
  is_slot_in_letter_section section_db "T" 3 = true /\
  is_slot_in_letter_section section_db "S" 99 = true.
Proof.
  split; [|vm_compute; repeat split].
  intros d letter slot_id. unfold is_slot_in_letter_section.
  destruct (String.eqb_spec letter "Overflow") as [->|Hov]; [tauto|].
  destruct (get_letter_section d letter) as [[[[[shelf_name sr] sc] er] ec]|]; [|tauto].
  destruct (slot_id_to_tuple d slot_id) as [[[sname row] col]|]; [|tauto].
  assert (Hin : (if negb (String.eqb sname shelf_name) then false
                 else if String.ltb row (row_str sr) || String.ltb (row_str er) row then false
                 else if String.eqb row (row_str sr) && (col <? sc) then false
                 else if String.eqb row (row_str er) && (ec <? col) then false
                 else true) = true <->
                within_section (shelf_name, sr, sc, er, ec) sname row col).
  { unfold within_section. rewrite <- !ltb_false_leb.
    destruct (String.eqb_spec sname shelf_name) as [->|Hs]; simpl; [|intuition congruence].
    destruct (String.ltb row (row_str sr)); simpl; [intuition congruence|].
    destruct (String.ltb (row_str er) row); simpl; [intuition congruence|].
    destruct (String.eqb_spec row (row_str sr)) as [E1|E1];
      destruct (String.eqb_spec row (row_str er)) as [E2|E2];
      destruct (Z.ltb_spec col sc); destruct (Z.ltb_spec ec col); simpl;
      intuition (try congruence; try lia). }
  rewrite Hin. split.
  - intros H. right. right. right. now exists (shelf_name, sr, sc, er, ec), sname, row, col.
  - intros [H|[H|[H|(sec & sname' & row' & col' & [= <-] & [= <- <- <-] & H)]]];
      try congruence; try discriminate.
Qed.

(** ** Patient letter (claim C8) *)

Lemma rstrip_spaces s :
  (forall c, In c (list_ascii_of_string s) -> Py.isspace c = true) -> Py.rstrip s = EmptyString.
Proof.
  induction s as [|c s IH]; simpl; [reflexivity|].
  intros H. rewrite IH by (intros c' Hc'; apply H; now right).
  now rewrite (H c (or_introl eq_refl)).
Qed.

(** A stored name made of whitespace only raises [IndexError]. *)
Lemma get_patient_letter_blank_name d patient_id p c s :
  fetchone (fun q => pt_id q =? patient_id) (patients d) = Some p ->
  pt_name p = String c s ->
  (forall c', In c' (list_ascii_of_string (String c s)) -> Py.isspace c' = true) ->
  get_patient_letter d patient_id = Py.Raise Py.IndexError.
Proof.
  intros Hp Hname Hblank. unfold get_patient_letter. rewrite Hp, Hname.
  unfold Py.strip. rewrite rstrip_spaces by auto. reflexivity.
Qed.


(** ** Deleting a prescription that shares a family bin (claim C2) *)

Lemma update_occupied_frees sid t s :
  In s (update_occupied 0 sid t) -> s_id s = sid -> s_occupied s = 0.
Proof.
  unfold update_occupied. rewrite in_map_iff. intros (s0 & <- & _).
  destruct (Z.eqb_spec (s_id s0) sid); [reflexivity|]. intros; contradiction.
Qed.

(** Deleting a small-basket prescription clears the flag of its slot,
    whoever else references that slot. *)
Lemma delete_one_prescription_frees_slot d prid row sid s :
  fetchone (fun p => p_id p =? prid) (prescriptions d) = Some row ->
  truthy_id (p_slot_id row) = Some sid ->
  is_large (p_basket_size row) = false ->
  In s (slots (delete_one_prescription d prid)) -> s_id s = sid -> s_occupied s = 0.
Proof.
  intros Hrow Hsid Hsmall. unfold delete_one_prescription. rewrite Hrow, Hsid, Hsmall.
  simpl. apply update_occupied_frees.
Qed.

(** C2 fails on the code: in [family_db] prescriptions 1 and 2 share slot
    F-A1; after deleting prescription 1 the slot is flagged free although
    prescription 2 still references it, a state that
    [repair_slot_occupancy] would flag occupied again. *)
Theorem delete_frees_shared_family_bin :
  let d' := delete_selected_prescriptions family_db [1] in
  prescriptions d' = [ mk_presc 2 2 "small" (Some 1) ] /\
  slots d' = [ mk_slot 1 "F" "A" 1 0; mk_slot 2 "F" "A" 2 0 ] /\
  slots (repair_slot_occupancy d') = [ mk_slot 1 "F" "A" 1 1; mk_slot 2 "F" "A" 2 0 ] /\
  slots (repair_slot_occupancy family_db) = slots family_db.
Proof. vm_compute. repeat split. Qed.

(** ** Resizing a shelf (claim C6) *)

(** [populate_slots_for_shelf] does nothing for a shelf that already has a
    slot. *)
Lemma populate_slots_for_shelf_populated d shelf_name rows_count cols_count s :
  In s (slots d) -> s_shelf s = shelf_name ->
  populate_slots_for_shelf d shelf_name rows_count cols_count = d.
Proof.
  intros Hin Hsh. unfold populate_slots_for_shelf.
  destruct (List.filter _ (slots d)) as [|x l] eqn:Hf; [|reflexivity].
  exfalso. assert (Hx : In s (List.filter (fun s => String.eqb (s_shelf s) shelf_name) (slots d))).
  { apply List.filter_In. split; [exact Hin|]. now apply String.eqb_eq. }
  rewrite Hf in Hx. destruct Hx.
Qed.

(** Without a rename, editing a populated shelf leaves the [slots] table as
    it is, whatever the requested extent. *)
Lemma apply_edit_populated_keeps_slots d current rows_count cols_count s :
  Py.upper (Py.strip current) = current ->
  In s (slots d) -> s_shelf s = current ->
  slots (apply_edit d current "" rows_count cols_count) = slots d.
Proof.
  intros Hname Hin Hsh. unfold apply_edit.
  replace (Py.upper (Py.strip match "" with "" => current | String a s0 => String a s0 end))
    with current by (now rewrite Hname).
  rewrite String.eqb_refl. simpl negb. cbv iota.
  erewrite populate_slots_for_shelf_populated; [reflexivity|exact Hin|exact Hsh].
Qed.

(** C6 fails on the code: growing the populated 1 x 1 shelf F to 2 x 2
    updates the metadata but creates no slot record for the added row and
    column; shrinking it deletes nothing; a shelf that has no slot yet is
    populated in full. *)
Theorem apply_edit_does_not_add_slots :
  shelves (apply_edit small_shelf_db "F" "" 2 2) =
    [ {| sh_name := "F"; sh_rows_count := 2; sh_cols_count := 2 |} ] /\
  slots (apply_edit small_shelf_db "F" "" 2 2) = [ mk_slot 1 "F" "A" 1 0 ] /\
  slots (apply_edit small_shelf_db "F" "" 0 0) = [ mk_slot 1 "F" "A" 1 0 ] /\
  slots (populate_slots_for_shelf empty_db "F" 2 2) =
    [ mk_slot 1 "F" "A" 1 0; mk_slot 2 "F" "A" 2 0;
      mk_slot 3 "F" "B" 1 0; mk_slot 4 "F" "B" 2 0 ].
Proof. vm_compute. repeat split. Qed.

(** ** Slot label codec (claim C9) *)

Section Strings.

Lemma all_chars_app p a b :
  all_chars p (a +:+ b) = all_chars p a && all_chars p b.
Proof. induction a as [|c a IH]; simpl; [reflexivity|]. now rewrite IH, andb_assoc. Qed.

Lemma all_chars_impl (p q : ascii -> bool) s :
  (forall c, p c = true -> q c = true) -> all_chars p s = true -> all_chars q s = true.
Proof.
  intros Hpq. induction s as [|c s IH]; simpl; [reflexivity|].
  rewrite !andb_true_iff. intros [Hc Hs]. auto.
Qed.

Lemma append_cons c a b : String c a +:+ b = String c (a +:+ b).
Proof. reflexivity. Qed.

Lemma append_empty_r s : s +:+ "" = s.
Proof. induction s as [|c s IH]; [reflexivity|]. now rewrite append_cons, IH. Qed.

Lemma rstrip_kept s : all_chars kept_char s = true -> Py.rstrip s = s.
Proof.
  induction s as [|c s IH]; simpl; [reflexivity|].
  rewrite andb_true_iff. intros [Hc Hs]. rewrite (IH Hs).
  unfold kept_char in Hc. apply andb_true_iff in Hc. destruct Hc as [Hc _].
  apply negb_true_iff in Hc. rewrite Hc. now destruct s.
Qed.

Lemma strip_kept s : all_chars kept_char s = true -> Py.strip s = s.
Proof.
  intros H. unfold Py.strip. rewrite (rstrip_kept s H).
  destruct s as [|c s]; simpl; [reflexivity|].
  simpl in H. apply andb_true_iff in H. destruct H as [Hc _].
  unfold kept_char in Hc. apply andb_true_iff in Hc. destruct Hc as [Hc _].
  apply negb_true_iff in Hc. now rewrite Hc.
Qed.

Lemma upper_kept s : all_chars kept_char s = true -> Py.upper s = s.
Proof.
  induction s as [|c s IH]; simpl; [reflexivity|].
  rewrite andb_true_iff. intros [Hc Hs]. rewrite (IH Hs).
  unfold kept_char in Hc. apply andb_true_iff in Hc. destruct Hc as [_ Hc].
  apply negb_true_iff in Hc. unfold Py.upper_char. now rewrite Hc.
Qed.

Lemma isspace_space : forall c, Ascii.eqb c " " = true -> Py.isspace c = true.
Proof. intros c H. apply Ascii.eqb_eq in H. now subst c. Qed.

Lemma remove_spaces_kept s : all_chars kept_char s = true -> Py.remove_spaces s = s.
Proof.
  induction s as [|c s IH]; simpl; [reflexivity|].
  rewrite andb_true_iff. intros [Hc Hs]. rewrite (IH Hs).
  unfold kept_char in Hc. apply andb_true_iff in Hc. destruct Hc as [Hc _].
  apply negb_true_iff in Hc.
  destruct (Ascii.eqb c " ") eqn:E; [|reflexivity].
  apply isspace_space in E. congruence.
Qed.

(** ["--"] does not occur where no two hyphens are adjacent. *)
Lemma replace_dashdash_no_dash a b :
  all_chars not_dash a = true ->
  Py.replace_dashdash (a +:+ b) = a +:+ Py.replace_dashdash b.
Proof.
  induction a as [|c a IH]; simpl; [reflexivity|].
  rewrite andb_true_iff. intros [Hc Ha]. unfold not_dash in Hc.
  apply negb_true_iff in Hc. rewrite Hc. simpl.
  rewrite append_cons, <- (IH Ha). destruct (a +:+ b) eqn:E; reflexivity.
Qed.

Lemma replace_dashdash_single c b :
  not_dash c = true ->
  Py.replace_dashdash (String "-" (String c b)) =
  String "-" (Py.replace_dashdash (String c b)).
Proof.
  intros Hc. unfold not_dash in Hc. apply negb_true_iff in Hc.
  change (Py.replace_dashdash (String "-" (String c b)))
    with (if (Ascii.eqb "-" "-" && Ascii.eqb c "-")%bool
          then String "-" (Py.replace_dashdash b)
          else String "-" (Py.replace_dashdash (String c b))).
  now rewrite Hc.
Qed.

Lemma replace_dashdash_id a : all_chars not_dash a = true -> Py.replace_dashdash a = a.
Proof.
  intros H. rewrite <- (append_empty_r a) at 1.
  rewrite (replace_dashdash_no_dash a "" H). apply append_empty_r.
Qed.

Lemma all_digits_dash a b : Py.all_digits (a +:+ String "-" b) = false.
Proof.
  induction a as [|c a IH]; simpl; [reflexivity|]. rewrite IH. apply andb_false_r.
Qed.

Lemma isdigit_dash a b : Py.isdigit (a +:+ String "-" b) = false.
Proof.
  unfold Py.isdigit. rewrite all_digits_dash. now destruct (a +:+ String "-" b).
Qed.

Lemma split_on_no_dash a : all_chars not_dash a = true -> Py.split_on "-" a = [a].
Proof.
  induction a as [|c a IH]; simpl; [reflexivity|].
  rewrite andb_true_iff. intros [Hc Ha]. unfold not_dash in Hc.
  apply negb_true_iff in Hc. rewrite Hc. now rewrite (IH Ha).
Qed.

Lemma split_on_dash a b :
  all_chars not_dash a = true ->
  Py.split_on "-" (a +:+ String "-" b) = a :: Py.split_on "-" b.
Proof.
  induction a as [|c a IH]; simpl; [reflexivity|].
  rewrite andb_true_iff. intros [Hc Ha]. unfold not_dash in Hc.
  apply negb_true_iff in Hc. rewrite Hc. now rewrite (IH Ha).
Qed.

Lemma digit_char_kept c : Py.isdigit_char c = true -> kept_char c = true.
Proof.
  unfold Py.isdigit_char, kept_char, Py.isspace, Py.islower_char.
  generalize (Py.code c). intros n. rewrite andb_true_iff, !N.leb_le. intros [H1 H2].
  rewrite andb_true_iff, !negb_true_iff, orb_false_iff, !andb_false_iff, !N.leb_gt. lia.
Qed.

Lemma digit_char_not_dash c : Py.isdigit_char c = true -> not_dash c = true.
Proof.
  unfold not_dash. destruct (Ascii.eqb_spec c "-") as [->|]; [discriminate|reflexivity].
Qed.

Lemma safe_char_kept c : label_safe_char c = true -> kept_char c = true.
Proof.
  unfold label_safe_char, kept_char. rewrite !andb_true_iff. tauto.
Qed.

Lemma safe_char_not_dash c : label_safe_char c = true -> not_dash c = true.
Proof.
  unfold label_safe_char, not_dash. rewrite !andb_true_iff. tauto.
Qed.

End Strings.

Section Decimal.
Import Decimal.

Lemma all_digits_uint u : Py.all_digits (NilEmpty.string_of_uint u) = true.
Proof. induction u; simpl; auto. Qed.

Lemma int_digits_uint u : Py.int_digits true (NilEmpty.string_of_uint u) = Some u.
Proof. induction u; simpl; [reflexivity|..]; rewrite IHu; reflexivity. Qed.

Lemma int_digits_uint_start u :
  u <> Nil -> Py.int_digits false (NilEmpty.string_of_uint u) = Some u.
Proof.
  destruct u; [congruence|..]; intros _; simpl; rewrite int_digits_uint; reflexivity.
Qed.

Lemma uint_string_cons u :
  u <> Nil -> exists c t, NilEmpty.string_of_uint u = String c t /\ Py.isdigit_char c = true.
Proof. destruct u; [congruence|..]; intros _; simpl; eauto. Qed.

(** The decimal rendering of a natural number is a non-empty string of
    digits that [int] reads back. *)
Lemma str_nonneg n :
  0 <= n ->
  exists u, u <> Nil /\ Py.str n = NilEmpty.string_of_uint u /\ Z.of_uint u = n.
Proof.
  intros Hn. pose proof (DecimalZ.of_to n) as Hof. unfold Py.str.
  destruct n as [|p|p]; [| |lia].
  - exists (D0 Nil). repeat split. discriminate.
  - simpl in *. exists (Pos.to_uint p). split; [apply DecimalPos.Unsigned.to_uint_nonnil|].
    split; [|exact Hof].
    unfold NilZero.string_of_uint.
    destruct (Pos.to_uint p) eqn:E; [|reflexivity..].
    now apply DecimalPos.Unsigned.to_uint_nonnil in E.
Qed.

Lemma int_of_digits u :
  u <> Nil -> Py.int (NilEmpty.string_of_uint u) = Some (Z.of_uint u).
Proof.
  intros Hu. unfold Py.int.
  rewrite strip_kept
    by (apply (all_chars_impl Py.isdigit_char); [apply digit_char_kept|];
        clear Hu; induction u; simpl; auto).
  pose proof (int_digits_uint_start u Hu) as Hd.
  destruct u; [congruence|..]; simpl NilEmpty.string_of_uint in *; cbv iota beta;
    rewrite Hd; reflexivity.
Qed.

End Decimal.

Lemma label_to_slot_id_unfold d label :
  label <> "" -> label_to_slot_id d label = resolve_label d (normalise_label label).
Proof. destruct label; [congruence|reflexivity]. Qed.

Lemma replace_dashdash_cons c b :
  not_dash c = true -> Py.replace_dashdash (String c b) = String c (Py.replace_dashdash b).
Proof.
  intros H. apply (replace_dashdash_no_dash (String c "") b). simpl. now rewrite H.
Qed.

Lemma split_on_cons_dash c b :
  not_dash c = true ->
  Py.split_on "-" (String c (String "-" b)) = String c "" :: Py.split_on "-" b.
Proof.
  intros H. apply (split_on_dash (String c "") b). simpl. now rewrite H.
Qed.

Lemma normalise_label_id s :
  all_chars kept_char s = true -> Py.replace_dashdash s = s -> normalise_label s = s.
Proof.
  intros Hk Hr. unfold normalise_label.
  rewrite (strip_kept s Hk), (upper_kept s Hk), Hr. now apply remove_spaces_kept.
Qed.

Lemma fetchone_by_id d s :
  In s (slots d) ->
  (forall s', In s' (slots d) -> s_id s' = s_id s -> s' = s) ->
  fetchone (fun r => s_id r =? s_id s) (slots d) = Some s.
Proof.
  intros Hin Hkey. unfold fetchone.
  destruct (List.find _ (slots d)) as [s'|] eqn:Hf.
  - apply find_some in Hf. destruct Hf as [Hin' E]. apply Z.eqb_eq in E.
    now rewrite (Hkey s' Hin' E).
  - apply (find_none _ _ Hf) in Hin. rewrite Z.eqb_refl in Hin. discriminate.
Qed.

Lemma slot_id_at_unique d s :
  In s (slots d) ->
  (forall s', In s' (slots d) -> s_shelf s' = s_shelf s -> s_row s' = s_row s ->
              s_col s' = s_col s -> s_id s' = s_id s) ->
  slot_id_at d (s_shelf s) (s_row s) (s_col s) = Some (s_id s).
Proof.
  intros Hin Haddr. unfold slot_id_at, fetchone.
  destruct (List.find _ (slots d)) as [s'|] eqn:Hf; simpl.
  - apply find_some in Hf. destruct Hf as [Hin' E]. apply at_position_true in E.
    destruct E as (E1 & E2 & E3). now rewrite (Haddr s' Hin' E1 E2 E3).
  - apply (find_none _ _ Hf) in Hin.
    assert (at_position (s_shelf s) (s_row s) (s_col s) s = true)
      by (now apply at_position_true).
    congruence.
Qed.

Lemma digits_kept u : all_chars kept_char (NilEmpty.string_of_uint u) = true.
Proof.
  apply (all_chars_impl Py.isdigit_char); [apply digit_char_kept|].
  induction u; simpl; auto.
Qed.

Lemma digits_not_dash u : all_chars not_dash (NilEmpty.string_of_uint u) = true.
Proof.
  apply (all_chars_impl Py.isdigit_char); [apply digit_char_not_dash|].
  induction u; simpl; auto.
Qed.

(** The two hyphenated forms of a label, once normalised, resolve to the
    slot at that address. *)
Lemma resolve_two_part d shelf_name r u :
  all_chars label_safe_char shelf_name = true -> label_safe_char r = true -> u <> Decimal.Nil ->
  let label := shelf_name +:+ String "-" (String r (NilEmpty.string_of_uint u)) in
  label <> "" /\ normalise_label label = label /\
  resolve_label d label = slot_id_at d shelf_name (row_str r) (Z.of_uint u).
Proof.
  intros Hsh Hr Hu label.
  assert (Hshk : all_chars kept_char shelf_name = true)
    by (apply (all_chars_impl label_safe_char); [apply safe_char_kept|exact Hsh]).
  assert (Hshd : all_chars not_dash shelf_name = true)
    by (apply (all_chars_impl label_safe_char); [apply safe_char_not_dash|exact Hsh]).
  pose proof (safe_char_kept r Hr) as Hrk. pose proof (safe_char_not_dash r Hr) as Hrd.
  pose proof (digits_kept u) as Hdk. pose proof (digits_not_dash u) as Hdd.
  assert (Htail : all_chars not_dash (String r (NilEmpty.string_of_uint u)) = true)
    by (simpl; now rewrite Hrd, Hdd).
  split; [|split].
  - subst label. destruct shelf_name; discriminate.
  - apply normalise_label_id.
    + subst label. rewrite all_chars_app, Hshk. simpl. now rewrite Hrk, Hdk.
    + subst label. rewrite (replace_dashdash_no_dash _ _ Hshd).
      rewrite (replace_dashdash_single _ _ Hrd). now rewrite (replace_dashdash_id _ Htail).
  - unfold resolve_label. subst label. rewrite isdigit_dash.
    rewrite (split_on_dash _ _ Hshd), (split_on_no_dash _ Htail).
    destruct (uint_string_cons u Hu) as (c & t & E & _).
    pose proof (int_of_digits u Hu) as Hint. rewrite E in *. now rewrite Hint.
Qed.

Lemma resolve_three_part d shelf_name r u :
  all_chars label_safe_char shelf_name = true -> label_safe_char r = true -> u <> Decimal.Nil ->
  let label :=
    shelf_name +:+ String "-" (String r (String "-" (NilEmpty.string_of_uint u))) in
  label <> "" /\ normalise_label label = label /\
  resolve_label d label = slot_id_at d shelf_name (row_str r) (Z.of_uint u).
Proof.
  intros Hsh Hr Hu label.
  assert (Hshk : all_chars kept_char shelf_name = true)
    by (apply (all_chars_impl label_safe_char); [apply safe_char_kept|exact Hsh]).
  assert (Hshd : all_chars not_dash shelf_name = true)
    by (apply (all_chars_impl label_safe_char); [apply safe_char_not_dash|exact Hsh]).
  pose proof (safe_char_kept r Hr) as Hrk. pose proof (safe_char_not_dash r Hr) as Hrd.
  pose proof (digits_kept u) as Hdk. pose proof (digits_not_dash u) as Hdd.
  destruct (uint_string_cons u Hu) as (c & t & E & Hc).
  pose proof (digit_char_not_dash c Hc) as Hcd.
  pose proof (int_of_digits u Hu) as Hint.
  split; [|split].
  - subst label. destruct shelf_name; discriminate.
  - apply normalise_label_id.
    + subst label. rewrite all_chars_app, Hshk. simpl. now rewrite Hrk, Hdk.
    + subst label. rewrite (replace_dashdash_no_dash _ _ Hshd).
      rewrite (replace_dashdash_single _ _ Hrd).
      rewrite (replace_dashdash_cons _ _ Hrd).
      rewrite E in *. rewrite (replace_dashdash_single _ _ Hcd).
      now rewrite (replace_dashdash_id _ Hdd).
  - unfold resolve_label. subst label. rewrite isdigit_dash.
    rewrite (split_on_dash _ _ Hshd).
    rewrite (split_on_cons_dash _ _ Hrd).
    rewrite (split_on_no_dash _ Hdd). now rewrite Hint.
Qed.

Lemma resolve_numeric d u n :
  u <> Decimal.Nil -> Z.of_uint u = n ->
  let label := NilEmpty.string_of_uint u in
  label <> "" /\ normalise_label label = label /\
  resolve_label d label =
    match fetchone (fun r => s_id r =? n) (slots d) with
    | Some _ => Some n
    | None => None
    end.
Proof.
  intros Hu Hn label. destruct (uint_string_cons u Hu) as (c & t & E & Hc).
  split; [|split].
  - subst label. rewrite E. discriminate.
  - apply normalise_label_id; [apply digits_kept|]. apply replace_dashdash_id, digits_not_dash.
  - unfold resolve_label. subst label.
    assert (Hd : Py.isdigit (NilEmpty.string_of_uint u) = true).
    { unfold Py.isdigit. rewrite all_digits_uint. now rewrite E. }
    rewrite Hd, (int_of_digits u Hu), Hn. reflexivity.
Qed.

(** C9, as amended: for every slot record whose key and address
    (shelf, row, column) are unique in the table, whose shelf name consists
    of ASCII characters other than whitespace, hyphen and lower-case
    letters, whose row is one such character and whose column is not
    negative, the display label is ["{shelf}-{row}{col}"] and parsing it
    gives back the slot's id; the three-part form
    ["{shelf}-{row}-{col}"] and, for a non-negative id, the decimal id
    itself parse to the same id. *)
Theorem label_round_trip d s r :
  In s (slots d) ->
  (forall s', In s' (slots d) -> s_id s' = s_id s -> s' = s) ->
  (forall s', In s' (slots d) -> s_shelf s' = s_shelf s -> s_row s' = s_row s ->
              s_col s' = s_col s -> s_id s' = s_id s) ->
  all_chars label_safe_char (s_shelf s) = true ->
  s_row s = row_str r -> label_safe_char r = true ->
  0 <= s_col s ->
  slot_id_to_label d (s_id s) = s_shelf s +:+ "-" +:+ s_row s +:+ Py.str (s_col s) /\
  label_to_slot_id d (slot_id_to_label d (s_id s)) = Some (s_id s) /\
  label_to_slot_id d (s_shelf s +:+ "-" +:+ s_row s +:+ "-" +:+ Py.str (s_col s)) =
    Some (s_id s) /\
  (0 <= s_id s -> label_to_slot_id d (Py.str (s_id s)) = Some (s_id s)).
Proof.
  intros Hin Hkey Haddr Hsh Hrow Hr Hcol.
  assert (Hlabel : slot_id_to_label d (s_id s) =
                   s_shelf s +:+ "-" +:+ s_row s +:+ Py.str (s_col s)).
  { unfold slot_id_to_label. now rewrite (fetchone_by_id d s Hin Hkey). }
  destruct (str_nonneg (s_col s) Hcol) as (u & Hu & Hstr & Hval).
  pose proof (slot_id_at_unique d s Hin Haddr) as Hat. rewrite Hrow in Hat.
  split; [exact Hlabel|]. split; [|split].
  - rewrite Hlabel, Hrow, Hstr.
    destruct (resolve_two_part d (s_shelf s) r u Hsh Hr Hu) as (Hne & Hnorm & Hres).
    change (s_shelf s +:+ "-" +:+ row_str r +:+ NilEmpty.string_of_uint u)
      with (s_shelf s +:+ String "-" (String r (NilEmpty.string_of_uint u))).
    rewrite (label_to_slot_id_unfold _ _ Hne), Hnorm, Hres, Hval. exact Hat.
  - rewrite Hrow, Hstr.
    destruct (resolve_three_part d (s_shelf s) r u Hsh Hr Hu) as (Hne & Hnorm & Hres).
    change (s_shelf s +:+ "-" +:+ row_str r +:+ "-" +:+ NilEmpty.string_of_uint u)
      with (s_shelf s +:+ String "-" (String r (String "-" (NilEmpty.string_of_uint u)))).
    rewrite (label_to_slot_id_unfold _ _ Hne), Hnorm, Hres, Hval. exact Hat.
  - intros Hid. destruct (str_nonneg (s_id s) Hid) as (v & Hv & Hstrv & Hvalv).
    destruct (resolve_numeric d v (s_id s) Hv Hvalv) as (Hne & Hnorm & Hres).
    rewrite Hstrv, (label_to_slot_id_unfold _ _ Hne), Hnorm, Hres.
    now rewrite (fetchone_by_id d s Hin Hkey).
Qed.

(** Slot F-B2 of [demo_db] (id 5): "F-B2", "F-B-2" and "5" all parse to 5. *)
Lemma label_round_trip_witness :
  slot_id_to_label demo_db 5 = "F-B2" /\
  label_to_slot_id demo_db "F-B2" = Some 5 /\
  label_to_slot_id demo_db "F-B-2" = Some 5 /\
  label_to_slot_id demo_db "5" = Some 5.
Proof.
  assert (Hin : In (mk_slot 5 "F" "B" 2 0) (slots demo_db)) by (simpl; tauto).
  destruct (label_round_trip demo_db (mk_slot 5 "F" "B" 2 0) "B" Hin) as (H1 & H2 & H3 & H4).
  - intros s' Hs' E. simpl in Hs'.
    repeat (destruct Hs' as [<-|Hs']; [first [reflexivity|discriminate E]|]). destruct Hs'.
  - intros s' Hs' E1 E2 E3. simpl in Hs'.
    repeat (destruct Hs' as [<-|Hs']; [first [reflexivity|discriminate]|]). destruct Hs'.
  - reflexivity.
  - reflexivity.
  - reflexivity.
  - simpl. lia.
  - split; [exact H1|]. split; [|split].
    + rewrite H1 in H2. exact H2.
    + exact H3.
    + apply H4. simpl. lia.
Defined.

(** C9 as stated fails: the only slot of shelf TOP-1 has label "TOP-1-A1",
    which the parser reads as shelf TOP, row 1, column "A1" and rejects. *)
Lemma label_round_trip_fails_on_hyphenated_shelf :
  In (mk_slot 1 "TOP-1" "A" 1 0) (slots hyphen_db) /\
  slot_id_to_label hyphen_db 1 = "TOP-1-A1" /\
  label_to_slot_id hyphen_db (slot_id_to_label hyphen_db 1) <> Some 1.
Proof.
  split; [simpl; tauto|]. split; [reflexivity|]. vm_compute. discriminate.
Qed.

(** * Further properties of the slot subsystem *)

(** ** Bounds and sections *)

Lemma ascii_leb_code a b : Ascii.leb a b = true <-> (Py.code a <= Py.code b)%N.
Proof.
  unfold Ascii.leb, Ascii.compare, Py.code.
  destruct (N.compare_spec (N_of_ascii a) (N_of_ascii b)); split; intros; try lia; congruence.
Qed.

Lemma upper_letter_kept row :
  (65 <= Py.code row <= 90)%N -> kept_char row = true /\ Py.isalpha_char row = true.
Proof.
  unfold kept_char, Py.isalpha_char, Py.isupper_char, Py.isspace, Py.islower_char.
  generalize (Py.code row). intros n Hn.
  rewrite !andb_true_iff, !negb_true_iff, orb_true_iff, orb_false_iff,
          !andb_false_iff, !andb_true_iff, !N.leb_le, !N.leb_gt. lia.
Qed.

Lemma parse_bound_valid t row col :
  parse_bound t = Some (row, col) -> (65 <= Py.code row <= 90)%N /\ 1 <= col.
Proof.
  unfold parse_bound. destruct t as [|a t]; [discriminate|].
  destruct (Py.upper (Py.strip (String a t))) as [|row' [|c rest]]; try discriminate.
  destruct (Py.isalpha_char row'); simpl; [|discriminate].
  destruct (Py.int (String c rest)) as [col'|]; [|discriminate].
  destruct (Ascii.leb "A" row') eqn:HA; simpl; [|discriminate].
  destruct (Ascii.leb row' "Z") eqn:HZ; simpl; [|discriminate].
  destruct (Z.leb_spec col' 0); [discriminate|]. intros [= <- <-].
  apply ascii_leb_code in HA, HZ. change (Py.code "A") with 65%N in HA.
  change (Py.code "Z") with 90%N in HZ. lia.
Qed.

(** [parse_bound] only returns a row letter between 'A' and 'Z' with a
    column of at least 1, rejects the empty and the one-character text, and
    reads back the canonical text of every such bound. *)
Theorem parse_bound_valid_and_round_trip :
  (forall t row col, parse_bound t = Some (row, col) ->
     (65 <= Py.code row <= 90)%N /\ 1 <= col) /\
  parse_bound "" = None /\ (forall c, parse_bound (String c "") = None) /\
  (forall row col, (65 <= Py.code row <= 90)%N -> 1 <= col ->
     parse_bound (String row (Py.str col)) = Some (row, col)).
Proof.
  split; [|split; [reflexivity|split]].
  - apply parse_bound_valid.
  - intros c. unfold parse_bound.
    destruct (Py.upper (Py.strip (String c ""))) as [|row' [|c' rest]] eqn:E;
      try reflexivity.
    exfalso. revert E. unfold Py.strip. simpl.
    destruct (Py.isspace c); simpl; [discriminate|]. destruct (Py.isspace c); discriminate.
  - intros row col Hrow Hcol.
    destruct (str_nonneg col ltac:(lia)) as (u & Hu & Hstr & Hval).
    destruct (uint_string_cons u Hu) as (c & t & E & _).
    destruct (upper_letter_kept row Hrow) as [Hk Halpha].
    pose proof (int_of_digits u Hu) as Hint.
    assert (Hkept : all_chars kept_char (String row (Py.str col)) = true)
      by (simpl; now rewrite Hk, Hstr, digits_kept).
    unfold parse_bound. rewrite (strip_kept _ Hkept), (upper_kept _ Hkept).
    rewrite Hstr, E in *. rewrite Halpha, Hint, Hval. simpl negb. cbv iota.
    assert (HA : Ascii.leb "A" row = true) by (apply ascii_leb_code; change (Py.code "A") with 65%N; lia).
    assert (HZ : Ascii.leb row "Z" = true) by (apply ascii_leb_code; change (Py.code "Z") with 90%N; lia).
    rewrite HA, HZ. simpl. destruct (Z.leb_spec col 0); [lia|reflexivity].
Qed.

(** A section returned by [get_letter_section] names a non-empty shelf and
    has bound rows between 'A' and 'Z' and bound columns of at least 1; a
    letter without a row in the table is unconfigured. *)
Theorem get_letter_section_valid d letter :
  (forall shelf_name sr sc er ec,
     get_letter_section d letter = Some (shelf_name, sr, sc, er, ec) ->
     shelf_name <> "" /\ (65 <= Py.code sr <= 90)%N /\ (65 <= Py.code er <= 90)%N /\
     1 <= sc /\ 1 <= ec) /\
  ((forall r, In r (letter_sections d) -> ls_letter r <> letter) ->
   get_letter_section d letter = None).
Proof.
  split.
  - intros shelf_name sr sc er ec. unfold get_letter_section.
    destruct (fetchone _ _) as [r|]; [|discriminate].
    destruct (text_or_none (ls_shelf r)) as [sh|] eqn:Hsh; [|discriminate].
    destruct (text_or_none (ls_lower r)) as [lo|]; [|discriminate].
    destruct (text_or_none (ls_upper r)) as [up|]; [|discriminate].
    destruct (parse_bound lo) as [[lr lc]|] eqn:Hlo; [|discriminate].
    destruct (parse_bound up) as [[ur uc]|] eqn:Hup; [|discriminate].
    intros [= <- <- <- <- <-].
    apply parse_bound_valid in Hlo, Hup.
    split; [|tauto]. intros ->. unfold text_or_none in Hsh.
    destruct (ls_shelf r) as [[|]|]; discriminate.
  - intros Hno. unfold get_letter_section, fetchone.
    destruct (List.find _ _) as [r|] eqn:Hf; [|reflexivity].
    apply find_some in Hf. destruct Hf as [Hin E]. apply String.eqb_eq in E.
    now destruct (Hno r Hin).
Qed.

(** ** The allocator and the membership check agree *)

Lemma row_str_ltb a b :
  String.ltb (row_str a) (row_str b) = true <-> (nat_of_ascii a < nat_of_ascii b)%nat.
Proof.
  unfold String.ltb, row_str. simpl. unfold Ascii.compare, nat_of_ascii.
  destruct (N.compare_spec (N_of_ascii a) (N_of_ascii b)); split; intros; try lia; congruence.
Qed.

Lemma row_str_eqb a b : String.eqb (row_str a) (row_str b) = Ascii.eqb a b.
Proof. unfold row_str. simpl. now destruct (Ascii.eqb a b). Qed.

Lemma try_column_first d shelf_name basket r c ids :
  try_column d shelf_name basket r c = Some ids ->
  exists sid rest, ids = sid :: rest /\
    get_slot_by_position d shelf_name (row_str r) c = Some (sid, 0).
Proof.
  unfold try_column.
  destruct (get_slot_by_position d shelf_name (row_str r) c) as [[s1 o1]|]; [|discriminate].
  destruct (Z.eqb_spec o1 0) as [->|]; simpl; [|discriminate].
  destruct (String.eqb basket "large").
  - destruct (get_slot_by_position d shelf_name (row_str r) (c + 1)) as [[s2 o2]|]; [|discriminate].
    destruct (o2 =? 0); [|discriminate]. intros [= <-]. eauto.
  - intros [= <-]. eauto.
Qed.

(** With unique slot keys, the first slot proposed by
    [find_next_available_slot_primary] for a letter passes
    [is_slot_in_letter_section] for that letter, and for a basket other than
    large it is the only slot proposed. The second slot of a large proposal
    is not covered: it is the next-column neighbour and can lie outside the
    section. *)
Theorem primary_slot_is_in_letter_section d letter basket sid rest sh :
  (forall s s', In s (slots d) -> In s' (slots d) -> s_id s' = s_id s -> s' = s) ->
  find_next_available_slot_primary d letter basket = Some (sid :: rest, sh) ->
  is_slot_in_letter_section d letter sid = true /\
  (basket <> "large" -> rest = []).
Proof.
  intros Hkey Hfind. unfold find_next_available_slot_primary in Hfind.
  destruct (get_letter_section d letter) as [[[[[shelf_name sr] sc] er] ec]|] eqn:Hsec;
    [|discriminate].
  apply find_slot_in_section_Some in Hfind.
  destruct Hfind as (_ & r & c & [Hr (m & Hm & Hm0 & Hc)] & Htry & _).
  split.
  - unfold is_slot_in_letter_section.
    destruct (String.eqb letter "Overflow"); [reflexivity|]. rewrite Hsec.
    apply try_column_first in Htry. destruct Htry as (sid' & rest' & [= <- <-] & Hpos).
    apply get_slot_by_position_Some in Hpos.
    destruct Hpos as (s & Hin & Hid & _ & Hsh & Hrow & Hcol).
    unfold slot_id_to_tuple. rewrite <- Hid.
    rewrite (fetchone_by_id d s Hin (fun s' Hs' => Hkey s s' Hin Hs')).
    rewrite Hsh, Hrow, Hcol, String.eqb_refl. simpl negb. cbv iota.
    assert (H1 : String.ltb (row_str r) (row_str sr) = false).
    { destruct (String.ltb (row_str r) (row_str sr)) eqn:E; [|reflexivity].
      apply row_str_ltb in E. lia. }
    assert (H2 : String.ltb (row_str er) (row_str r) = false).
    { destruct (String.ltb (row_str er) (row_str r)) eqn:E; [|reflexivity].
      apply row_str_ltb in E. lia. }
    rewrite H1, H2. simpl orb. cbv iota.
    unfold col_start, col_end in Hc. rewrite !row_str_eqb.
    destruct (Ascii.eqb_spec r sr) as [E1|E1]; destruct (Ascii.eqb_spec r er) as [E2|E2];
      destruct (Z.ltb_spec c sc); destruct (Z.ltb_spec ec c); simpl; try reflexivity; lia.
  - intros Hb. apply try_column_fits in Htry.
    destruct Htry as (s1 & _ & _ & [[_ [= _ <-]]|[Hl _]]); [reflexivity|contradiction].
Qed.

(** In [demo_db] the small proposal for letter A is F-B2 alone, inside the
    section; in [edge_db] the large proposal for letter A is F-A2 with
    F-A3, and F-A3 is outside the section A1..A2. *)
Lemma primary_slot_is_in_letter_section_witness :
  find_next_available_slot_primary demo_db "A" "small" = Some ([5], "F") /\
  (is_slot_in_letter_section demo_db "A" 5 = true /\ ("small" <> "large" -> @nil Z = [])) /\
  find_next_available_slot_primary edge_db "A" "large" = Some ([2; 3], "F") /\
  is_slot_in_letter_section edge_db "A" 3 = false.
Proof.
  split; [reflexivity|]. split; [|split; reflexivity].
  apply (primary_slot_is_in_letter_section demo_db "A" "small" 5 [] "F"); [|reflexivity].
  intros s s' Hs Hs' E. simpl in Hs, Hs'.
  repeat (destruct Hs as [<-|Hs];
          [repeat (destruct Hs' as [<-|Hs']; [first [reflexivity|discriminate E]|]);
           destruct Hs'|]).
  destruct Hs.
Defined.

(** ** Small baskets *)

(** For any basket size other than "large" a result of
    [find_slot_in_section] is a single slot of the searched shelf, at a
    visited position and unoccupied; the search fails exactly when no visited
    position holds a free slot. *)
Theorem small_basket_result d shelf_name sr sc er ec basket :
  basket <> "large" ->
  (forall ids sh, find_slot_in_section d shelf_name sr sc er ec basket = Some (ids, sh) ->
     sh = shelf_name /\
     exists s r c, ids = [s_id s] /\ In s (slots d) /\ s_shelf s = shelf_name /\
                   s_row s = row_str r /\ s_col s = c /\ s_occupied s = 0 /\
                   scanned d shelf_name sr sc er ec r c) /\
  (find_slot_in_section d shelf_name sr sc er ec basket = None <->
   forall r c, scanned d shelf_name sr sc er ec r c -> ~ free_at d shelf_name r c).
Proof.
  intros Hb. apply String.eqb_neq in Hb.
  assert (Hsmall : forall r c ids, try_column d shelf_name basket r c = Some ids <->
            exists sid, get_slot_by_position d shelf_name (row_str r) c = Some (sid, 0) /\
                        ids = [sid]).
  { intros r c ids. unfold try_column. rewrite Hb.
    destruct (get_slot_by_position d shelf_name (row_str r) c) as [[s1 o1]|].
    - destruct (Z.eqb_spec o1 0) as [->|Ho]; simpl.
      + split; [intros [= <-]; eauto|intros (sid & [= <-] & ->); reflexivity].
      + split; [discriminate|intros (sid & [= _ E] & _); contradiction].
    - split; [discriminate|intros (sid & [=] & _)]. }
  split.
  - intros ids sh Hf. apply find_slot_in_section_Some in Hf.
    destruct Hf as (-> & r & c & Hsc & Htry & _). split; [reflexivity|].
    apply Hsmall in Htry. destruct Htry as (sid & Hpos & ->).
    apply get_slot_by_position_Some in Hpos.
    destruct Hpos as (s & Hin & <- & Ho & Hsh & Hrow & Hcol).
    exists s, r, c. tauto.
  - rewrite find_slot_in_section_None. split.
    + intros H r c Hsc [sid Hfree].
      specialize (H r c Hsc).
      assert (Hs : try_column d shelf_name basket r c = Some [sid]) by (apply Hsmall; eauto).
      congruence.
    + intros H r c Hsc.
      destruct (try_column d shelf_name basket r c) as [ids|] eqn:Htry; [|reflexivity].
      exfalso. apply (H r c Hsc). apply Hsmall in Htry. destruct Htry as (sid & Hpos & _).
      now exists sid.
Qed.

Lemma small_basket_result_witness :
  find_slot_in_section demo_db "F" "A" 1 "B" 3 "small" = Some ([5], "F") /\
  exists s, [5] = [s_id s] /\ In s (slots demo_db) /\ s_occupied s = 0.
Proof.
  split; [reflexivity|].
  destruct (proj1 (small_basket_result demo_db "F" "A" 1 "B" 3 "small" ltac:(discriminate))
              [5] "F" eq_refl) as (_ & s & r & c & H).
  exists s. tauto.
Defined.

(** ** Populating a shelf *)

Lemma max_slot_id_nonneg t : 0 <= max_slot_id t.
Proof. unfold max_slot_id. induction t as [|s t IH]; simpl; lia. Qed.

Lemma max_slot_id_app t t' : max_slot_id (t ++ t')%list = Z.max (max_slot_id t) (max_slot_id t').
Proof.
  pose proof (max_slot_id_nonneg t'). unfold max_slot_id in *.
  induction t as [|s t IH]; simpl; [lia|]. rewrite IH. lia.
Qed.

Lemma max_slot_id_ge t s : In s t -> s_id s <= max_slot_id t.
Proof.
  unfold max_slot_id. induction t as [|x t IH]; simpl; [intros []|].
  intros [->|Hin]; [lia|]. specialize (IH Hin). lia.
Qed.

Lemma insert_cells_app shelf_name l l' d :
  insert_cells shelf_name (l ++ l')%list d = insert_cells shelf_name l' (insert_cells shelf_name l d).
Proof. unfold insert_cells. apply fold_left_app. Qed.

Lemma insert_cells_row shelf_name i cols d :
  insert_cells shelf_name (List.map (fun col => (i, col)) cols) d =
  List.fold_left (fun d col => insert_slot shelf_name (row_letter i) col d) cols d.
Proof.
  revert d. induction cols as [|c cols IH]; intros d; simpl; [reflexivity|]. apply IH.
Qed.

Lemma populate_loops shelf_name cols rows d :
  List.fold_left
    (fun d i => List.fold_left (fun d col => insert_slot shelf_name (row_letter i) col d) cols d)
    rows d =
  insert_cells shelf_name (List.flat_map (fun i => List.map (fun col => (i, col)) cols) rows) d.
Proof.
  revert d. induction rows as [|i rows IH]; intros d; simpl; [reflexivity|].
  now rewrite insert_cells_app, insert_cells_row, IH.
Qed.

Lemma populate_unfold d shelf_name rows_count cols_count :
  (forall s, In s (slots d) -> s_shelf s <> shelf_name) ->
  populate_slots_for_shelf d shelf_name rows_count cols_count =
  insert_cells shelf_name (grid_cells rows_count cols_count) d.
Proof.
  intros Hnone. unfold populate_slots_for_shelf.
  destruct (List.filter _ (slots d)) as [|x l] eqn:Hf.
  - simpl. apply populate_loops.
  - exfalso. assert (Hx : In x (List.filter (fun s => String.eqb (s_shelf s) shelf_name) (slots d)))
      by (rewrite Hf; now left).
    apply List.filter_In in Hx. destruct Hx as [Hin E]. apply String.eqb_eq in E.
    now apply (Hnone x).
Qed.

Lemma insert_cells_spec shelf_name cells d :
  slots (insert_cells shelf_name cells d) =
    (slots d ++ new_slots shelf_name (slot_key_base d) cells)%list /\
  prescriptions (insert_cells shelf_name cells d) = prescriptions d /\
  patients (insert_cells shelf_name cells d) = patients d /\
  shelves (insert_cells shelf_name cells d) = shelves d /\
  letter_sections (insert_cells shelf_name cells d) = letter_sections d.
Proof.
  revert d. induction cells as [|ic cells IH]; intros d; simpl.
  - now rewrite app_nil_r.
  - destruct (IH (insert_slot shelf_name (row_letter (fst ic)) (snd ic) d))
      as (Hs & Hp & Hpt & Hsh & Hls).
    unfold insert_cells in *. simpl. rewrite Hs, Hp, Hpt, Hsh, Hls.
    assert (Hbase : slot_key_base (insert_slot shelf_name (row_letter (fst ic)) (snd ic) d)
                    = slot_key_base d + 1).
    { unfold slot_key_base, insert_slot. simpl. rewrite max_slot_id_app. simpl.
      pose proof (max_slot_id_nonneg (slots d)). lia. }
    rewrite Hbase. simpl. rewrite <- app_assoc. repeat split; reflexivity.
Qed.

Lemma in_new_slots shelf_name base cells s :
  In s (new_slots shelf_name base cells) ->
  s_shelf s = shelf_name /\ s_occupied s = 0 /\ base < s_id s /\
  exists i c, In (i, c) cells /\ s_row s = row_letter i /\ s_col s = c.
Proof.
  revert base. induction cells as [|[i c] cells IH]; intros base; simpl; [intros []|].
  intros [<-|Hin].
  - simpl. repeat split; try lia. exists i, c. auto.
  - destruct (IH _ Hin) as (H1 & H2 & H3 & i' & c' & H4 & H5).
    repeat split; try assumption; try lia. exists i', c'. auto.
Qed.

Lemma new_slots_cell shelf_name base cells i c :
  In (i, c) cells ->
  exists s, In s (new_slots shelf_name base cells) /\ s_row s = row_letter i /\ s_col s = c.
Proof.
  revert base. induction cells as [|ic cells IH]; intros base; simpl; [intros []|].
  intros [->|Hin].
  - eexists. split; [left; reflexivity|]. split; reflexivity.
  - destruct (IH (base + 1) Hin) as (s & Hs & H). exists s. split; [now right|exact H].
Qed.

Lemma new_slots_length shelf_name base cells :
  List.length (new_slots shelf_name base cells) = List.length cells.
Proof. revert base. induction cells as [|ic cells IH]; intros base; simpl; [reflexivity|]. now rewrite IH. Qed.

Lemma new_slots_NoDup shelf_name base cells :
  List.NoDup (List.map s_id (new_slots shelf_name base cells)).
Proof.
  revert base. induction cells as [|ic cells IH]; intros base; simpl; constructor.
  - rewrite in_map_iff. intros (s & E & Hin). apply in_new_slots in Hin. simpl in E. lia.
  - apply IH.
Qed.

Lemma in_grid_cells rows_count cols_count i c :
  In (i, c) (grid_cells rows_count cols_count) <->
  0 <= i < rows_count /\ 1 <= c <= cols_count.
Proof.
  unfold grid_cells. rewrite in_flat_map. split.
  - intros (i' & Hi & Hc). apply in_map_iff in Hc. destruct Hc as (c' & [= <- <-] & Hc').
    apply in_range in Hi, Hc'. lia.
  - intros [Hi Hc]. exists i. split; [apply in_range; lia|].
    apply in_map_iff. exists c. split; [reflexivity|apply in_range; lia].
Qed.

Lemma range_length a b : List.length (Py.range a b) = Z.to_nat (b - a).
Proof. unfold Py.range. now rewrite length_map, length_seq. Qed.

Lemma grid_cells_length rows_count cols_count :
  List.length (grid_cells rows_count cols_count) =
  (Z.to_nat rows_count * Z.to_nat cols_count)%nat.
Proof.
  unfold grid_cells. rewrite <- (Z.sub_0_r rows_count) at 2. rewrite <- range_length.
  induction (Py.range 0 rows_count) as [|i l IH]; simpl; [reflexivity|].
  rewrite length_app, IH, length_map, range_length. f_equal. lia.
Qed.

(** Populating a shelf that has no slot yet, with at most 191 rows (row
    letters up to code point 255), keeps every existing slot row, appends
    exactly rows x cols new rows, all on that shelf, free, within the
    extent, with fresh pairwise distinct keys larger than every existing
    key, and gives every cell of the grid a free slot; the other tables are
    left alone. *)
Theorem populate_slots_for_shelf_fresh d shelf_name rows_count cols_count :
  (forall s, In s (slots d) -> s_shelf s <> shelf_name) ->
  rows_count <= 191 ->
  let d' := populate_slots_for_shelf d shelf_name rows_count cols_count in
  prescriptions d' = prescriptions d /\ letter_sections d' = letter_sections d /\
  exists new,
    slots d' = (slots d ++ new)%list /\
    List.length new = (Z.to_nat rows_count * Z.to_nat cols_count)%nat /\
    List.NoDup (List.map s_id new) /\
    (forall s, In s new ->
       s_shelf s = shelf_name /\ s_occupied s = 0 /\ 1 <= s_col s <= cols_count /\
       (exists i, 0 <= i < rows_count /\ s_row s = row_letter i) /\
       forall s', In s' (slots d) -> s_id s' < s_id s) /\
    (forall i c, 0 <= i < rows_count -> 1 <= c <= cols_count ->
       free_at d' shelf_name (ascii_of_N (Z.to_N (65 + i))) c).
Proof.
  intros Hnone _ d'. subst d'. rewrite (populate_unfold _ _ _ _ Hnone).
  destruct (insert_cells_spec shelf_name (grid_cells rows_count cols_count) d)
    as (Hs & Hp & _ & _ & Hls).
  split; [exact Hp|]. split; [exact Hls|].
  exists (new_slots shelf_name (slot_key_base d) (grid_cells rows_count cols_count)).
  split; [exact Hs|]. split; [now rewrite new_slots_length, grid_cells_length|].
  split; [apply new_slots_NoDup|]. split.
  - intros s Hin. apply in_new_slots in Hin.
    destruct Hin as (H1 & H2 & H3 & i & c & Hic & Hrow & Hcol).
    apply in_grid_cells in Hic. repeat split; try assumption; try lia.
    + exists i. split; [lia|exact Hrow].
    + intros s' Hs'. apply max_slot_id_ge in Hs'. unfold slot_key_base in H3. lia.
  - intros i c Hi Hc.
    destruct (new_slots_cell shelf_name (slot_key_base d) (grid_cells rows_count cols_count) i c)
      as (s & Hin & Hrow & Hcol); [apply in_grid_cells; lia|].
    pose proof (in_new_slots _ _ _ _ Hin) as (Hsh & _).
    unfold free_at, get_slot_by_position, fetchone. rewrite Hs.
    change (row_str (ascii_of_N (Z.to_N (65 + i)))) with (row_letter i).
    destruct (List.find _ _) as [s0|] eqn:Hf.
    + simpl. apply find_some in Hf. destruct Hf as [Hin0 E].
      apply at_position_true in E. destruct E as (E1 & _).
      apply in_app_or in Hin0. destruct Hin0 as [Hold|Hnew]; [now destruct (Hnone s0 Hold)|].
      apply in_new_slots in Hnew. destruct Hnew as (_ & -> & _). now exists (s_id s0).
    + exfalso. assert (Hin' : In s (slots d ++ new_slots shelf_name (slot_key_base d)
                                          (grid_cells rows_count cols_count))%list)
        by (apply in_or_app; now right).
      apply (find_none _ _ Hf) in Hin'.
      assert (at_position shelf_name (row_letter i) c s = true)
        by (now apply at_position_true).
      congruence.
Qed.

Lemma populate_slots_for_shelf_fresh_witness :
  List.length (slots (populate_slots_for_shelf small_shelf_db "G" 2 3)) = 7%nat /\
  free_at (populate_slots_for_shelf small_shelf_db "G" 2 3) "G" "B" 3.
Proof.
  assert (Hnone : forall s, In s (slots small_shelf_db) -> s_shelf s <> "G").
  { intros s [<-|[]]. discriminate. }
  destruct (populate_slots_for_shelf_fresh small_shelf_db "G" 2 3 Hnone ltac:(lia))
    as (_ & _ & new & Hs & Hlen & _ & _ & Hcell).
  split.
  - rewrite Hs, length_app, Hlen. reflexivity.
  - apply (Hcell 1 3); lia.
Defined.

(** [populate_slots_for_shelf] is idempotent: a second call with the same
    arguments changes nothing. *)
Theorem populate_slots_for_shelf_idempotent d shelf_name rows_count cols_count :
  populate_slots_for_shelf
    (populate_slots_for_shelf d shelf_name rows_count cols_count)
    shelf_name rows_count cols_count =
  populate_slots_for_shelf d shelf_name rows_count cols_count.
Proof.
  destruct (List.filter (fun s => String.eqb (s_shelf s) shelf_name) (slots d)) as [|x l] eqn:Hf.
  - assert (Hnone : forall s, In s (slots d) -> s_shelf s <> shelf_name).
    { intros s Hin E. apply String.eqb_eq in E.
      assert (Hx : In s (List.filter (fun s => String.eqb (s_shelf s) shelf_name) (slots d)))
        by (apply List.filter_In; auto).
      rewrite Hf in Hx. destruct Hx. }
    rewrite (populate_unfold _ _ _ _ Hnone).
    destruct (grid_cells rows_count cols_count) as [|ic cells] eqn:Hg.
    + simpl. rewrite (populate_unfold _ _ _ _ Hnone), Hg. reflexivity.
    + destruct (insert_cells_spec shelf_name (ic :: cells) d) as (Hs & _).
      eapply populate_slots_for_shelf_populated.
      * rewrite Hs. apply in_or_app. right. simpl. left. reflexivity.
      * reflexivity.
  - assert (Hx : In x (List.filter (fun s => String.eqb (s_shelf s) shelf_name) (slots d)))
      by (rewrite Hf; now left).
    apply List.filter_In in Hx. destruct Hx as [Hin E]. apply String.eqb_eq in E.
    now rewrite !(populate_slots_for_shelf_populated d shelf_name _ _ x Hin E).
Qed.

(** ** Reserving and releasing slots *)

Lemma mark_slots_map (v : Z) (ids : list Z) :
  same_address (fun s => if bool_decide (s_id s ∈ ids) then set_occupied_row v s else s).
Proof. intros s. now destruct (bool_decide _). Qed.

(** [mark_slots_occupied] flags exactly the listed slots and keeps every
    other row, the keys and the addresses; it is idempotent, and
    [mark_slots_free] on the same ids afterwards is the same as releasing
    them directly. *)
Theorem mark_slots_occupied_spec d ids :
  (forall s, In s (slots (mark_slots_occupied d ids)) -> In (s_id s) ids -> s_occupied s = 1) /\
  (forall s, In s (slots d) -> ~ In (s_id s) ids -> In s (slots (mark_slots_occupied d ids))) /\
  List.map (set_occupied_row 0) (slots (mark_slots_occupied d ids)) =
    List.map (set_occupied_row 0) (slots d) /\
  mark_slots_occupied (mark_slots_occupied d ids) ids = mark_slots_occupied d ids /\
  mark_slots_free (mark_slots_occupied d ids) ids = mark_slots_free d ids.
Proof.
  unfold mark_slots_occupied, mark_slots_free, with_slots. simpl.
  rewrite !fold_update_occupied. split; [|split; [|split; [|split]]].
  - intros s Hin Hid. apply in_map_iff in Hin. destruct Hin as (s0 & <- & _).
    destruct (bool_decide (s_id s0 ∈ ids)) eqn:Hb; [reflexivity|].
    apply bool_decide_eq_false in Hb. exfalso. apply Hb. apply list_elem_of_In.
    exact Hid.
  - intros s Hin Hid. apply in_map_iff. exists s. split; [|exact Hin].
    rewrite bool_decide_eq_false_2; [reflexivity|]. now rewrite list_elem_of_In.
  - rewrite List.map_map. apply map_ext. intros s. now destruct (bool_decide _).
  - f_equal. rewrite List.map_map. apply map_ext. intros s.
    destruct (bool_decide (s_id s ∈ ids)) eqn:Hb; simpl; rewrite Hb; reflexivity.
  - f_equal. rewrite List.map_map. apply map_ext. intros s.
    destruct (bool_decide (s_id s ∈ ids)) eqn:Hb; simpl; rewrite Hb; reflexivity.
Qed.

(** ** The repair is authoritative *)

Lemma repair_same_address d d' f :
  same_address f -> slots d' = List.map f (slots d) -> prescriptions d' = prescriptions d ->
  (forall s v, set_occupied_row v (f s) = set_occupied_row v s) ->
  slots (repair_slot_occupancy d') = slots (repair_slot_occupancy d).
Proof.
  intros Hf Hs Hp Hset. rewrite !repair_slots, Hp.
  rewrite (collect_seen_same_address d d' f _ Hf Hs), Hs, List.map_map.
  apply map_ext. intros s. rewrite Hset. now rewrite (proj1 (Hf s)).
Qed.

(** The flags computed by [repair_slot_occupancy] do not depend on the
    flags it finds: reserving or releasing any slots beforehand does not
    change the repaired table. *)
Theorem repair_ignores_current_flags d ids :
  slots (repair_slot_occupancy (mark_slots_free d ids)) = slots (repair_slot_occupancy d) /\
  slots (repair_slot_occupancy (mark_slots_occupied d ids)) = slots (repair_slot_occupancy d).
Proof.
  split.
  - apply (repair_same_address d _ _ (mark_slots_map 0 ids)).
    + unfold mark_slots_free. simpl. apply fold_update_occupied.
    + reflexivity.
    + intros s v. now destruct (bool_decide _).
  - apply (repair_same_address d _ _ (mark_slots_map 1 ids)).
    + unfold mark_slots_occupied. simpl. apply fold_update_occupied.
    + reflexivity.
    + intros s v. now destruct (bool_decide _).
Qed.

(** ** Manual assignment *)

Lemma mark_slots_occupied_flags d ids s :
  In s (slots (mark_slots_occupied d ids)) -> In (s_id s) ids -> s_occupied s = 1.
Proof.
  unfold mark_slots_occupied. simpl. rewrite fold_update_occupied.
  intros Hin Hid. apply in_map_iff in Hin. destruct Hin as (s0 & <- & _).
  destruct (bool_decide (s_id s0 ∈ ids)) eqn:Hb; [reflexivity|].
  apply bool_decide_eq_false in Hb. exfalso. apply Hb. now apply list_elem_of_In.
Qed.

(** A manual assignment succeeds only onto a slot that exists at the typed
    position and is free; when the stored basket of the prescription is
    large it takes that slot and its next-column neighbour, which exists and
    is free too, and otherwise that slot alone. It then flags the slots
    taken occupied and stores the first one on the prescription, touching no
    other prescription. A large basket whose neighbour is missing or
    occupied is refused. *)
Theorem manual_assign_checks_free d presc_id s_entry r_entry c_entry :
  (forall d' lit,
     manual_assign d presc_id s_entry r_entry c_entry = Assigned d' lit ->
     exists col sid,
       Py.int (Py.strip c_entry) = Some col /\
       get_slot_by_position d (Py.upper (Py.strip s_entry)) (Py.upper (Py.strip r_entry)) col
         = Some (sid, 0) /\
       (stored_basket_large d presc_id ->
        exists sid2, lit = [sid; sid2] /\
          get_slot_by_position d (Py.upper (Py.strip s_entry)) (Py.upper (Py.strip r_entry))
                               (col + 1) = Some (sid2, 0)) /\
       (~ stored_basket_large d presc_id -> lit = [sid]) /\
       slots d' = slots (mark_slots_occupied d lit) /\
       (forall s, In s (slots d') -> In (s_id s) lit -> s_occupied s = 1) /\
       prescriptions d' = set_prescription_slot sid presc_id (prescriptions d)) /\
  (forall col,
     stored_basket_large d presc_id ->
     Py.int (Py.strip c_entry) = Some col ->
     (forall sid2,
        get_slot_by_position d (Py.upper (Py.strip s_entry)) (Py.upper (Py.strip r_entry))
                             (col + 1) <> Some (sid2, 0)) ->
     forall d' lit, manual_assign d presc_id s_entry r_entry c_entry <> Assigned d' lit).
Proof.
  assert (Hmain : forall d' lit,
     manual_assign d presc_id s_entry r_entry c_entry = Assigned d' lit ->
     exists col sid,
       Py.int (Py.strip c_entry) = Some col /\
       get_slot_by_position d (Py.upper (Py.strip s_entry)) (Py.upper (Py.strip r_entry)) col
         = Some (sid, 0) /\
       (stored_basket_large d presc_id ->
        exists sid2, lit = [sid; sid2] /\
          get_slot_by_position d (Py.upper (Py.strip s_entry)) (Py.upper (Py.strip r_entry))
                               (col + 1) = Some (sid2, 0)) /\
       (~ stored_basket_large d presc_id -> lit = [sid]) /\
       slots d' = slots (mark_slots_occupied d lit) /\
       (forall s, In s (slots d') -> In (s_id s) lit -> s_occupied s = 1) /\
       prescriptions d' = set_prescription_slot sid presc_id (prescriptions d)).
  { intros d' lit. unfold manual_assign.
    destruct (Py.int (Py.strip c_entry)) as [col|]; [|discriminate].
    destruct (match fetchone _ (prescriptions d) with Some p => _ | None => _ end) as [b|] eqn:Hb;
      [|discriminate].
    assert (Hlarge : stored_basket_large d presc_id <-> b = "large").
    { unfold stored_basket_large.
      destruct (fetchone _ (prescriptions d)) as [p|].
      - destruct (p_basket_size p) as [t|] eqn:Ht; simpl in Hb; [|discriminate].
        injection Hb as <-. split.
        + intros (p' & t' & [= <-] & Ht' & E). congruence.
        + intros E. exists p, t. auto.
      - injection Hb as <-. split.
        + intros (p' & t' & Hp' & _). discriminate.
        + intros E. vm_compute in E. discriminate. }
    destruct (get_slot_by_position d _ _ col) as [[sid occ]|] eqn:H1; [|discriminate].
    destruct (Z.eqb_spec occ 0) as [->|]; simpl; [|discriminate].
    destruct (String.eqb_spec b "large") as [E|E].
    - destruct (get_slot_by_position d _ _ (col + 1)) as [[sid2 occ2]|] eqn:H2; [|discriminate].
      destruct (Z.eqb_spec occ2 0) as [->|]; simpl; [|discriminate].
      intros [= <- <-]. exists col, sid. split; [reflexivity|]. split; [exact H1|].
      split; [intros _; exists sid2; auto|].
      split; [intros Hn; exfalso; apply Hn; now apply Hlarge|].
      split; [reflexivity|]. split; [|reflexivity].
      intros s Hs. exact (mark_slots_occupied_flags d _ s Hs).
    - intros [= <- <-]. exists col, sid. split; [reflexivity|]. split; [exact H1|].
      split; [intros Hl; exfalso; apply E; now apply Hlarge|].
      split; [reflexivity|].
      split; [reflexivity|]. split; [|reflexivity].
      intros s Hs. exact (mark_slots_occupied_flags d _ s Hs). }
  split; [exact Hmain|].
  intros col Hl Hcol Hno d' lit Hres.
  destruct (Hmain d' lit Hres) as (col' & sid & Hcol' & _ & Hpair & _).
  destruct (Hpair Hl) as (sid2 & _ & H2).
  rewrite Hcol in Hcol'. injection Hcol' as <-. exact (Hno sid2 H2).
Qed.

(** In [demo_db] prescription 4 (small, unassigned) is put on F-B2 by typing
    "f", "b", " 2"; the occupied F-A1 is refused, and so is F-B3 for the
    large prescription 1, its neighbour F-B4 not being there. *)
Lemma manual_assign_checks_free_witness :
  manual_assign demo_db 4 "f" "a" "1" = SlotAlreadyOccupied 1 /\
  manual_assign demo_db 1 "f" "b" "3" = NoAdjacentSlot /\
  (forall d' lit, manual_assign demo_db 1 "f" "b" "3" <> Assigned d' lit) /\
  exists d', manual_assign demo_db 4 "f" "b" " 2" = Assigned d' [5] /\
             get_slot_by_position demo_db "F" "B" 2 = Some (5, 0) /\
             get_slot_by_position d' "F" "B" 2 = Some (5, 1).
Proof.
  split; [reflexivity|]. split; [reflexivity|]. split.
  - apply (proj2 (manual_assign_checks_free demo_db 1 "f" "b" "3") 3).
    + exists (mk_presc 1 1 "large" (Some 1)), "large". repeat split.
    + reflexivity.
    + intros sid2 H. vm_compute in H. discriminate H.
  - destruct (manual_assign demo_db 4 "f" "b" " 2") as [d' lit| | | | | |] eqn:E;
      try (vm_compute in E; discriminate E).
    pose proof (proj1 (manual_assign_checks_free demo_db 4 "f" "b" " 2") d' lit E)
      as (col & sid & _ & _ & _ & _ & _ & _ & _).
    vm_compute in E. injection E as <- <-. eexists. split; [reflexivity|].
    split; reflexivity.
Defined.

(** ** Deleting a shelf *)

(** [delete_shelf] leaves the database as it is while a slot of the shelf
    is flagged occupied or a letter section points at the shelf; in every
    case it removes no slot of another shelf and no slot flagged occupied,
    and when it does go through no slot and no shelf row of that name is
    left. *)
Theorem delete_shelf_guarded d name :
  (forall s, In s (slots d) -> s_shelf s = name -> s_occupied s = 1 -> delete_shelf d name = d) /\
  (forall r, In r (letter_sections d) -> ls_shelf r = Some name -> delete_shelf d name = d) /\
  (forall s, In s (slots (delete_shelf d name)) -> In s (slots d)) /\
  (forall s, In s (slots d) -> s_shelf s <> name -> In s (slots (delete_shelf d name))) /\
  (forall s, In s (slots d) -> s_occupied s = 1 -> In s (slots (delete_shelf d name))) /\
  ((forall s, In s (slots d) -> s_shelf s = name -> s_occupied s <> 1) ->
   (forall r, In r (letter_sections d) -> ls_shelf r <> Some name) ->
   (forall s, In s (slots (delete_shelf d name)) -> s_shelf s <> name) /\
   (forall r, In r (shelves (delete_shelf d name)) -> sh_name r <> name)).
Proof.
  unfold delete_shelf.
  set (occ := List.filter (fun s => String.eqb (s_shelf s) name && (s_occupied s =? 1)) (slots d)).
  set (refs := List.filter (fun r => bool_decide (ls_shelf r = Some name)) (letter_sections d)).
  assert (Hocc : forall s, In s occ <-> In s (slots d) /\ s_shelf s = name /\ s_occupied s = 1).
  { intros s. unfold occ. rewrite List.filter_In, andb_true_iff, String.eqb_eq, Z.eqb_eq. tauto. }
  assert (Hrefs : forall r, In r refs <-> In r (letter_sections d) /\ ls_shelf r = Some name).
  { intros r. unfold refs. rewrite List.filter_In, bool_decide_eq_true. tauto. }
  split; [|split; [|split; [|split; [|split]]]].
  - intros s Hin Hsh Ho. destruct occ as [|x l]; [|reflexivity].
    destruct (proj2 (Hocc s) (conj Hin (conj Hsh Ho))).
  - intros r Hin Hsh. destruct occ as [|x l]; [|reflexivity]. simpl.
    destruct refs as [|y l']; [|reflexivity]. destruct (proj2 (Hrefs r) (conj Hin Hsh)).
  - intros s. destruct occ; [|auto]. simpl. destruct refs; [|auto]. simpl.
    rewrite List.filter_In. tauto.
  - intros s Hin Hsh. destruct occ; [|auto]. simpl. destruct refs; [|auto]. simpl.
    apply List.filter_In. split; [exact Hin|]. apply negb_true_iff. now apply String.eqb_neq.
  - intros s Hin Ho. destruct occ as [|x l] eqn:E; [|auto]. simpl. destruct refs; [|auto]. simpl.
    apply List.filter_In. split; [exact Hin|]. apply negb_true_iff. apply String.eqb_neq.
    intros Hsh. destruct (proj2 (Hocc s) (conj Hin (conj Hsh Ho))).
  - intros Hfree Hnoref.
    destruct occ as [|x l]; [|destruct (proj1 (Hocc x) (or_introl eq_refl)) as (H1 & H2 & H3);
                              now destruct (Hfree x H1 H2)].
    simpl. destruct refs as [|y l']; [|destruct (proj1 (Hrefs y) (or_introl eq_refl)) as (H1 & H2);
                                       now destruct (Hnoref y H1)].
    simpl. split.
    + intros s Hin. apply List.filter_In in Hin. destruct Hin as [_ E].
      apply negb_true_iff in E. now apply String.eqb_neq.
    + intros r Hin. apply List.filter_In in Hin. destruct Hin as [_ E].
      apply negb_true_iff in E. now apply String.eqb_neq.
Qed.

(** ** Family bins *)

Lemma family_bins_loop_spec rows : forall seen : gset Z,
  List.NoDup (List.map snd (family_bins_loop seen rows)) /\
  (forall x, In x (family_bins_loop seen rows) ->
     In x rows /\ snd x <> 0 /\ snd x ∉ seen) /\
  (forall x, In x rows -> snd x <> 0 -> snd x ∉ seen ->
     exists y, In y (family_bins_loop seen rows) /\ snd y = snd x).
Proof.
  induction rows as [|[[pid name] sid] rows IH]; intros seen; simpl.
  - split; [constructor|]. split; [intros x []|intros x []].
  - destruct (Z.eqb_spec sid 0) as [->|Hsid]; simpl.
    + destruct (IH seen) as (H1 & H2 & H3). split; [exact H1|]. split.
      * intros x Hx. destruct (H2 x Hx) as (? & ? & ?). auto.
      * intros x [<-|Hx] Hx0 Hseen; [now simpl in Hx0|]. now apply H3.
    + destruct (bool_decide (sid ∈ seen)) eqn:Hb.
      * apply bool_decide_eq_true in Hb. destruct (IH seen) as (H1 & H2 & H3).
        split; [exact H1|]. split.
        -- intros x Hx. destruct (H2 x Hx) as (? & ? & ?). auto.
        -- intros x [<-|Hx] Hx0 Hseen; [now simpl in Hseen|]. now apply H3.
      * apply bool_decide_eq_false in Hb.
        destruct (IH (seen ∪ {[ sid ]})) as (H1 & H2 & H3). simpl. split; [|split].
        -- constructor; [|exact H1]. rewrite in_map_iff. intros (x & E & Hx).
           destruct (H2 x Hx) as (_ & _ & Hns). rewrite E in Hns. set_solver.
        -- intros x [<-|Hx]; [simpl; auto|].
           destruct (H2 x Hx) as (? & ? & Hns). repeat split; auto. set_solver.
        -- intros x [<-|Hx] Hx0 Hseen.
           ++ eexists. split; [left; reflexivity|reflexivity].
           ++ destruct (Z.eq_dec (snd x) sid) as [E|E].
              ** eexists. split; [left; reflexivity|]. simpl. now rewrite E.
              ** destruct (H3 x Hx Hx0 ltac:(set_solver)) as (y & Hy & Ey).
                 exists y. split; [now right|exact Ey].
Qed.

Lemma in_family_rows d address pid name sid :
  In (pid, name, sid) (family_rows d address) <->
  exists p pr, In p (patients d) /\ In pr (prescriptions d) /\
    pt_id p = pid /\ pt_name p = name /\ pt_address p = address /\
    p_patient_id pr = pid /\ p_slot_id pr = Some sid.
Proof.
  unfold family_rows. rewrite <- list_elem_of_In, elem_of_remove_dups, list_elem_of_In.
  rewrite in_flat_map. split.
  - intros (pr & Hpr & Hin). destruct (p_slot_id pr) as [k|] eqn:Hk; [|destruct Hin].
    apply in_flat_map in Hin. destruct Hin as (p & Hp & Hin).
    destruct (Z.eqb_spec (pt_id p) (p_patient_id pr)) as [Hid|]; [|destruct Hin].
    destruct (String.eqb_spec (pt_address p) address) as [Ha|]; [|destruct Hin].
    destruct Hin as [[= <- <- <-]|[]]. exists p, pr.
    repeat split; try assumption; try reflexivity. now symmetry.
  - intros (p & pr & Hp & Hpr & <- & <- & <- & Hid & Hk). exists pr. split; [exact Hpr|].
    rewrite Hk. apply in_flat_map. exists p. split; [exact Hp|].
    rewrite Hid, Z.eqb_refl, String.eqb_refl. now left.
Qed.

(** [find_family_bins_by_address] lists each shared bin once: the slot ids
    of the result are pairwise distinct and non-zero, every entry is the
    slot of a prescription of a patient at that address, and every non-zero
    slot held by such a prescription is listed; an empty address gives
    nothing. *)
Theorem find_family_bins_by_address_spec d address :
  List.NoDup (List.map snd (find_family_bins_by_address d address)) /\
  (forall pid name sid, In (pid, name, sid) (find_family_bins_by_address d address) ->
     sid <> 0 /\
     exists p pr, In p (patients d) /\ In pr (prescriptions d) /\
       pt_id p = pid /\ pt_name p = name /\ pt_address p = address /\
       p_patient_id pr = pid /\ p_slot_id pr = Some sid) /\
  (forall p pr sid, address <> "" -> In p (patients d) -> In pr (prescriptions d) ->
     pt_address p = address -> p_patient_id pr = pt_id p -> p_slot_id pr = Some sid ->
     sid <> 0 ->
     exists pid name, In (pid, name, sid) (find_family_bins_by_address d address)) /\
  find_family_bins_by_address d "" = [].
Proof.
  unfold find_family_bins_by_address.
  destruct (family_bins_loop_spec (family_rows d address) ∅) as (H1 & H2 & H3).
  split; [|split; [|split; [|reflexivity]]].
  - destruct address; [constructor|exact H1].
  - intros pid name sid Hin. destruct address as [|a address]; [destruct Hin|].
    destruct (H2 _ Hin) as (Hrow & Hsid & _). split; [exact Hsid|].
    now apply in_family_rows.
  - intros p pr sid Ha Hp Hpr Haddr Hid Hk Hsid.
    destruct address as [|a address]; [congruence|].
    assert (Hrow : In (pt_id p, pt_name p, sid) (family_rows d (String a address)))
      by (apply in_family_rows; exists p, pr; repeat split; assumption || reflexivity).
    destruct (H3 (pt_id p, pt_name p, sid) Hrow Hsid (not_elem_of_empty _))
      as ([[pid name] sid'] & Hy & Ey).
    simpl in Ey. subst sid'. now exists pid, name.
Qed.

(** ** Parsed labels resolve to existing slots *)

Lemma slot_id_at_Some d shelf_name row col n :
  slot_id_at d shelf_name row col = Some n ->
  exists s, In s (slots d) /\ s_id s = n /\ s_shelf s = shelf_name /\
            s_row s = row /\ s_col s = col.
Proof.
  unfold slot_id_at, fetchone. destruct (List.find _ _) as [s|] eqn:Hf; [|discriminate].
  intros [= <-]. apply find_some in Hf. destruct Hf as [Hin E].
  apply at_position_true in E. exists s. tauto.
Qed.

(** [label_to_slot_id] never invents a slot: whatever the label, an id it
    returns is the key of a row of the slots table; the empty label and a
    label of blanks give [None]. *)
Theorem label_to_slot_id_sound d :
  (forall label n, label_to_slot_id d label = Some n ->
     exists s, In s (slots d) /\ s_id s = n) /\
  label_to_slot_id d "" = None /\ label_to_slot_id d "   " = None.
Proof.
  split; [|split; reflexivity].
  intros label n. destruct label as [|a label]; [discriminate|].
  rewrite label_to_slot_id_unfold by discriminate. unfold resolve_label.
  destruct (Py.isdigit _).
  - destruct (Py.int _) as [k|]; [|discriminate].
    unfold fetchone. destruct (List.find _ _) as [s|] eqn:Hf; [|discriminate].
    intros [= <-]. apply find_some in Hf. destruct Hf as [Hin E]. apply Z.eqb_eq in E.
    now exists s.
  - destruct (Py.split_on "-" _) as [|p1 [|p2 [|p3 [|p4 ps]]]]; try discriminate.
    + destruct p2 as [|row [|c rest]]; try discriminate.
      destruct (Py.int _) as [col|]; [|discriminate].
      intros H. apply slot_id_at_Some in H. destruct H as (s & Hin & Hid & _). now exists s.
    + destruct (Py.int _) as [col|]; [|discriminate].
      intros H. apply slot_id_at_Some in H. destruct H as (s & Hin & Hid & _). now exists s.
Qed.

(** ** The filing letter of a patient *)

Lemma split_ws_lstrip s :
  Py.split_ws_from "" (Py.lstrip s) = Py.split_ws_from "" s.
Proof.
  induction s as [|c s IH]; simpl; [reflexivity|].
  destruct (Py.isspace c) eqn:E; [exact IH|]. simpl. now rewrite E.
Qed.

Lemma split_ws_rstrip s : forall cur,
  Py.split_ws_from cur (Py.rstrip s) = Py.split_ws_from cur s.
Proof.
  induction s as [|c s IH]; intros cur; simpl; [reflexivity|].
  destruct (Py.rstrip s) as [|c' t] eqn:E.
  - destruct (Py.isspace c) eqn:Hc; simpl.
    + rewrite <- (IH ""). simpl. now destruct cur.
    + rewrite Hc. now rewrite <- IH.
  - simpl. destruct (Py.isspace c); [|apply IH].
    rewrite <- (IH ""). reflexivity.
Qed.

Lemma split_ws_strip s : Py.split_ws (Py.strip s) = Py.split_ws s.
Proof. unfold Py.split_ws, Py.strip. now rewrite split_ws_lstrip, split_ws_rstrip. Qed.

Lemma split_ws_blank post : forall cur,
  all_chars Py.isspace post = true ->
  Py.split_ws_from cur post = match cur with "" => [] | _ => [cur] end.
Proof.
  induction post as [|c post IH]; intros cur; simpl; [reflexivity|].
  rewrite andb_true_iff. intros [Hc Hp]. rewrite Hc, (IH "" Hp). now destruct cur.
Qed.

Lemma append_assoc_cons cur c s : (cur +:+ String c "") +:+ s = cur +:+ String c s.
Proof. induction cur as [|a cur IH]; [reflexivity|]. now rewrite !append_cons, IH. Qed.

Lemma split_ws_token tok post : forall cur,
  all_chars (fun c => negb (Py.isspace c)) tok = true ->
  all_chars Py.isspace post = true ->
  Py.split_ws_from cur (tok +:+ post) =
  match cur +:+ tok with "" => [] | x => [x] end.
Proof.
  induction tok as [|c tok IH]; intros cur Htok Hpost.
  - change ("" +:+ post) with post.
    rewrite append_empty_r, (split_ws_blank post cur Hpost). now destruct cur.
  - simpl in Htok. apply andb_true_iff in Htok. destruct Htok as [Hc Htok].
    apply negb_true_iff in Hc. rewrite append_cons. simpl. rewrite Hc.
    rewrite (IH _ Htok Hpost). now rewrite append_assoc_cons.
Qed.

Lemma last_item_cons {A} (x y : A) l :
  Py.last_item l = Py.Ok y -> Py.last_item (x :: l) = Py.Ok y.
Proof.
  unfold Py.last_item. simpl. destruct (List.rev l) as [|z r]; [discriminate|].
  intros [= ->]. reflexivity.
Qed.

Lemma split_ws_after_space pre w rest y : forall cur,
  Py.isspace w = true ->
  Py.last_item (Py.split_ws_from "" rest) = Py.Ok y ->
  Py.last_item (Py.split_ws_from cur ((pre +:+ String w "") +:+ rest)) = Py.Ok y.
Proof.
  induction pre as [|c pre IH]; intros cur Hw Hrest.
  - change (("" +:+ String w "") +:+ rest) with (String w rest). simpl. rewrite Hw.
    destruct cur; [exact Hrest|now apply last_item_cons].
  - rewrite !append_cons. simpl. destruct (Py.isspace c).
    + destruct cur; [now apply IH|]. apply last_item_cons. now apply IH.
    + now apply IH.
Qed.

(** The last item of the split of a text that ends in the token [t tok']
    followed by blanks. *)
Lemma last_token_split pre t tok' post :
  pre = "" \/ (exists pre' w, pre = pre' +:+ String w "" /\ Py.isspace w = true) ->
  Py.isspace t = false ->
  all_chars (fun c => negb (Py.isspace c)) tok' = true ->
  all_chars Py.isspace post = true ->
  Py.last_item (Py.split_ws (pre +:+ String t tok' +:+ post)) = Py.Ok (String t tok').
Proof.
  intros Hpre Ht Htok Hpost.
  assert (Htoken : Py.split_ws_from "" (String t tok' +:+ post) = [String t tok']).
  { rewrite (split_ws_token (String t tok') post ""); [reflexivity| |exact Hpost].
    simpl. now rewrite Ht, Htok. }
  unfold Py.split_ws. destruct Hpre as [->|(pre' & w & -> & Hw)].
  - change ("" +:+ String t tok' +:+ post) with (String t tok' +:+ post).
    now rewrite Htoken.
  - apply split_ws_after_space; [exact Hw|]. now rewrite Htoken.
Qed.

(** For a stored ASCII name whose last whitespace-separated token is
    [t tok'], whatever blanks follow it, [get_patient_letter] returns the
    upper-cased first character [t] of that token and does not raise. *)
Theorem get_patient_letter_last_token d patient_id p pre t tok' post :
  fetchone (fun q => pt_id q =? patient_id) (patients d) = Some p ->
  ascii_text (pt_name p) = true ->
  pt_name p = pre +:+ String t tok' +:+ post ->
  pre = "" \/ (exists pre' w, pre = pre' +:+ String w "" /\ Py.isspace w = true) ->
  Py.isspace t = false ->
  all_chars (fun c => negb (Py.isspace c)) tok' = true ->
  all_chars Py.isspace post = true ->
  get_patient_letter d patient_id = Py.Ok (String (Py.upper_char t) "").
Proof.
  intros Hp _ Hname Hpre Ht Htok Hpost.
  pose proof (last_token_split pre t tok' post Hpre Ht Htok Hpost) as Hlast.
  rewrite <- Hname in Hlast. unfold get_patient_letter. rewrite Hp.
  destruct (pt_name p) as [|c0 s0] eqn:E.
  - destruct pre; discriminate Hname.
  - now rewrite split_ws_strip, Hlast.
Qed.

(** "  john   van dyke " is filed under D. *)
Lemma get_patient_letter_last_token_witness :
  get_patient_letter section_db 4 = Py.Ok "D".
Proof.
  apply (get_patient_letter_last_token section_db 4
           {| pt_id := 4; pt_name := "  john   van dyke "; pt_address := "" |}
           "  john   van " "d" "yke" " ").
  - reflexivity.
  - reflexivity.
  - reflexivity.
  - right. exists "  john   van", " "%char. split; reflexivity.
  - reflexivity.
  - reflexivity.
  - reflexivity.
Defined.

(** For a patient whose stored name is ASCII, a letter returned by
    [get_patient_letter] is a single character; in particular such a patient
    is never filed under "Overflow". *)
Theorem get_patient_letter_one_char d patient_id letter :
  (forall p, fetchone (fun q => pt_id q =? patient_id) (patients d) = Some p ->
             ascii_text (pt_name p) = true) ->
  get_patient_letter d patient_id = Py.Ok letter ->
  String.length letter = 1%nat /\ letter <> "Overflow".
Proof.
  intros _. unfold get_patient_letter.
  destruct (fetchone _ _) as [p|]; [|intros [= <-]; split; [reflexivity|discriminate]].
  destruct (pt_name p) as [|c s]; [intros [= <-]; split; [reflexivity|discriminate]|].
  destruct (Py.last_item _) as [last|e]; [|discriminate].
  destruct last as [|c' s']; intros [= <-]; split; try reflexivity; discriminate.
Qed.

Lemma get_patient_letter_one_char_witness :
  String.length "S" = 1%nat /\ "S" <> "Overflow".
Proof.
  apply (get_patient_letter_one_char section_db 1 "S").
  - intros p H. vm_compute in H. injection H as <-. reflexivity.
  - reflexivity.
Defined.

(** ** Names as the forms store them (claim C8) *)








(** ** Deleting one prescription *)




(** ** Automatic assignment and the ledger *)

Lemma repair_flag d s :
  In s (slots (repair_slot_occupancy d)) ->
  s_occupied s = (if bool_decide (s_id s ∈ seen_ids d) then 1 else 0) /\
  exists s0, In s0 (slots d) /\ s_id s0 = s_id s /\ s_shelf s0 = s_shelf s /\
             s_row s0 = s_row s /\ s_col s0 = s_col s.
Proof.
  rewrite repair_slots. intros Hin. apply in_map_iff in Hin.
  destruct Hin as (s0 & <- & Hin). split; [reflexivity|]. exists s0. now simpl.
Qed.

Lemma seen_iff_referenced d i :
  (forall s, In s (slots d) -> s_id s <> 0) ->
  (exists s, In s (slots d) /\ s_id s = i) ->
  i ∈ seen_ids d <-> referenced d i.
Proof.
  intros Hids (s & Hs & <-). unfold seen_ids. rewrite elem_of_collect_seen.
  unfold referenced. split.
  - intros (p & k & Hp & Hk & Hcase). apply List.filter_In in Hp. destruct Hp as [Hp _].
    apply truthy_id_Some in Hk. destruct Hk as [Hk _].
    exists p, k. split; [exact Hp|]. split; [exact Hk|].
    destruct Hcase as [->|[Hl Hpart]]; [auto|].
    apply truthy_id_Some in Hpart. tauto.
  - intros (p & k & Hp & Hk & Hcase).
    assert (Hk0 : k <> 0).
    { destruct Hcase as [<-|[_ Hpart]]; [now apply Hids|].
      intros ->. unfold next_col_partner_slot_id, slot_id_to_tuple, fetchone in Hpart.
      destruct (List.find _ (slots d)) as [s0|] eqn:Hf; [|discriminate].
      apply find_some in Hf. destruct Hf as [Hin0 E0]. apply Z.eqb_eq in E0.
      now apply (Hids s0 Hin0). }
    exists p, k. split.
    { apply List.filter_In. split; [exact Hp|]. rewrite Hk.
      apply bool_decide_eq_true. now eexists. }
    split; [apply truthy_id_Some; auto|].
    destruct Hcase as [->|[Hl Hpart]]; [auto|]. right. split; [exact Hl|].
    apply truthy_id_Some. split; [exact Hpart|]. now apply Hids.
Qed.

Lemma with_overflow_is_search d letter basket res :
  find_next_available_slot_with_overflow d letter basket = Some res ->
  exists shelf_name sr sc er ec,
    find_slot_in_section d shelf_name sr sc er ec basket = Some res.
Proof.
  unfold find_next_available_slot_with_overflow, find_next_available_slot_primary.
  destruct (get_letter_section d letter) as [[[[[sh sr] sc] er] ec]|].
  - destruct (find_slot_in_section d sh sr sc er ec basket) as [res'|] eqn:Hp.
    + intros [= <-]. eauto 10.
    + unfold get_overflow_section.
      destruct (get_letter_section d "Overflow") as [[[[[osh osr] osc] oer] oec]|]; [|discriminate].
      destruct (find_slot_in_section d osh osr osc oer oec basket) eqn:Ho; [|discriminate].
      intros [= <-]. eauto 10.
  - unfold get_overflow_section.
    destruct (get_letter_section d "Overflow") as [[[[[osh osr] osc] oer] oec]|]; [|discriminate].
    destruct (find_slot_in_section d osh osr osc oer oec basket) eqn:Ho; [|discriminate].
    intros [= <-]. eauto 10.
Qed.

Lemma try_column_shape d shelf_name basket r c ids :
  try_column d shelf_name basket r c = Some ids ->
  exists s1, get_slot_by_position d shelf_name (row_str r) c = Some (s1, 0) /\
    ((String.eqb basket "large" = false /\ ids = [s1]) \/
     (String.eqb basket "large" = true /\
      exists s2, get_slot_by_position d shelf_name (row_str r) (c + 1) = Some (s2, 0) /\
                 ids = [s1; s2])).
Proof.
  unfold try_column.
  destruct (get_slot_by_position d shelf_name (row_str r) c) as [[s1 o1]|]; [|discriminate].
  destruct (Z.eqb_spec o1 0) as [->|]; simpl; [|discriminate].
  destruct (String.eqb basket "large").
  - destruct (get_slot_by_position d shelf_name (row_str r) (c + 1)) as [[s2 o2]|]; [|discriminate].
    destruct (Z.eqb_spec o2 0) as [->|]; [|discriminate]. intros [= <-].
    exists s1. split; [reflexivity|]. right. split; [reflexivity|]. now exists s2.
  - intros [= <-]. exists s1. split; [reflexivity|]. now left.
Qed.

(** With non-zero slot keys, the slots proposed by
    [auto_assign_for_patient] are slots of the table that no live
    prescription references, neither as its slot nor as the partner of a
    large basket: the repair that precedes the search rules out
    double-booking whatever the flags were before. *)
Theorem auto_assign_proposes_unreferenced d pid basket d1 ids sh :
  (forall s, In s (slots d) -> s_id s <> 0) ->
  auto_assign_for_patient d pid basket = Py.Ok (d1, Some (ids, sh)) ->
  d1 = repair_slot_occupancy d /\
  forall i, In i ids -> (exists s, In s (slots d) /\ s_id s = i) /\ ~ referenced d i.
Proof.
  intros Hnz. unfold auto_assign_for_patient.
  destruct (get_patient_letter _ pid) as [letter|e]; [|discriminate].
  intros [= <- Hres]. split; [reflexivity|].
  apply with_overflow_is_search in Hres. destruct Hres as (shn & sr & sc & er & ec & Hf).
  apply find_slot_in_section_Some in Hf. destruct Hf as (_ & r & c & _ & Htry & _).
  assert (Hfree : forall i sh' row col,
            get_slot_by_position (repair_slot_occupancy d) sh' row col = Some (i, 0) ->
            (exists s, In s (slots d) /\ s_id s = i) /\ ~ referenced d i).
  { intros i sh' row col Hpos. apply get_slot_by_position_Some in Hpos.
    destruct Hpos as (s & Hin & Hid & Ho & _).
    apply repair_flag in Hin. destruct Hin as (Hflag & s0 & Hs0 & Hid0 & _).
    assert (Hex : exists s, In s (slots d) /\ s_id s = i) by (exists s0; split; congruence).
    split; [exact Hex|]. rewrite <- (seen_iff_referenced d i Hnz Hex).
    rewrite Ho in Hflag. rewrite Hid in Hflag.
    destruct (bool_decide (i ∈ seen_ids d)) eqn:Hb; [discriminate|].
    now apply bool_decide_eq_false in Hb. }
  apply try_column_shape in Htry.
  destruct Htry as (s1 & H1 & [[_ ->]|[_ (s2 & H2 & ->)]]).
  - intros i [<-|[]]. eapply Hfree; eauto.
  - intros i [<-|[<-|[]]]; eapply Hfree; eauto.
Qed.

(** In [family_db] slot F-A1 is referenced by both prescriptions; even
    after its flag has been cleared the proposal is F-A2. *)
Lemma auto_assign_proposes_unreferenced_witness :
  auto_assign_for_patient (mark_slots_free family_db [1]) 1 "small"
    = Py.Ok (repair_slot_occupancy family_db, Some ([2], "F")) /\
  ~ referenced (mark_slots_free family_db [1]) 2.
Proof.
  assert (E : auto_assign_for_patient (mark_slots_free family_db [1]) 1 "small"
              = Py.Ok (repair_slot_occupancy family_db, Some ([2], "F")))
    by (vm_compute; reflexivity).
  split; [exact E|].
  assert (Hnz : forall s, In s (slots (mark_slots_free family_db [1])) -> s_id s <> 0).
  { intros s Hin. vm_compute in Hin. destruct Hin as [<-|[<-|[]]]; discriminate. }
  destruct (auto_assign_proposes_unreferenced _ 1 "small" _ [2] "F" Hnz E) as (_ & H).
  apply (H 2). now left.
Defined.

Lemma slot_id_at_same_address d d' f shelf_name row col :
  same_address f -> slots d' = List.map f (slots d) ->
  slot_id_at d' shelf_name row col = slot_id_at d shelf_name row col.
Proof.
  intros Hf E. unfold slot_id_at, fetchone. rewrite E, find_map_occupied.
  - destruct (List.find _ (slots d)) as [s|]; simpl; [|reflexivity].
    now rewrite (proj1 (Hf s)).
  - intros s. unfold at_position. destruct (Hf s) as (_ & -> & -> & ->). reflexivity.
Qed.

Lemma get_slot_by_position_id d shelf_name row col sid occ :
  get_slot_by_position d shelf_name row col = Some (sid, occ) ->
  slot_id_at d shelf_name row col = Some sid.
Proof.
  unfold get_slot_by_position, slot_id_at.
  destruct (fetchone _ _) as [s|]; simpl; [|discriminate]. now intros [= <- _].
Qed.

Lemma mark_slots_occupied_slots d (ids : list Z) :
  slots (mark_slots_occupied d ids) =
  List.map (fun s => if bool_decide (s_id s ∈ ids) then set_occupied_row 1 s else s) (slots d).
Proof. unfold mark_slots_occupied. simpl. apply fold_update_occupied. Qed.

Lemma map_fixed {A} (f : A -> A) (l : list A) :
  (forall x, In x l -> f x = x) -> List.map f l = l.
Proof.
  induction l as [|x l IH]; simpl; [reflexivity|]. intros H.
  rewrite (H x (or_introl eq_refl)), IH; [reflexivity|]. intros y Hy. apply H. now right.
Qed.

Lemma set_occupied_row_same s : set_occupied_row (s_occupied s) s = s.
Proof. now destruct s. Qed.

Lemma repair_same_address_seen d d' f :
  same_address f -> slots d' = List.map f (slots d) ->
  seen_ids d' = collect_seen d
    (List.filter (fun p => bool_decide (is_Some (p_slot_id p))) (prescriptions d')).
Proof. intros Hf E. unfold seen_ids. now apply (collect_seen_same_address d d' f). Qed.

(** When a confirmed automatic assignment stores its proposal on a
    prescription that had no slot, in a table with unique non-zero slot
    keys and a unique prescription id, the ledger is canonical afterwards:
    a further [repair_slot_occupancy] changes no flag. *)
Theorem auto_assign_accept_canonical d pid basket d1 ids sh presc_id p d2 :
  (forall s s', In s (slots d) -> In s' (slots d) -> s_id s' = s_id s -> s' = s) ->
  (forall s, In s (slots d) -> s_id s <> 0) ->
  In p (prescriptions d) ->
  (forall q, In q (prescriptions d) -> p_id q = presc_id <-> q = p) ->
  truthy_id (p_slot_id p) = None ->
  is_large (p_basket_size p) = String.eqb basket "large" ->
  auto_assign_for_patient d pid basket = Py.Ok (d1, Some (ids, sh)) ->
  accept_auto_assign d1 presc_id ids = Py.Ok d2 ->
  slots (repair_slot_occupancy d2) = slots d2.
Proof.
  intros Hkey Hnz Hp Hpid Hun Hbasket Hauto Hacc.
  unfold auto_assign_for_patient in Hauto.
  destruct (get_patient_letter _ pid) as [letter|e]; [|discriminate].
  injection Hauto as <- Hres.
  apply with_overflow_is_search in Hres. destruct Hres as (shn & sr & sc & er & ec & Hf).
  apply find_slot_in_section_Some in Hf. destruct Hf as (_ & r & c & _ & Htry & _).
  apply try_column_shape in Htry. destruct Htry as (s1 & H1 & Hshape).
  set (g := fun s => set_occupied_row (if bool_decide (s_id s ∈ seen_ids d) then 1 else 0) s).
  assert (Hd1 : slots (repair_slot_occupancy d) = List.map g (slots d)) by apply repair_slots.
  assert (Hg : same_address g) by (intros s; now simpl).
  (* the first proposed slot *)
  pose proof H1 as H1'. apply get_slot_by_position_Some in H1'.
  destruct H1' as (S1 & HS1in & HS1id & _ & HS1sh & HS1row & HS1col).
  rewrite Hd1 in HS1in. apply in_map_iff in HS1in. destruct HS1in as (S0 & HS0 & HS0in).
  assert (HS0id : s_id S0 = s1) by (rewrite <- HS1id, <- HS0; reflexivity).
  assert (Hs1nz : s1 <> 0) by (rewrite <- HS0id; now apply Hnz).
  assert (Htuple : slot_id_to_tuple d s1 = Some (shn, row_str r, c)).
  { unfold slot_id_to_tuple. rewrite <- HS0id.
    rewrite (fetchone_by_id d S0 HS0in (fun s' Hs' => Hkey S0 s' HS0in Hs')).
    rewrite <- HS1sh, <- HS1row, <- HS1col, <- HS0. reflexivity. }
  (* the accepted state *)
  assert (Hids : ids = s1 :: List.tl ids) by (destruct Hshape as [[_ ->]|[_ (s2 & _ & ->)]]; reflexivity).
  unfold accept_auto_assign in Hacc. rewrite Hids in Hacc. injection Hacc as <-.
  rewrite <- Hids.
  set (h := fun s => if bool_decide (s_id s ∈ ids) then set_occupied_row 1 s else s).
  assert (Hd2 : slots (mark_slots_occupied (repair_slot_occupancy d) ids)
                = List.map (fun s => h (g s)) (slots d)).
  { rewrite mark_slots_occupied_slots, Hd1, List.map_map. reflexivity. }
  assert (Hhg : same_address (fun s => h (g s))).
  { intros s. unfold h. destruct (bool_decide _); now simpl. }
  set (d2 := with_prescriptions (mark_slots_occupied (repair_slot_occupancy d) ids)
               (set_prescription_slot s1 presc_id
                  (prescriptions (mark_slots_occupied (repair_slot_occupancy d) ids)))).
  assert (Hslots2 : slots d2 = List.map (fun s => h (g s)) (slots d)) by exact Hd2.
  assert (Hpresc2 : prescriptions d2 = set_prescription_slot s1 presc_id (prescriptions d))
    by reflexivity.
  (* the partner of the first slot *)
  assert (Hpartner : forall i,
            (i = s1 \/ (is_large (p_basket_size p) = true /\
                        truthy_id (next_col_partner_slot_id d s1) = Some i)) <-> In i ids).
  { intros i. destruct Hshape as [[Hb ->]|[Hb (s2 & H2 & ->)]].
    - rewrite Hbasket, Hb. simpl. split; [intros [->|[? _]]; [auto|discriminate]|].
      intros [<-|[]]. now left.
    - rewrite Hbasket, Hb.
      assert (Hp2 : next_col_partner_slot_id d s1 = Some s2).
      { unfold next_col_partner_slot_id. rewrite Htuple.
        rewrite <- (slot_id_at_same_address d (repair_slot_occupancy d) g _ _ _ Hg Hd1).
        eapply get_slot_by_position_id; eauto. }
      assert (Hs2nz : s2 <> 0).
      { apply get_slot_by_position_Some in H2. destruct H2 as (S2 & HS2in & HS2id & _).
        rewrite Hd1 in HS2in. apply in_map_iff in HS2in. destruct HS2in as (S20 & E & Hin20).
        rewrite <- HS2id, <- E. simpl. now apply Hnz. }
      rewrite Hp2. split.
      + intros [->|[_ Ht]]; [now left|]. apply truthy_id_Some in Ht.
        destruct Ht as [[= ->] _]. right. now left.
      + intros [<-|[<-|[]]]; [now left|]. right. split; [reflexivity|].
        apply truthy_id_Some. auto. }
  (* the ids marked by a repair of the accepted state *)
  assert (Hseen2 : forall i, i ∈ seen_ids d2 <-> i ∈ seen_ids d \/ In i ids).
  { intros i. rewrite (repair_same_address_seen d d2 _ Hhg Hslots2), Hpresc2.
    unfold seen_ids. rewrite !elem_of_collect_seen. split.
    - intros (q' & k & Hq' & Hk & Hcase). apply List.filter_In in Hq'.
      destruct Hq' as [Hq' _]. unfold set_prescription_slot in Hq'.
      apply in_map_iff in Hq'. destruct Hq' as (q & <- & Hq).
      destruct (Z.eqb_spec (p_id q) presc_id) as [E|E].
      + apply (Hpid q Hq) in E. subst q. cbn [p_slot_id p_basket_size] in Hk, Hcase.
        apply truthy_id_Some in Hk. destruct Hk as [[= <-] _].
        right. now apply Hpartner.
      + left. exists q, k. split; [|auto]. apply List.filter_In. split; [exact Hq|].
        apply bool_decide_eq_true. apply truthy_id_Some in Hk. destruct Hk as [-> _].
        now eexists.
    - intros [(q & k & Hq & Hk & Hcase)|Hin].
      + apply List.filter_In in Hq. destruct Hq as [Hq Hsome].
        assert (Hne : p_id q <> presc_id).
        { intros E. apply (Hpid q Hq) in E. subst q. congruence. }
        exists q, k. split; [|auto]. apply List.filter_In. split; [|exact Hsome].
        unfold set_prescription_slot. apply in_map_iff. exists q. split; [|exact Hq].
        destruct (Z.eqb_spec (p_id q) presc_id); [contradiction|reflexivity].
      + apply Hpartner in Hin.
        exists {| p_id := p_id p; p_patient_id := p_patient_id p;
                  p_medication := p_medication p; p_basket_size := p_basket_size p;
                  p_slot_id := Some s1 |}, s1.
        split; [|split; [apply truthy_id_Some; auto|exact Hin]].
        apply List.filter_In. split; [|apply bool_decide_eq_true; now eexists].
        unfold set_prescription_slot. apply in_map_iff. exists p. split; [|exact Hp].
        assert (E : p_id p = presc_id) by (now apply (Hpid p Hp)).
        apply Z.eqb_eq in E. now rewrite E. }
  (* every flag already is the canonical one *)
  change (slots (repair_slot_occupancy d2) = slots d2).
  rewrite repair_slots. fold (seen_ids d2). apply map_fixed. intros s Hs.
  rewrite Hslots2 in Hs. apply in_map_iff in Hs. destruct Hs as (s0 & <- & Hs0).
  etransitivity; [|apply set_occupied_row_same]. f_equal.
  assert (Hid : s_id (h (g s0)) = s_id s0) by apply (Hhg s0). rewrite Hid.
  unfold h, g. cbn [s_id set_occupied_row].
  destruct (bool_decide (s_id s0 ∈ ids)) eqn:Hb1;
    destruct (bool_decide (s_id s0 ∈ seen_ids d)) eqn:Hb2;
    destruct (bool_decide (s_id s0 ∈ seen_ids d2)) eqn:Hb3; simpl; try reflexivity; exfalso;
    try apply bool_decide_eq_true in Hb1; try apply bool_decide_eq_false in Hb1;
    try apply bool_decide_eq_true in Hb2; try apply bool_decide_eq_false in Hb2;
    try apply bool_decide_eq_true in Hb3; try apply bool_decide_eq_false in Hb3;
    rewrite Hseen2 in Hb3; rewrite list_elem_of_In in Hb1; tauto.
Qed.

(** In [demo_db] prescription 4 (small, unassigned) of patient 1 is given
    F-B2; the ledger is canonical afterwards. *)
Lemma auto_assign_accept_canonical_witness :
  exists d2,
    accept_auto_assign (repair_slot_occupancy demo_db) 4 [5] = Py.Ok d2 /\
    slots (repair_slot_occupancy d2) = slots d2.
Proof.
  destruct (accept_auto_assign (repair_slot_occupancy demo_db) 4 [5]) as [d2|e] eqn:E;
    [|discriminate E].
  exists d2. split; [reflexivity|].
  apply (auto_assign_accept_canonical demo_db 1 "small" (repair_slot_occupancy demo_db)
           [5] "F" 4 (mk_presc 4 1 "small" None) d2).
  - intros s s' Hs Hs' Eid. simpl in Hs, Hs'.
    repeat (destruct Hs as [<-|Hs];
            [repeat (destruct Hs' as [<-|Hs']; [first [reflexivity|discriminate Eid]|]);
             destruct Hs'|]).
    destruct Hs.
  - intros s Hs. simpl in Hs. repeat (destruct Hs as [<-|Hs]; [discriminate|]). destruct Hs.
  - simpl. tauto.
  - intros q Hq. simpl in Hq.
    destruct Hq as [<-|[<-|[<-|[<-|[]]]]]; split; intros H; try reflexivity; discriminate H.
  - reflexivity.
  - reflexivity.
  - vm_compute. reflexivity.
  - exact E.
Defined.

(** ** Adding and editing shelves *)

Lemma populate_appends d shelf_name rows_count cols_count :
  exists new,
    slots (populate_slots_for_shelf d shelf_name rows_count cols_count) =
      (slots d ++ new)%list /\
    (forall s, In s new -> s_shelf s = shelf_name /\ s_occupied s = 0) /\
    shelves (populate_slots_for_shelf d shelf_name rows_count cols_count) = shelves d.
Proof.
  destruct (List.filter (fun s => String.eqb (s_shelf s) shelf_name) (slots d)) as [|x l] eqn:Hf.
  - assert (Hnone : forall s, In s (slots d) -> s_shelf s <> shelf_name).
    { intros s Hin E. apply String.eqb_eq in E.
      assert (Hx : In s (List.filter (fun s => String.eqb (s_shelf s) shelf_name) (slots d)))
        by (apply List.filter_In; auto).
      rewrite Hf in Hx. destruct Hx. }
    rewrite (populate_unfold _ _ _ _ Hnone).
    destruct (insert_cells_spec shelf_name (grid_cells rows_count cols_count) d)
      as (Hs & _ & _ & Hsh & _).
    eexists. split; [exact Hs|]. split; [|exact Hsh].
    intros s Hin. apply in_new_slots in Hin. tauto.
  - assert (Hx : In x (List.filter (fun s => String.eqb (s_shelf s) shelf_name) (slots d)))
      by (rewrite Hf; now left).
    apply List.filter_In in Hx. destruct Hx as [Hin E]. apply String.eqb_eq in E.
    rewrite (populate_slots_for_shelf_populated d shelf_name _ _ x Hin E).
    exists []. rewrite app_nil_r. split; [reflexivity|]. split; [intros s []|reflexivity].
Qed.

(** A shelf edit never deletes a slot and never changes the key, row,
    column or flag of one: the slot table afterwards is the old one, with at
    most the shelf name replaced, followed by free new rows. *)
Theorem apply_edit_never_deletes d current new_name_entry rows_count cols_count :
  exists new,
    List.map slot_core (slots (apply_edit d current new_name_entry rows_count cols_count)) =
      (List.map slot_core (slots d) ++ List.map slot_core new)%list /\
    forall s, In s new -> s_occupied s = 0.
Proof.
  unfold apply_edit.
  set (new_name := Py.upper (Py.strip _)).
  destruct (negb (String.eqb new_name current)).
  - destruct (fetchone _ (shelves d)).
    + exists []. simpl. now rewrite app_nil_r.
    + match goal with |- context [populate_slots_for_shelf ?d0 _ _ _] =>
        destruct (populate_appends d0 new_name rows_count cols_count) as (new & Hs & Hnew & _)
      end.
      exists new. rewrite Hs. simpl. rewrite List.map_app, List.map_map. split.
      * f_equal. apply map_ext. intros s. unfold rename_slot_row, slot_core.
        now destruct (String.eqb (s_shelf s) current).
      * intros s Hin. now apply Hnew.
  - match goal with |- context [populate_slots_for_shelf ?d0 _ _ _] =>
      destruct (populate_appends d0 new_name rows_count cols_count) as (new & Hs & Hnew & _)
    end.
    exists new. rewrite Hs. simpl. rewrite List.map_app. split; [reflexivity|].
    intros s Hin. now apply Hnew.
Qed.

Lemma populate_fresh_cell_free d shelf_name rows_count cols_count i c :
  (forall s, In s (slots d) -> s_shelf s <> shelf_name) ->
  0 <= i < rows_count -> 1 <= c <= cols_count ->
  free_at (populate_slots_for_shelf d shelf_name rows_count cols_count) shelf_name
          (ascii_of_N (Z.to_N (65 + i))) c.
Proof.
  intros Hnone Hi Hc. rewrite (populate_unfold _ _ _ _ Hnone).
  destruct (insert_cells_spec shelf_name (grid_cells rows_count cols_count) d) as (Hs & _).
  destruct (new_slots_cell shelf_name (slot_key_base d) (grid_cells rows_count cols_count) i c)
    as (s & Hin & Hrow & Hcol); [apply in_grid_cells; lia|].
  pose proof (in_new_slots _ _ _ _ Hin) as (Hsh & _).
  unfold free_at, get_slot_by_position, fetchone. rewrite Hs.
  change (row_str (ascii_of_N (Z.to_N (65 + i)))) with (row_letter i).
  destruct (List.find _ _) as [s0|] eqn:Hf.
  - simpl. apply find_some in Hf. destruct Hf as [Hin0 E].
    apply at_position_true in E. destruct E as (E1 & _).
    apply in_app_or in Hin0. destruct Hin0 as [Hold|Hnew]; [now destruct (Hnone s0 Hold)|].
    apply in_new_slots in Hnew. destruct Hnew as (_ & -> & _). now exists (s_id s0).
  - exfalso. assert (Hin' : In s (slots d ++ new_slots shelf_name (slot_key_base d)
                                        (grid_cells rows_count cols_count))%list)
      by (apply in_or_app; now right).
    apply (find_none _ _ Hf) in Hin'.
    assert (at_position shelf_name (row_letter i) c s = true)
      by (now apply at_position_true).
    congruence.
Qed.

(** [add_shelf] changes nothing when the normalised name is empty or
    already names a shelf; for a new name, with no slot row left over under
    that name and at most 191 rows, it appends the shelf row and every cell
    of the new grid has a free slot. *)
Theorem add_shelf_spec d new_name_entry old_name_entry rows_count cols_count :
  let name := Py.upper (Py.strip (match new_name_entry with
                                  | EmptyString => old_name_entry
                                  | e => e
                                  end)) in
  (name = "" -> add_shelf d new_name_entry old_name_entry rows_count cols_count = d) /\
  (forall r, In r (shelves d) -> sh_name r = name ->
     add_shelf d new_name_entry old_name_entry rows_count cols_count = d) /\
  (name <> "" -> (forall r, In r (shelves d) -> sh_name r <> name) ->
   (forall s, In s (slots d) -> s_shelf s <> name) -> rows_count <= 191 ->
   shelves (add_shelf d new_name_entry old_name_entry rows_count cols_count) =
     (shelves d ++ [ {| sh_name := name; sh_rows_count := rows_count;
                        sh_cols_count := cols_count |} ])%list /\
   forall i c, 0 <= i < rows_count -> 1 <= c <= cols_count ->
     free_at (add_shelf d new_name_entry old_name_entry rows_count cols_count) name
             (ascii_of_N (Z.to_N (65 + i))) c).
Proof.
  intros name. unfold add_shelf. fold name. split; [|split].
  - intros ->. reflexivity.
  - intros r Hin Hname. destruct name as [|a n] eqn:E; [reflexivity|].
    unfold fetchone. destruct (List.find _ (shelves d)) as [r'|] eqn:Hf; [reflexivity|].
    apply (find_none _ _ Hf) in Hin. apply String.eqb_neq in Hin. contradiction.
  - intros Hne Hnew Hnone _. destruct name as [|a n] eqn:E; [contradiction|].
    unfold fetchone. destruct (List.find _ (shelves d)) as [r'|] eqn:Hf.
    + apply find_some in Hf. destruct Hf as [Hin Heq]. apply String.eqb_eq in Heq.
      now destruct (Hnew r' Hin).
    + split.
      * match goal with |- context [populate_slots_for_shelf ?d0 _ _ _] =>
          destruct (populate_appends d0 (String a n) rows_count cols_count) as (new & _ & _ & Hsh)
        end.
        rewrite Hsh. reflexivity.
      * intros i c Hi Hc. now apply populate_fresh_cell_free.
Qed.

Lemma add_shelf_spec_witness :
  add_shelf small_shelf_db " f " "" 5 5 = small_shelf_db /\
  free_at (add_shelf small_shelf_db "g" "" 2 3) "G" "B" 3.
Proof.
  destruct (add_shelf_spec small_shelf_db " f " "" 5 5) as (_ & Hdup & _).
  destruct (add_shelf_spec small_shelf_db "g" "" 2 3) as (_ & _ & Hnew).
  split.
  - apply (Hdup {| sh_name := "F"; sh_rows_count := 1; sh_cols_count := 1 |});
      [now left|reflexivity].
  - apply (fun H1 H2 H3 H4 => proj2 (Hnew H1 H2 H3 H4) 1 3); try lia; try discriminate.
    + intros r [<-|[]]. discriminate.
    + intros s [<-|[]]. discriminate.
Defined.

(** ** Deleting a patient *)

(** Deleting a known patient removes the patient and exactly the
    prescriptions of that patient, clears the flag of the slots stored as
    [slot_id] on those prescriptions and leaves every other slot row as it
    was (the next-column partner of a large basket keeps its flag); an
    unknown patient raises [TypeError]. *)
Theorem delete_selected_patient_frame d pid :
  ((forall q, In q (patients d) -> pt_id q <> pid) ->
   delete_selected_patient d pid = Py.Raise Py.TypeError) /\
  (forall d', delete_selected_patient d pid = Py.Ok d' ->
     patients d' = List.filter (fun q => negb (pt_id q =? pid)) (patients d) /\
     prescriptions d' = List.filter (fun p => negb (p_patient_id p =? pid)) (prescriptions d) /\
     (forall s, In s (slots d') ->
        (exists p, In p (prescriptions d) /\ p_patient_id p = pid /\
                   p_slot_id p = Some (s_id s)) -> s_id s <> 0 -> s_occupied s = 0) /\
     (forall s, In s (slots d) ->
        (forall p, In p (prescriptions d) -> p_patient_id p = pid ->
                   p_slot_id p <> Some (s_id s)) ->
        In s (slots d'))).
Proof.
  unfold delete_selected_patient. split.
  - intros Hno. unfold fetchone. destruct (List.find _ (patients d)) as [q|] eqn:Hf; [|reflexivity].
    apply find_some in Hf. destruct Hf as [Hin E]. apply Z.eqb_eq in E. now destruct (Hno q Hin).
  - intros d'. destruct (fetchone _ (patients d)) as [pt|]; [|discriminate].
    intros [= <-]. simpl.
    rewrite fold_update_occupied. split; [reflexivity|]. split; [reflexivity|].
    set (sids := List.flat_map _ _).
    assert (Hsids : forall i, In i sids <->
              i <> 0 /\ exists p, In p (prescriptions d) /\ p_patient_id p = pid /\
                                  p_slot_id p = Some i).
    { intros i. unfold sids. rewrite in_flat_map. split.
      - intros (p & Hp & Hi). apply List.filter_In in Hp. destruct Hp as [Hp E].
        apply Z.eqb_eq in E. destruct (truthy_id (p_slot_id p)) as [k|] eqn:Hk; [|destruct Hi].
        destruct Hi as [<-|[]]. apply truthy_id_Some in Hk. destruct Hk as [Hk Hk0].
        split; [exact Hk0|]. now exists p.
      - intros (Hi & p & Hp & E & Hk). exists p. split.
        + apply List.filter_In. split; [exact Hp|]. now apply Z.eqb_eq.
        + assert (Ht : truthy_id (p_slot_id p) = Some i) by (apply truthy_id_Some; auto).
          rewrite Ht. now left. }
    split.
    + intros s Hin Hex Hnz. apply in_map_iff in Hin. destruct Hin as (s0 & <- & _).
      destruct (bool_decide (s_id s0 ∈ sids)) eqn:Hb; [reflexivity|].
      apply bool_decide_eq_false in Hb. exfalso. apply Hb. apply list_elem_of_In.
      apply Hsids. split; [exact Hnz|exact Hex].
    + intros s Hin Hnot. apply in_map_iff. exists s. split; [|exact Hin].
      rewrite bool_decide_eq_false_2; [reflexivity|]. rewrite list_elem_of_In.
      intros Hi. apply Hsids in Hi. destruct Hi as (_ & p & Hp & E & Hk).
      now apply (Hnot p Hp E).
Qed.

(** Deleting patient 1 of [demo_db], who holds a large basket at F-A1,
    frees F-A1 but leaves the partner F-A2 flagged. *)
Lemma delete_selected_patient_frame_witness :
  exists d', delete_selected_patient demo_db 1 = Py.Ok d' /\
             prescriptions d' = [] /\
             List.map s_occupied (slots d') = [0; 1; 0; 0; 0; 0; 0; 0; 0; 0; 0].
Proof.
  destruct (delete_selected_patient demo_db 1) as [d'|e] eqn:E; [|discriminate E].
  destruct (proj2 (delete_selected_patient_frame demo_db 1) d' E) as (_ & Hp & _).
  exists d'. split; [reflexivity|]. split; [rewrite Hp; reflexivity|].
  vm_compute in E. injection E as <-. reflexivity.
Defined.
